(** * CDCR inmate scraper: the record model, the collector and the exporters

    A shallow embedding of [cdcr_inmate_scraper.py].  The class
    [CDCRInmateScraper] keeps two attributes ([results], [timestamp]); its
    methods print, sleep and write files.  They are modelled as computations
    in a state-and-exception monad over the object and the part of the
    operating system the methods touch (files, standard output, time slept).

    Text.  A Python [str] is modelled by the Rocq [string] of its UTF-8
    encoding, which is what reaches a file opened with [encoding='utf-8'].
    The characters the code and the [csv] and [json] modules test for (comma,
    quote, backslash, CR, LF, the controls below 0x20) are single bytes in
    UTF-8 and never occur inside a multi-byte sequence, so the tests read the
    same on bytes.  The strings of a record are taken to have a UTF-8
    encoding.  A [str] holding a lone surrogate has none; the one place
    where the program can meet such a [str] is the result of [json.loads]
    on a [\uXXXX] escape, and it is kept apart there (the value [PLone]),
    since writing it to the file raises.

    Library code.  [csv.DictWriter], [json.dump] and [json.loads] are not
    part of the repository; they are modelled after CPython's [csv] and
    [json] modules (3.11) at the settings the source selects: the excel
    dialect, [indent=2], [ensure_ascii=False], strict decoding.  The limits
    of the interpreter are those of CPython 3.11 as it starts: integer
    literals of at most 4300 digits, and the recursion limit of 1000 with
    the methods called from the top level of a script, as the script of the
    source calls them.

    Outside the model: failures of the operating system ([open] and [write]
    always succeed, memory is never short), and the translation of line ends
    in text mode, which is the identity on a POSIX system. *)

From Stdlib Require Import String Ascii List ZArith Lia Bool DecimalString.
From Stdlib Require DecimalPos DecimalZ.
From stdpp Require Import gmap strings.

(** ** Python values *)

#[local] Set Warnings "-register-all".

(** The values the exporters handle: what a record holds, and what
    [json.loads] can return.  A float is kept as the literal it was read
    from; its arithmetic is not modelled.  [PLone s] is a [str] that holds
    a lone surrogate, which [json.loads] makes of an escape such as
    [\ud83d]: it has no UTF-8 encoding, and [s] holds its characters by the
    general scheme of UTF-8.  The keys of a dict are compared and never
    written, and are kept as their characters in both cases. *)
Inductive pyval : Type :=
| PNone
| PBool (b : bool)
| PInt (z : Z)
| PFloat (lit : string)
| PStr (s : string)
| PLone (s : string)
| PList (l : list pyval)
| PDict (d : list (string * pyval)).

(** Induction over values, with the hypotheses for the elements of a list
    and the values of a dict. *)
Definition pyval_nested_ind (P : pyval -> Prop)
  (HNone : P PNone)
  (HBool : forall b, P (PBool b))
  (HInt : forall z, P (PInt z))
  (HFloat : forall lit, P (PFloat lit))
  (HStr : forall s, P (PStr s))
  (HLone : forall s, P (PLone s))
  (HList : forall l, Forall P l -> P (PList l))
  (HDict : forall d, Forall (fun kv => P (snd kv)) d -> P (PDict d)) :
  forall v, P v :=
  fix go (v : pyval) : P v :=
    match v with
    | PNone => HNone
    | PBool b => HBool b
    | PInt z => HInt z
    | PFloat lit => HFloat lit
    | PStr s => HStr s
    | PLone s => HLone s
    | PList l =>
        HList l ((fix gol (l : list pyval) : Forall P l :=
                    match l with
                    | [] => List.Forall_nil P
                    | x :: r => @List.Forall_cons _ P x r (go x) (gol r)
                    end) l)
    | PDict d =>
        HDict d ((fix god (d : list (string * pyval)) : Forall (fun kv => P (snd kv)) d :=
                    match d with
                    | [] => List.Forall_nil (fun kv => P (snd kv))
                    | kv :: r =>
                        @List.Forall_cons _ (fun kv => P (snd kv)) kv r
                          (go (snd kv)) (god r)
                    end) d)
    end.

(** Exceptions the modelled code can raise. *)
Inductive exn : Type :=
| JSONDecodeError     (* json.loads on text that is not a JSON document *)
| AttributeError      (* .get on a value that is not a dict *)
| ValueError          (* an integer literal of too many digits; DictWriter
                         given a key outside its fieldnames *)
| RecursionError      (* json.loads on text nested too deep *)
| UnicodeEncodeError  (* a lone surrogate on its way to a UTF-8 file *)
| OtherError (name : string).  (* any other exception, by its class name *)

Inductive outcome (A : Type) : Type :=
| Return (a : A)
| Raise (e : exn).
Arguments Return {A} a.
Arguments Raise {A} e.

(** ** The record model *)

(** One entry of [board_of_parole_hearings]: a dict with optional keys whose
    values are strings or [None] (the shape the extraction schema in
    [search_cdcr_number] describes), or a string holding JSON text (the
    [isinstance(hearing, str)] branch of [export_parole_hearings_to_csv]).
    A dict is its items in insertion order. *)
Inductive hearing : Type :=
| HearingDict (d : list (string * option string))
| HearingStr (s : string).

(** The dict built by [search_cdcr_number], by key. *)
Record inmate : Type := mk_inmate {
  cdcr_number : string;
  name : option string;
  age : option string;
  admission_date : option string;
  current_location : option string;
  commitment_county : option string;
  parole_eligible_date : option string;
  board_of_parole_hearings : list hearing
}.

(** A record or a hearing as the Python object it is. *)
Definition py_of_opt (o : option string) : pyval :=
  match o with
  | Some s => PStr s
  | None => PNone
  end.

Definition py_of_hearing (h : hearing) : pyval :=
  match h with
  | HearingDict d => PDict (map (fun kv => (fst kv, py_of_opt (snd kv))) d)
  | HearingStr s => PStr s
  end.

Definition py_of_inmate (r : inmate) : pyval :=
  PDict [ ("cdcr_number", PStr (cdcr_number r));
          ("name", py_of_opt (name r));
          ("age", py_of_opt (age r));
          ("admission_date", py_of_opt (admission_date r));
          ("current_location", py_of_opt (current_location r));
          ("commitment_county", py_of_opt (commitment_county r));
          ("parole_eligible_date", py_of_opt (parole_eligible_date r));
          ("board_of_parole_hearings",
            PList (map py_of_hearing (board_of_parole_hearings r))) ].

Definition py_of_results (results : list inmate) : pyval :=
  PList (map py_of_inmate results).

(** ** The object and its environment *)

(** [self]: the two attributes set by [__init__]. *)
Record CDCRInmateScraper : Type := mk_scraper {
  results : list inmate;
  timestamp : string
}.

(** What the methods reach outside the object: the files by name, the lines
    printed, the seconds slept, and the clock read by [__init__] (the time
    already formatted by [strftime]). *)
Record world : Type := mk_world {
  files : gmap string string;
  stdout : list string;
  slept : nat;
  clock : string
}.

Record state : Type := mk_state {
  self : CDCRInmateScraper;
  os : world
}.

(** Computations that read and change the state and may raise.  The state
    reached when an exception is raised is kept: what was written stays
    written. *)
Definition M (A : Type) : Type := state -> outcome A * state.

Definition ret {A} (a : A) : M A := fun st => (Return a, st).

Definition bind {A B} (c : M A) (k : A -> M B) : M B :=
  fun st =>
    match c st with
    | (Return a, st') => k a st'
    | (Raise e, st') => (Raise e, st')
    end.

Notation "'do' x <- c ; k" := (bind c (fun x => k))
  (at level 10, x name, c at level 100, k at level 200).
Notation "c ;; k" := (bind c (fun _ => k))
  (at level 100, k at level 200, right associativity).

(** A pure computation that may raise, run inside [M]. *)
Definition lift {A} (o : outcome A) : M A := fun st => (o, st).

Definition print (line : string) : M unit :=
  fun st =>
    let w := os st in
    (Return tt,
     mk_state (self st)
       (mk_world (files w) (stdout w ++ [line]) (slept w) (clock w))).

Definition sleep (seconds : nat) : M unit :=
  fun st =>
    let w := os st in
    (Return tt,
     mk_state (self st)
       (mk_world (files w) (stdout w) (slept w + seconds) (clock w))).

Definition get_results : M (list inmate) :=
  fun st => (Return (results (self st)), st).

Definition get_timestamp : M string :=
  fun st => (Return (timestamp (self st)), st).

Definition set_results (rs : list inmate) : M unit :=
  fun st =>
    (Return tt, mk_state (mk_scraper rs (timestamp (self st))) (os st)).

(** [open(filename, 'w')]: the file is created or emptied. *)
Definition open_w (filename : string) : M unit :=
  fun st =>
    let w := os st in
    (Return tt,
     mk_state (self st)
       (mk_world (<[filename := EmptyString]> (files w))
          (stdout w) (slept w) (clock w))).

(** [f.write(text)] on the file opened under [filename]: the text is
    appended.  The [with] block closes the file on the way out, also when
    its body raises, so every write made is in the file afterwards. *)
Definition fwrite (filename text : string) : M unit :=
  fun st =>
    let w := os st in
    (Return tt,
     mk_state (self st)
       (mk_world
          (<[filename := default EmptyString (files w !! filename) +:+ text]>
             (files w))
          (stdout w) (slept w) (clock w))).

(** ** Text helpers *)

Definition LF : string := String "010" EmptyString.
Definition CRLF : string := String "013" (String "010" EmptyString).
Definition quote_char : ascii := "034".
Definition backslash_char : ascii := "092".

(** [str(n)] for an integer. *)
Definition str_int (z : Z) : string := NilZero.string_of_int (Z.to_int z).

(** ** The collector *)

(** [__init__]: no results yet, and the time of construction. *)
Definition init (w : world) : CDCRInmateScraper :=
  mk_scraper [] (clock w).

(** [search_cdcr_number]: the dict literal is all the method computes; the
    browser steps below it in the source are comments.  The method reads
    and changes nothing, so it is a function of its argument. *)
Definition search_cdcr_number (cdcr_number : string) : inmate :=
  let inmate_data :=
    {| cdcr_number := cdcr_number;
       name := None;
       age := None;
       admission_date := None;
       current_location := None;
       commitment_county := None;
       parole_eligible_date := None;
       board_of_parole_hearings := [] |} in
  inmate_data.

(** The body of the [for] loop of [search_multiple_cdcr_numbers], over the
    identifiers still to visit; [i] is the counter of [enumerate(.., 1)],
    [total] is [len(cdcr_numbers)] and [acc] the local list [results]. *)
Fixpoint search_loop (total i : nat) (cdcr_numbers : list string)
    (acc : list inmate) : M (list inmate) :=
  match cdcr_numbers with
  | [] => ret acc
  | cdcr_number :: rest =>
      print (LF +:+ "[" +:+ str_int (Z.of_nat i) +:+ "/"
             +:+ str_int (Z.of_nat total)
             +:+ "] Searching for CDCR number: " +:+ cdcr_number) ;;
      let inmate_data := search_cdcr_number cdcr_number in
      let acc := acc ++ [inmate_data] in
      print ("✓ Successfully retrieved data for " +:+ cdcr_number) ;;
      (if i <? total then sleep 1 else ret tt) ;;
      search_loop total (S i) rest acc
  end.

Definition search_multiple_cdcr_numbers (cdcr_numbers : list string)
    : M (list inmate) :=
  do results <- search_loop (length cdcr_numbers) 1 cdcr_numbers [] ;
  set_results results ;;
  ret results.

(** The same loop with the call [self.search_cdcr_number(cdcr_number)] left
    open: [search] stands for the method, which may change the state and may
    raise.  The loop has no [try]: what the call raises leaves the loop and
    the method, before [results.append] and before [self.results] is set. *)
Fixpoint search_loop_calling (search : string -> M inmate) (total i : nat)
    (cdcr_numbers : list string) (acc : list inmate) : M (list inmate) :=
  match cdcr_numbers with
  | [] => ret acc
  | cdcr_number :: rest =>
      print (LF +:+ "[" +:+ str_int (Z.of_nat i) +:+ "/"
             +:+ str_int (Z.of_nat total)
             +:+ "] Searching for CDCR number: " +:+ cdcr_number) ;;
      do inmate_data <- search cdcr_number ;
      let acc := acc ++ [inmate_data] in
      print ("✓ Successfully retrieved data for " +:+ cdcr_number) ;;
      (if i <? total then sleep 1 else ret tt) ;;
      search_loop_calling search total (S i) rest acc
  end.

Definition search_multiple_calling (search : string -> M inmate)
    (cdcr_numbers : list string) : M (list inmate) :=
  do results <-
    search_loop_calling search (length cdcr_numbers) 1 cdcr_numbers [] ;
  set_results results ;;
  ret results.

(** ** The json module: decoding *)

Definition is_ws (c : ascii) : bool :=
  (c =? " ")%char || (c =? "009")%char || (c =? "010")%char
  || (c =? "013")%char.

(** [WHITESPACE.match(s, end).end()]: past the blanks. *)
Fixpoint skip_ws (s : string) : string :=
  match s with
  | String c r => if is_ws c then skip_ws r else s
  | EmptyString => s
  end.

(** [s[idx:idx + len(p)] == p], with what follows the match. *)
Fixpoint strip_prefix (p s : string) : option string :=
  match p, s with
  | EmptyString, _ => Some s
  | String a p', String b s' =>
      if (a =? b)%char then strip_prefix p' s' else None
  | String _ _, EmptyString => None
  end.

Definition hex_digit (c : ascii) : option N :=
  let n := N_of_ascii c in
  if (48 <=? n)%N && (n <=? 57)%N then Some (n - 48)%N
  else if (97 <=? n)%N && (n <=? 102)%N then Some (n - 97 + 10)%N
  else if (65 <=? n)%N && (n <=? 70)%N then Some (n - 65 + 10)%N
  else None.

(** The four hex digits of a [\uXXXX] escape, most significant first. *)
Definition hex4 (a b c d : ascii) : option N :=
  match hex_digit a, hex_digit b, hex_digit c, hex_digit d with
  | Some x, Some y, Some z, Some w =>
      Some (N.lor (N.shiftl (N.lor (N.shiftl
              (N.lor (N.shiftl x 4) y) 4) z) 4) w)
  | _, _, _, _ => None
  end.

Definition is_high_surrogate (u : N) : bool :=
  (55296 <=? u)%N && (u <=? 56319)%N.

Definition is_low_surrogate (u : N) : bool :=
  (56320 <=? u)%N && (u <=? 57343)%N.

Definition join_surrogates (hi lo : N) : N :=
  (65536 + N.lor (N.shiftl (N.land hi 1023) 10) (N.land lo 1023))%N.

(** The bytes of a code point in UTF-8.  A surrogate that stays unpaired
    gets the three bytes the general scheme gives it: Python keeps such a
    character in the [str] and refuses it only when the text is encoded,
    so [scanstring] marks the string that holds one. *)
Definition utf8 (u : N) : string :=
  let byte (n : N) := ascii_of_N n in
  let cont (n : N) := byte (N.lor 128 (N.land n 63)) in
  if (u <? 128)%N then String (byte u) EmptyString
  else if (u <? 2048)%N then
    String (byte (N.lor 192 (N.shiftr u 6))) (String (cont u) EmptyString)
  else if (u <? 65536)%N then
    String (byte (N.lor 224 (N.shiftr u 12)))
      (String (cont (N.shiftr u 6)) (String (cont u) EmptyString))
  else
    String (byte (N.lor 240 (N.shiftr u 18)))
      (String (cont (N.shiftr u 12))
         (String (cont (N.shiftr u 6)) (String (cont u) EmptyString))).

(** [BACKSLASH]: the one-letter escapes. *)
Definition BACKSLASH (c : ascii) : option ascii :=
  if (c =? quote_char)%char then Some quote_char
  else if (c =? backslash_char)%char then Some backslash_char
  else if (c =? "/")%char then Some "/"%char
  else if (c =? "b")%char then Some "008"%char
  else if (c =? "f")%char then Some "012"%char
  else if (c =? "n")%char then Some "010"%char
  else if (c =? "r")%char then Some "013"%char
  else if (c =? "t")%char then Some "009"%char
  else None.

(** The chunk just decoded, put before what the rest of the string gives;
    [lone] tells that the chunk is a lone surrogate. *)
Definition chunk (prefix : string) (lone : bool)
    (o : outcome (string * bool * string))
    : outcome (string * bool * string) :=
  match o with
  | Return (str, l, rest) => Return (prefix +:+ str, lone || l, rest)
  | Raise e => Raise e
  end.

(** [scanstring(s, end, strict=True)], from just after the opening quote:
    the decoded string, whether it holds a lone surrogate, and the text
    after the closing quote.  A [\uXXXX] escape of a high surrogate is
    joined with the escape of a low surrogate that follows it; a surrogate
    that stays unpaired is kept in the string. *)
Fixpoint scanstring (s : string) : outcome (string * bool * string) :=
  match s with
  | EmptyString => Raise JSONDecodeError
  | String c r =>
      if (c =? quote_char)%char then Return (EmptyString, false, r)
      else if (c =? backslash_char)%char then
        match r with
        | EmptyString => Raise JSONDecodeError
        | String esc r1 =>
            if (esc =? "u")%char then
              match r1 with
              | String h1 (String h2 (String h3 (String h4 r2))) =>
                  match r2 with
                  | EmptyString => Raise JSONDecodeError
                  | String _ _ =>
                      match hex4 h1 h2 h3 h4 with
                      | None => Raise JSONDecodeError
                      | Some u =>
                          if is_high_surrogate u then
                            match r2 with
                            | String b (String u' (String l1 (String l2
                                (String l3 (String l4 ((String _ _) as r3)))))) =>
                                if (b =? backslash_char)%char
                                   && (u' =? "u")%char then
                                  match hex4 l1 l2 l3 l4 with
                                  | None => Raise JSONDecodeError
                                  | Some u2 =>
                                      if is_low_surrogate u2 then
                                        chunk (utf8 (join_surrogates u u2))
                                          false (scanstring r3)
                                      else
                                        chunk (utf8 u) true (scanstring r2)
                                  end
                                else chunk (utf8 u) true (scanstring r2)
                            | _ => chunk (utf8 u) true (scanstring r2)
                            end
                          else
                            chunk (utf8 u) (is_low_surrogate u)
                              (scanstring r2)
                      end
                  end
              | _ => Raise JSONDecodeError
              end
            else
              match BACKSLASH esc with
              | Some ch => chunk (String ch EmptyString) false (scanstring r1)
              | None => Raise JSONDecodeError
              end
        end
      else if (N_of_ascii c <=? 31)%N then Raise JSONDecodeError
      else chunk (String c EmptyString) false (scanstring r)
  end.

Definition is_digit (c : ascii) : bool :=
  (48 <=? N_of_ascii c)%N && (N_of_ascii c <=? 57)%N.

(** The longest run of digits at the head of [s], and what follows it. *)
Fixpoint span_digits (s : string) : string * string :=
  match s with
  | String c r =>
      if is_digit c then
        let '(ds, rest) := span_digits r in (String c ds, rest)
      else (EmptyString, s)
  | EmptyString => (EmptyString, s)
  end.

(** [int(digits)] for a run of digits, from the value read so far. *)
Fixpoint int_of_digits (ds : string) (acc : Z) : Z :=
  match ds with
  | String c r => int_of_digits r (10 * acc + Z.of_N (N_of_ascii c - 48))
  | EmptyString => acc
  end.

(** The first group of [NUMBER_RE]: [0] or a run of digits that does not
    begin with [0].  The digits matched and the text after them. *)
Definition match_digits (s : string) : option (string * string) :=
  match s with
  | String c r =>
      if (c =? "0")%char then Some (String c EmptyString, r)
      else if is_digit c then
        let '(ds, rest) := span_digits r in Some (String c ds, rest)
      else None
  | EmptyString => None
  end.

(** The second group: a dot and at least one digit, or nothing. *)
Definition match_frac (s : string) : string * string :=
  match s with
  | String c r =>
      if (c =? ".")%char then
        match span_digits r with
        | (EmptyString, _) => (EmptyString, s)
        | (ds, rest) => (String c ds, rest)
        end
      else (EmptyString, s)
  | EmptyString => (EmptyString, s)
  end.

(** The third group: [e] or [E], an optional sign and at least one digit,
    or nothing. *)
Definition match_exp (s : string) : string * string :=
  match s with
  | String c r =>
      if (c =? "e")%char || (c =? "E")%char then
        let '(sign, r') :=
          match r with
          | String sg r' =>
              if (sg =? "-")%char || (sg =? "+")%char
              then (String sg EmptyString, r')
              else (EmptyString, r)
          | EmptyString => (EmptyString, r)
          end in
        match span_digits r' with
        | (EmptyString, _) => (EmptyString, s)
        | (ds, rest) => (String c (sign +:+ ds), rest)
        end
      else (EmptyString, s)
  | EmptyString => (EmptyString, s)
  end.

(** [sys.get_int_max_str_digits()] as the interpreter starts. *)
Definition int_max_str_digits : nat := 4300.

(** [match_number]: the value of the number at the head of [s], if there is
    one.  With a fraction or an exponent it is a float, else an int, which
    [int] refuses when it has more digits than the interpreter allows. *)
Definition match_number (s : string) : option (outcome (pyval * string)) :=
  let '(sign, s1) :=
    match s with
    | String c r =>
        if (c =? "-")%char then (String c EmptyString, r)
        else (EmptyString, s)
    | EmptyString => (EmptyString, s)
    end in
  match match_digits s1 with
  | None => None
  | Some (ds, s2) =>
      let '(frac, s3) := match_frac s2 in
      let '(exp, s4) := match_exp s3 in
      match frac, exp with
      | EmptyString, EmptyString =>
          if int_max_str_digits <? String.length ds
          then Some (Raise ValueError)
          else
            let n := int_of_digits ds 0 in
            Some (Return (PInt (match sign with
                                | EmptyString => n
                                | _ => (- n)%Z
                                end), s4))
      | _, _ => Some (Return (PFloat (sign +:+ ds +:+ frac +:+ exp), s4))
      end
  end.

(** [dict(pairs)]: a key met again keeps its place and takes the new value. *)
Fixpoint dict_set (d : list (string * pyval)) (k : string) (v : pyval)
    : list (string * pyval) :=
  match d with
  | [] => [(k, v)]
  | (k', v') :: r =>
      if (k' =? k)%string then (k', v) :: r else (k', v') :: dict_set r k v
  end.

Definition dict (pairs : list (string * pyval)) : list (string * pyval) :=
  fold_left (fun d kv => dict_set d (fst kv) (snd kv)) pairs [].

Definition scanner : Type := string -> outcome (pyval * string).

(** The loop of [JSONArray], at the start of a value.  [n] bounds the
    number of turns; the decoder gives every loop more turns than the text
    has characters, so the first case is never met
    ([json_loads_turns]). *)
Fixpoint JSONArray_loop (n : nat) (scan_once : scanner) (s : string)
    (values : list pyval) : outcome (pyval * string) :=
  match n with
  | 0 => Raise RecursionError
  | S n' =>
      match scan_once s with
      | Raise e => Raise e
      | Return (value, s1) =>
          let values := values ++ [value] in
          match skip_ws s1 with
          | String nextchar s2 =>
              if (nextchar =? "]")%char then Return (PList values, s2)
              else if (nextchar =? ",")%char then
                JSONArray_loop n' scan_once (skip_ws s2) values
              else Raise JSONDecodeError
          | EmptyString => Raise JSONDecodeError
          end
      end
  end.

(** [JSONArray], from just after the opening bracket. *)
Definition JSONArray (n : nat) (scan_once : scanner) (s : string)
    : outcome (pyval * string) :=
  match skip_ws s with
  | String nextchar s1 =>
      if (nextchar =? "]")%char then Return (PList [], s1)
      else JSONArray_loop n scan_once (skip_ws s) []
  | EmptyString => JSONArray_loop n scan_once (skip_ws s) []
  end.

(** The loop of [JSONObject], from just after the opening quote of a key. *)
Fixpoint JSONObject_loop (n : nat) (scan_once : scanner) (s : string)
    (pairs : list (string * pyval)) : outcome (pyval * string) :=
  match n with
  | 0 => Raise RecursionError
  | S n' =>
      match scanstring s with
      | Raise e => Raise e
      | Return (key, _, s1) =>
          match skip_ws s1 with
          | String colon s2 =>
              if (colon =? ":")%char then
                match scan_once (skip_ws s2) with
                | Raise e => Raise e
                | Return (value, s3) =>
                    let pairs := pairs ++ [(key, value)] in
                    match skip_ws s3 with
                    | String nextchar s4 =>
                        if (nextchar =? "}")%char
                        then Return (PDict (dict pairs), s4)
                        else if (nextchar =? ",")%char then
                          match skip_ws s4 with
                          | String q s5 =>
                              if (q =? quote_char)%char
                              then JSONObject_loop n' scan_once s5 pairs
                              else Raise JSONDecodeError
                          | EmptyString => Raise JSONDecodeError
                          end
                        else Raise JSONDecodeError
                    | EmptyString => Raise JSONDecodeError
                    end
                end
              else Raise JSONDecodeError
          | EmptyString => Raise JSONDecodeError
          end
      end
  end.

(** [JSONObject], from just after the opening brace. *)
Definition JSONObject (n : nat) (scan_once : scanner) (s : string)
    : outcome (pyval * string) :=
  match skip_ws s with
  | String nextchar s1 =>
      if (nextchar =? quote_char)%char
      then JSONObject_loop n scan_once s1 []
      else if (nextchar =? "}")%char then Return (PDict [], s1)
      else Raise JSONDecodeError
  | EmptyString => Raise JSONDecodeError
  end.

Definition literal (word : string) (v : pyval) (s : string)
    (otherwise : outcome (pyval * string)) : outcome (pyval * string) :=
  match strip_prefix word s with
  | Some rest => Return (v, rest)
  | None => otherwise
  end.

(** [_scan_once]: the value that starts at the head of [s].  [room] is the
    number of arrays and objects that may still be entered one inside the
    other: the scanner enters the interpreter's recursion count at each,
    and raises [RecursionError] when the count is at its limit.  [turns] is
    the bound given to the loops. *)
Fixpoint scan_once (turns room : nat) (s : string)
    : outcome (pyval * string) :=
  match s with
  | EmptyString => Raise JSONDecodeError
  | String nextchar r =>
      if (nextchar =? quote_char)%char then
        match scanstring r with
        | Return (str, lone, rest) =>
            Return ((if lone then PLone str else PStr str), rest)
        | Raise e => Raise e
        end
      else if (nextchar =? "{")%char then
        match room with
        | 0 => Raise RecursionError
        | S room' => JSONObject turns (scan_once turns room') r
        end
      else if (nextchar =? "[")%char then
        match room with
        | 0 => Raise RecursionError
        | S room' => JSONArray turns (scan_once turns room') r
        end
      else
        literal "null" PNone s
        (literal "true" (PBool true) s
        (literal "false" (PBool false) s
        (match match_number s with
         | Some res => res
         | None =>
             literal "NaN" (PFloat "NaN") s
             (literal "Infinity" (PFloat "Infinity") s
             (literal "-Infinity" (PFloat "-Infinity") s
             (Raise JSONDecodeError)))
         end)))
  end.

(** The byte order mark U+FEFF as UTF-8. *)
Definition BOM : string := String "239" (String "187" (String "191" EmptyString)).

(** The arrays and objects [json.loads] can enter one inside the other.
    The recursion limit is 1000 as the interpreter starts, and six entries
    of the count are taken when the scanner starts: the script, the method
    of the class that the script calls, [json.loads], [decode],
    [raw_decode] and the call of the scanner. *)
Definition nesting_room : nat := 994.

(** [JSONDecoder.decode]: the value of the document [s], which nothing but
    blanks may follow. *)
Definition decode (turns : nat) (s : string) : outcome pyval :=
  match scan_once turns nesting_room (skip_ws s) with
  | Raise e => Raise e
  | Return (obj, rest) =>
      match skip_ws rest with
      | EmptyString => Return obj
      | String _ _ => Raise JSONDecodeError
      end
  end.

(** [json.loads(s)] for a [str]. *)
Definition json_loads (s : string) : outcome pyval :=
  match strip_prefix BOM s with
  | Some _ => Raise JSONDecodeError
  | None => decode (S (String.length s)) s
  end.

Section Exporters.

(** [repr] is Python's [repr()] on the values whose text this development
    does not compute: floats (the shortest text that reads back as the same
    float) and lists and dicts (which quote the strings inside by rules that
    depend on the Unicode tables).  It is used on those values only. *)
Variable repr : pyval -> string.

(** [str(v)]. *)
Definition py_str (v : pyval) : string :=
  match v with
  | PNone => "None"
  | PBool true => "True"
  | PBool false => "False"
  | PInt z => str_int z
  | PStr s | PLone s => s
  | PFloat _ | PList _ | PDict _ => repr v
  end.

(** ** The json module: encoding *)

Definition hex_char (n : N) : ascii :=
  if (n <? 10)%N then ascii_of_N (48 + n) else ascii_of_N (97 + n - 10).

(** [ESCAPE_DCT]: the replacement of a character that [ESCAPE] matches,
    that is a quote, a backslash or a control below 0x20; other characters
    stand for themselves ([ensure_ascii=False]). *)
Definition escape_char (c : ascii) : string :=
  if (c =? backslash_char)%char
  then String backslash_char (String backslash_char EmptyString)
  else if (c =? quote_char)%char
  then String backslash_char (String quote_char EmptyString)
  else if (c =? "008")%char then String backslash_char "b"
  else if (c =? "012")%char then String backslash_char "f"
  else if (c =? "010")%char then String backslash_char "n"
  else if (c =? "013")%char then String backslash_char "r"
  else if (c =? "009")%char then String backslash_char "t"
  else if (N_of_ascii c <? 32)%N then
    String backslash_char
      ("u00" +:+ String (hex_char (N_of_ascii c / 16))
                   (String (hex_char (N_of_ascii c mod 16)) EmptyString))
  else String c EmptyString.

Fixpoint escape (s : string) : string :=
  match s with
  | String c r => escape_char c +:+ escape r
  | EmptyString => EmptyString
  end.

(** [py_encode_basestring]. *)
Definition py_encode_basestring (s : string) : string :=
  String quote_char (escape s +:+ String quote_char EmptyString).

(** [floatstr] of the encoder, with [allow_nan=True]. *)
Definition floatstr (lit : string) : string :=
  let text := repr (PFloat lit) in
  if (text =? "nan")%string then "NaN"
  else if (text =? "inf")%string then "Infinity"
  else if (text =? "-inf")%string then "-Infinity"
  else text.

Fixpoint spaces (n : nat) : string :=
  match n with
  | 0 => EmptyString
  | S n' => String " " (spaces n')
  end.

(** ['\n' + _indent * _current_indent_level] with [_indent = ' ' * 2]. *)
Definition newline_indent (_current_indent_level : nat) : string :=
  LF +:+ spaces (2 * _current_indent_level).

(** [_iterencode] with [indent=2], its chunks joined.  With an indent the
    item separator is a comma and the key separator a colon and a space. *)
Fixpoint _iterencode (o : pyval) (_current_indent_level : nat) : string :=
  match o with
  | PStr s | PLone s => py_encode_basestring s
  | PNone => "null"
  | PBool true => "true"
  | PBool false => "false"
  | PInt z => str_int z
  | PFloat lit => floatstr lit
  | PList lst =>
      match lst with
      | [] => "[]"
      | _ :: _ =>
          let level := S _current_indent_level in
          "[" +:+ newline_indent level
          +:+ String.concat ("," +:+ newline_indent level)
                (map (fun value => _iterencode value level) lst)
          +:+ newline_indent _current_indent_level +:+ "]"
      end
  | PDict dct =>
      match dct with
      | [] => "{}"
      | _ :: _ =>
          let level := S _current_indent_level in
          "{" +:+ newline_indent level
          +:+ String.concat ("," +:+ newline_indent level)
                (map (fun item =>
                        py_encode_basestring (fst item) +:+ ": "
                        +:+ _iterencode (snd item) level) dct)
          +:+ newline_indent _current_indent_level +:+ "}"
      end
  end.

(** [json.dump(obj, fp, indent=2, ensure_ascii=False)]: every chunk is
    written to the file. *)
Definition json_dump (obj : pyval) (fp : string) : M unit :=
  fwrite fp (_iterencode obj 0).

(** ** The csv module: writing *)

(** The excel dialect, which [csv.DictWriter] uses when given no other:
    minimal quoting, quotes doubled, no escape character. *)
Definition delimiter : ascii := ",".
Definition quotechar : ascii := quote_char.
Definition lineterminator : string := CRLF.

Fixpoint string_mem (c : ascii) (s : string) : bool :=
  match s with
  | String c' r => (c =? c')%char || string_mem c r
  | EmptyString => false
  end.

(** [join_append_data]: the characters of the field as they go into the
    record, and whether the field has to be quoted. *)
Fixpoint join_append_data (field : string) : bool * string :=
  match field with
  | EmptyString => (false, EmptyString)
  | String c r =>
      let '(quoted, data) := join_append_data r in
      if (c =? delimiter)%char || (c =? quotechar)%char
         || string_mem c lineterminator
      then (true,
            if (c =? quotechar)%char then String quotechar (String c data)
            else String c data)
      else (quoted, String c data)
  end.

(** [join_append]: one field of the record. *)
Definition join_append (field : string) : string :=
  let '(quoted, data) := join_append_data field in
  if quoted
  then String quotechar (data +:+ String quotechar EmptyString)
  else data.

(** The text of a field: a string as it is, [None] as nothing, any other
    value through [str]. *)
Definition field_text (field : pyval) : string :=
  match field with
  | PStr s | PLone s => s
  | PNone => EmptyString
  | _ => py_str field
  end.

(** [writer.writerow(row)]: the line handed to the file's [write].  A row
    of one empty field is written as a pair of quotes. *)
Definition csv_line (row : list pyval) : string :=
  let rec := String.concat (String delimiter EmptyString)
               (map (fun field => join_append (field_text field)) row) in
  let rec :=
    match row, rec with
    | _ :: _, EmptyString => String quotechar (String quotechar EmptyString)
    | _, _ => rec
    end in
  rec +:+ lineterminator.

(** A dict given as a literal or read by key: the first item under the key. *)
Fixpoint dict_get {V : Type} (d : list (string * V)) (key : string)
    : option V :=
  match d with
  | [] => None
  | (k, v) :: r => if (k =? key)%string then Some v else dict_get r key
  end.

Record DictWriter : Type := mk_DictWriter {
  csvfile : string;
  fieldnames : list string
}.

(** [DictWriter._dict_to_list] with [restval=''] and
    [extrasaction='raise']. *)
Definition _dict_to_list (writer : DictWriter)
    (rowdict : list (string * pyval)) : outcome (list pyval) :=
  if forallb (fun item =>
                existsb (fun key => (fst item =? key)%string)
                  (fieldnames writer)) rowdict
  then Return (map (fun key =>
                      default (PStr EmptyString) (dict_get rowdict key))
                 (fieldnames writer))
  else Raise ValueError.

(** Whether the text of a field can be encoded for the file.  A list or a
    dict is written as its [repr], which escapes a surrogate. *)
Definition encodable (field : pyval) : bool :=
  match field with
  | PLone _ => false
  | _ => true
  end.

(** [writer.writerow(rowdict)]: the line goes to the file's [write] in one
    piece, and [write] encodes it before anything of it reaches the file. *)
Definition writerow (writer : DictWriter) (rowdict : list (string * pyval))
    : M unit :=
  do row <- lift (_dict_to_list writer rowdict) ;
  if forallb encodable row
  then fwrite (csvfile writer) (csv_line row)
  else lift (Raise UnicodeEncodeError).

(** [writeheader]: the row [dict(zip(fieldnames, fieldnames))]. *)
Definition writeheader (writer : DictWriter) : M unit :=
  writerow writer (map (fun key => (key, PStr key)) (fieldnames writer)).

(** ** The exporters *)

(** A [for] loop whose body returns nothing. *)
Fixpoint for_each {A : Type} (l : list A) (body : A -> M unit) : M unit :=
  match l with
  | [] => ret tt
  | x :: r => body x ;; for_each r body
  end.

(** [results = self.results if results is None]. *)
Definition results_or_self (results : option (list inmate))
    : M (list inmate) :=
  match results with
  | None => get_results
  | Some rs => ret rs
  end.

(** The file name given, or the one made from [self.timestamp]. *)
Definition filename_or_stamped (filename : option string)
    (stem extension : string) : M string :=
  match filename with
  | None =>
      do stamp <- get_timestamp ;
      ret (stem +:+ stamp +:+ extension)
  | Some f => ret f
  end.

Definition export_to_csv (results : option (list inmate))
    (filename : option string) : M string :=
  do results <- results_or_self results ;
  do filename <- filename_or_stamped filename "cdcr_inmates_" ".csv" ;
  open_w filename ;;
  (let fieldnames :=
     [ "cdcr_number"; "name"; "age"; "admission_date";
       "current_location"; "commitment_county"; "parole_eligible_date";
       "num_parole_hearings" ] in
   let writer := mk_DictWriter filename fieldnames in
   writeheader writer ;;
   for_each results (fun inmate =>
     writerow writer
       [ ("cdcr_number", PStr (cdcr_number inmate));
         ("name", py_of_opt (name inmate));
         ("age", py_of_opt (age inmate));
         ("admission_date", py_of_opt (admission_date inmate));
         ("current_location", py_of_opt (current_location inmate));
         ("commitment_county", py_of_opt (commitment_county inmate));
         ("parole_eligible_date", py_of_opt (parole_eligible_date inmate));
         ("num_parole_hearings",
           PInt (Z.of_nat (length (board_of_parole_hearings inmate)))) ])) ;;
  print (LF +:+ "✓ CSV exported to: " +:+ filename) ;;
  ret filename.

Definition export_to_json (results : option (list inmate))
    (filename : option string) : M string :=
  do results <- results_or_self results ;
  do filename <- filename_or_stamped filename "cdcr_inmates_" ".json" ;
  open_w filename ;;
  json_dump (py_of_results results) filename ;;
  print ("✓ JSON exported to: " +:+ filename) ;;
  ret filename.

(** [hearing.get(key, default)]: only a dict has the method. *)
Definition py_get (hearing : pyval) (key : string) (default : pyval)
    : outcome pyval :=
  match hearing with
  | PDict d =>
      Return (match dict_get d key with
              | Some v => v
              | None => default
              end)
  | _ => Raise AttributeError
  end.

(** The hearing as the loop body uses it: a string is decoded first. *)
Definition decode_hearing (hearing : hearing) : outcome pyval :=
  match hearing with
  | HearingStr s => json_loads s
  | HearingDict _ => Return (py_of_hearing hearing)
  end.

Definition export_parole_hearings_to_csv (results : option (list inmate))
    (filename : option string) : M string :=
  do results <- results_or_self results ;
  do filename <-
    filename_or_stamped filename "cdcr_parole_hearings_" ".csv" ;
  open_w filename ;;
  (let fieldnames :=
     [ "cdcr_number"; "inmate_name"; "date"; "action"; "status";
       "outcome" ] in
   let writer := mk_DictWriter filename fieldnames in
   writeheader writer ;;
   for_each results (fun inmate =>
     for_each (board_of_parole_hearings inmate) (fun hearing =>
       do hearing <- lift (decode_hearing hearing) ;
       do date <- lift (py_get hearing "date" (PStr EmptyString)) ;
       do action <- lift (py_get hearing "action" (PStr EmptyString)) ;
       do status <- lift (py_get hearing "status" (PStr EmptyString)) ;
       do outcome <- lift (py_get hearing "outcome" (PStr EmptyString)) ;
       writerow writer
         [ ("cdcr_number", PStr (cdcr_number inmate));
           ("inmate_name", py_of_opt (name inmate));
           ("date", date);
           ("action", action);
           ("status", status);
           ("outcome", outcome) ]))) ;;
  print ("✓ Parole Hearings CSV exported to: " +:+ filename) ;;
  ret filename.

(** ** The summary *)

(** [s * n]. *)
Fixpoint str_mul (s : string) (n : nat) : string :=
  match n with
  | 0 => EmptyString
  | S n' => s +:+ str_mul s n'
  end.

(** The [for] loop of [print_summary]; [i] is the counter of
    [enumerate(results, 1)].  A replacement field of an f-string is the
    [str] of its value. *)
Fixpoint summary_loop (i : nat) (results : list inmate) : M unit :=
  match results with
  | [] => ret tt
  | inmate :: rest =>
      print (LF +:+ "[" +:+ str_int (Z.of_nat i) +:+ "] CDCR Number: "
             +:+ py_str (PStr (cdcr_number inmate))) ;;
      print ("    Name: " +:+ py_str (py_of_opt (name inmate))) ;;
      print ("    Age: " +:+ py_str (py_of_opt (age inmate))) ;;
      print ("    Admission Date: "
             +:+ py_str (py_of_opt (admission_date inmate))) ;;
      print ("    Current Location: "
             +:+ py_str (py_of_opt (current_location inmate))) ;;
      print ("    Commitment County: "
             +:+ py_str (py_of_opt (commitment_county inmate))) ;;
      print ("    Parole Eligible Date: "
             +:+ py_str (py_of_opt (parole_eligible_date inmate))) ;;
      print ("    Board of Parole Hearings: "
             +:+ py_str (PInt (Z.of_nat
                                 (length (board_of_parole_hearings inmate))))
             +:+ " records") ;;
      summary_loop (S i) rest
  end.

Definition print_summary (results : option (list inmate)) : M unit :=
  do results <- results_or_self results ;
  print (LF +:+ str_mul "=" 80) ;;
  print "CDCR INMATE SEARCH RESULTS SUMMARY" ;;
  print (str_mul "=" 80) ;;
  summary_loop 1 results ;;
  print (LF +:+ str_mul "=" 80).

(** ** The script *)

(** [scraper = CDCRInmateScraper()]: the object the script works with. *)
Definition construct : M unit :=
  fun st => (Return tt, mk_state (init (os st)) (os st)).

(** The body of [if __name__ == "__main__":]. *)
Definition main : M unit :=
  construct ;;
  (let cdcr_numbers := ["D54803"; "T97214"] in
   do results <- search_multiple_cdcr_numbers cdcr_numbers ;
   print_summary (Some results) ;;
   export_to_csv (Some results) None ;;
   export_to_json (Some results) None ;;
   export_parole_hearings_to_csv (Some results) None ;;
   ret tt).

End Exporters.

(** * Derived definitions

    Names for what the statements below speak about: the state a run
    leaves, the text a loop writes, the rows and the documents of the
    exporters, and the worked examples. *)

(** ** States and files *)

(** The state with the file [f] holding [c]. *)
Definition put_file (f c : string) (st : state) : state :=
  mk_state (self st)
    (mk_world (<[f := c]> (files (os st)))
       (stdout (os st)) (slept (os st)) (clock (os st))).

(** The state with one more line printed. *)
Definition printed (line : string) (st : state) : state :=
  mk_state (self st)
    (mk_world (files (os st)) (stdout (os st) ++ [line])
       (slept (os st)) (clock (os st))).

(** What the file [f] holds. *)
Definition file_content (st : state) (f : string) : option string :=
  files (os st) !! f.

(** The argument given, or the value used when it is [None]. *)
Definition or_else {A : Type} (given : option A) (otherwise : A) : A :=
  match given with
  | Some a => a
  | None => otherwise
  end.

(** How a run ends once the loops are over. *)
Definition finish {A : Type} (o : outcome unit) (a : A) : outcome A :=
  match o with
  | Return _ => Return a
  | Raise e => Raise e
  end.

(** ** Loops that write *)

(** The lines of a file, one after the other. *)
Definition cat (lines : list string) : string :=
  fold_right String.append EmptyString lines.

(** What a loop writes, and how it ends, when each turn [x] appends
    [fst (G x)] to the file and ends as [snd (G x)]: the loop stops at the
    first turn that raises. *)
Fixpoint written_by {A : Type} (G : A -> string * outcome unit)
    (l : list A) : string * outcome unit :=
  match l with
  | [] => (EmptyString, Return tt)
  | x :: r =>
      match snd (G x) with
      | Return _ =>
          (fst (G x) +:+ fst (written_by G r), snd (written_by G r))
      | Raise e => (fst (G x), Raise e)
      end
  end.

(** A turn that works out a line and writes it, or raises before it
    writes anything. *)
Definition turn {A : Type} (g : A -> outcome string) (x : A)
    : string * outcome unit :=
  match g x with
  | Return line => (line, Return tt)
  | Raise e => (EmptyString, Raise e)
  end.

(** ** Rows of the two tables *)

(** The columns of the two tables. *)
Definition flat_fieldnames : list string :=
  [ "cdcr_number"; "name"; "age"; "admission_date"; "current_location";
    "commitment_county"; "parole_eligible_date"; "num_parole_hearings" ].

Definition hearings_fieldnames : list string :=
  [ "cdcr_number"; "inmate_name"; "date"; "action"; "status"; "outcome" ].

(** The cells of a record's row in the flat table, in column order. *)
Definition flat_cells (inmate : inmate) : list pyval :=
  [ PStr (cdcr_number inmate);
    py_of_opt (name inmate);
    py_of_opt (age inmate);
    py_of_opt (admission_date inmate);
    py_of_opt (current_location inmate);
    py_of_opt (commitment_county inmate);
    py_of_opt (parole_eligible_date inmate);
    PInt (Z.of_nat (length (board_of_parole_hearings inmate))) ].

(** The cells of the row of one hearing of a record, or the exception the
    loop body raises before it writes. *)
Definition hearing_cells (p : inmate * hearing) : outcome (list pyval) :=
  match decode_hearing (snd p) with
  | Raise e => Raise e
  | Return (PDict d) =>
      let get key := default (PStr EmptyString) (dict_get d key) in
      Return [ PStr (cdcr_number (fst p)); py_of_opt (name (fst p));
               get "date"; get "action"; get "status"; get "outcome" ]
  | Return _ => Raise AttributeError
  end.

(** The line written for one hearing of a record, or the exception raised
    before anything of it is written: that of the loop body, or that of the
    file's [write] when a cell cannot be encoded. *)
Definition hearing_line (repr : pyval -> string) (p : inmate * hearing)
    : outcome string :=
  match hearing_cells p with
  | Return row =>
      if forallb encodable row then Return (csv_line repr row)
      else Raise UnicodeEncodeError
  | Raise e => Raise e
  end.

(** The four values that the row of a hearing takes from its dict. *)
Definition written_values (d : list (string * pyval)) : list pyval :=
  map (fun key => default (PStr EmptyString) (dict_get d key))
    [ "date"; "action"; "status"; "outcome" ].

(** The (record, hearing) pairs in the order the nested loops meet them. *)
Definition hearing_pairs (results : list inmate) : list (inmate * hearing) :=
  flat_map (fun inmate => map (pair inmate) (board_of_parole_hearings inmate))
    results.

(** The text of the flat table for a list of records. *)
Definition flat_text (repr : pyval -> string) (rs : list inmate) : string :=
  csv_line repr (map PStr flat_fieldnames)
  +:+ cat (map (fun r => csv_line repr (flat_cells r)) rs).

(** The text of the hearings table below its header, and how the loops
    end. *)
Definition hearings_run (repr : pyval -> string) (rs : list inmate)
    : string * outcome unit :=
  written_by (turn (hearing_line repr)) (hearing_pairs rs).

Definition hearings_text (repr : pyval -> string) (rs : list inmate)
    : string :=
  csv_line repr (map PStr hearings_fieldnames) +:+ fst (hearings_run repr rs).

(** The header rows as the spec words them. *)
Definition flat_header : string :=
  "cdcr_number,name,age,admission_date,current_location,commitment_county,parole_eligible_date,num_parole_hearings".

Definition hearings_header : string :=
  "cdcr_number,inmate_name,date,action,status,outcome".

(** A cell of a CSV row as it stands between the delimiters. *)
Definition csv_cell (repr : pyval -> string) (field : pyval) : string :=
  join_append (field_text repr field).

Definition comma : string := String delimiter EmptyString.

(** A row of two cells or more as it stands in the file: the cells with
    commas between them and a line end after them. *)
Definition row_text (repr : pyval -> string) (row : list pyval) : string :=
  String.concat comma (map (csv_cell repr) row) +:+ CRLF.

(** A cell of a CSV row for a field that is a string or absent: the string
    as the writer puts it, or nothing. *)
Definition opt_cell (o : option string) : string :=
  match o with
  | Some s => join_append s
  | None => EmptyString
  end.

Definition csv_row (cells : list (option string)) : string :=
  String.concat comma (map opt_cell cells) +:+ CRLF.

(** The field of a hearing dict under a key: absent when the key is missing
    and when its value is [None]. *)
Definition hearing_field (d : list (string * option string)) (key : string)
    : option string :=
  match dict_get d key with
  | Some (Some s) => Some s
  | Some None | None => None
  end.

(** The cell for a key of a decoded hearing: nothing when the key is missing
    and when its value is [None]. *)
Definition payload_cell (repr : pyval -> string)
    (d : list (string * pyval)) (key : string) : string :=
  match dict_get d key with
  | Some PNone | None => EmptyString
  | Some v => csv_cell repr v
  end.

(** ** JSON text *)

(** The JSON text of a field that is a string or absent. *)
Definition json_opt (o : option string) : string :=
  match o with
  | Some s => py_encode_basestring s
  | None => "null"
  end.

(** A JSON object and a JSON array laid out at an indent level, from the
    texts of the members and of the elements. *)
Definition json_object (level : nat) (members : list (string * string))
    : string :=
  match members with
  | [] => "{}"
  | _ :: _ =>
      "{" +:+ newline_indent (S level)
      +:+ String.concat ("," +:+ newline_indent (S level))
            (map (fun m => py_encode_basestring (fst m) +:+ ": " +:+ snd m)
               members)
      +:+ newline_indent level +:+ "}"
  end.

Definition json_array (level : nat) (elements : list string) : string :=
  match elements with
  | [] => "[]"
  | _ :: _ =>
      "[" +:+ newline_indent (S level)
      +:+ String.concat ("," +:+ newline_indent (S level)) elements
      +:+ newline_indent level +:+ "]"
  end.

(** The text of a member of an object. *)
Definition member (repr : pyval -> string) (level : nat)
    (item : string * pyval) : string :=
  py_encode_basestring (fst item) +:+ ": "
  +:+ _iterencode repr (snd item) level.

(** A field between quotes. *)
Definition quoted (s : string) : string :=
  String quote_char (s +:+ String quote_char EmptyString).

(** Whether [needle] stands somewhere in [hay]. *)
Fixpoint occurs_in (needle hay : string) : bool :=
  match strip_prefix needle hay with
  | Some _ => true
  | None =>
      match hay with
      | String _ r => occurs_in needle r
      | EmptyString => false
      end
  end.

(** ** Values that are read back *)

(** The text starts a value: its first character is no blank and does not
    close an array. *)
Definition starts_value (s : string) : Prop :=
  exists c r, s = String c r /\ is_ws c = false /\ (c =? "]")%char = false.

(** The values the round trip is proved for: no numbers, and dicts whose
    keys are distinct (as the keys of a Python dict are). *)
Inductive plain : pyval -> Prop :=
| plain_none : plain PNone
| plain_bool b : plain (PBool b)
| plain_str s : plain (PStr s)
| plain_list l : Forall plain l -> plain (PList l)
| plain_dict d :
    NoDup (map fst d) -> Forall (fun kv => plain (snd kv)) d ->
    plain (PDict d).

(** A bound on the turns that the loops need to decode the text of a
    value. *)
Fixpoint weight (v : pyval) : nat :=
  match v with
  | PList l => S (list_sum (map weight l))
  | PDict d => S (list_sum (map (fun kv => weight (snd kv)) d))
  | _ => 1
  end.

(** How deep the arrays and objects of a value are nested. *)
Fixpoint depth (v : pyval) : nat :=
  match v with
  | PList l => S (list_max (map depth l))
  | PDict d => S (list_max (map (fun kv => depth (snd kv)) d))
  | _ => 0
  end.

(** A scanner that reads back the text of [v] at [level]. *)
Definition reads (repr : pyval -> string) (scan : scanner) (level : nat)
    (v : pyval) : Prop :=
  plain v
  /\ forall rest, scan (_iterencode repr v level +:+ rest) = Return (v, rest).

(** The keys of every hearing dict are distinct, as the keys of a Python
    dict are. *)
Definition distinct_keys (results : list inmate) : Prop :=
  Forall (fun r =>
            Forall (fun h =>
                      match h with
                      | HearingDict d => NoDup (map fst d)
                      | HearingStr _ => True
                      end) (board_of_parole_hearings r)) results.

(** The exceptions of the decoder. *)
Definition decoder_error (e : exn) : Prop :=
  e = JSONDecodeError \/ e = ValueError \/ e = RecursionError.

(** A result of scanning [s]: what is left to read is shorter than [s], and
    an exception is one of the decoder's. *)
Definition consumes {A : Type} (o : outcome (A * string)) (s : string)
    : Prop :=
  match o with
  | Return (_, rest) => String.length rest < String.length s
  | Raise e => decoder_error e
  end.

(** A scanner whose results are such. *)
Definition scans (scan : scanner) : Prop :=
  forall s, consumes (scan s) s.

(** ** Records read back from Python values *)

(** An optional field: [None] or a [str]. *)
Definition opt_of_py (v : pyval) : option (option string) :=
  match v with
  | PNone => Some None
  | PStr s => Some (Some s)
  | _ => None
  end.

(** The record model of a hearing, of a record and of a record list from the
    Python value (a parsed JSON document, say), when the value has the shape
    of one. *)
Definition hearing_of_py (v : pyval) : option hearing :=
  match v with
  | PStr s => Some (HearingStr s)
  | PDict d =>
      HearingDict <$> mapM (fun kv => pair (fst kv) <$> opt_of_py (snd kv)) d
  | _ => None
  end.

Definition inmate_of_py (v : pyval) : option inmate :=
  match v with
  | PDict d =>
      number ← dict_get d "cdcr_number";
      name ← dict_get d "name" ≫= opt_of_py;
      age ← dict_get d "age" ≫= opt_of_py;
      admission_date ← dict_get d "admission_date" ≫= opt_of_py;
      current_location ← dict_get d "current_location" ≫= opt_of_py;
      commitment_county ← dict_get d "commitment_county" ≫= opt_of_py;
      parole_eligible_date ← dict_get d "parole_eligible_date" ≫= opt_of_py;
      hearings ← dict_get d "board_of_parole_hearings";
      match number, hearings with
      | PStr cdcr_number, PList hs =>
          mk_inmate cdcr_number name age admission_date current_location
            commitment_county parole_eligible_date
          <$> mapM hearing_of_py hs
      | _, _ => None
      end
  | _ => None
  end.

Definition results_of_py (v : pyval) : option (list inmate) :=
  match v with
  | PList l => mapM inmate_of_py l
  | _ => None
  end.

(** ** What the collector prints and how long it sleeps *)

(** The lines the loop of [search_multiple_cdcr_numbers] prints from the
    counter [i] on: an announcement and a confirmation per identifier. *)
Fixpoint progress (total i : nat) (cdcr_numbers : list string) : list string :=
  match cdcr_numbers with
  | [] => []
  | cdcr_number :: rest =>
      (LF +:+ "[" +:+ str_int (Z.of_nat i) +:+ "/"
       +:+ str_int (Z.of_nat total)
       +:+ "] Searching for CDCR number: " +:+ cdcr_number)
      :: ("✓ Successfully retrieved data for " +:+ cdcr_number)
      :: progress total (S i) rest
  end.

(** The announcement of the identifier numbered [i] of [total]. *)
Definition announcement (total i : nat) (cdcr_number : string) : string :=
  LF +:+ "[" +:+ str_int (Z.of_nat i) +:+ "/" +:+ str_int (Z.of_nat total)
  +:+ "] Searching for CDCR number: " +:+ cdcr_number.

(** The seconds the loop sleeps from the counter [i] on. *)
Fixpoint pauses (total i : nat) (cdcr_numbers : list string) : nat :=
  match cdcr_numbers with
  | [] => 0
  | _ :: rest => (if i <? total then 1 else 0) + pauses total (S i) rest
  end.

(** ** States that differ in one file or in the output *)

(** From [st] to [st'] the object, the time slept and the clock are the
    same, and so is every file but [f]. *)
Definition touches_only (f : string) (st st' : state) : Prop :=
  self st' = self st
  /\ slept (os st') = slept (os st)
  /\ clock (os st') = clock (os st)
  /\ forall g, g <> f -> file_content st' g = file_content st g.

(** The state with more lines printed, and nothing else changed. *)
Definition more_output (lines : list string) (st : state) : state :=
  mk_state (self st)
    (mk_world (files (os st)) (stdout (os st) ++ lines)
       (slept (os st)) (clock (os st))).

(** ** The lines of the summary *)

(** The eight lines [print_summary] prints for the record numbered [i]. *)
Definition summary_block (i : nat) (r : inmate) : list string :=
  [ LF +:+ "[" +:+ str_int (Z.of_nat i) +:+ "] CDCR Number: "
      +:+ cdcr_number r;
    "    Name: " +:+ or_else (name r) "None";
    "    Age: " +:+ or_else (age r) "None";
    "    Admission Date: " +:+ or_else (admission_date r) "None";
    "    Current Location: " +:+ or_else (current_location r) "None";
    "    Commitment County: " +:+ or_else (commitment_county r) "None";
    "    Parole Eligible Date: "
      +:+ or_else (parole_eligible_date r) "None";
    "    Board of Parole Hearings: "
      +:+ str_int (Z.of_nat (length (board_of_parole_hearings r)))
      +:+ " records" ].

Fixpoint summary_blocks (i : nat) (rs : list inmate) : list string :=
  match rs with
  | [] => []
  | r :: rest => summary_block i r ++ summary_blocks (S i) rest
  end.

(** The line feeds in a text. *)
Fixpoint line_feeds (s : string) : nat :=
  match s with
  | String c r => (if (c =? "010")%char then 1 else 0) + line_feeds r
  | EmptyString => 0
  end.

(** The lines of output made by calls of [print] with the texts [entries]:
    [print] ends each text with a line feed, and a text may hold line feeds
    of its own. *)
Definition output_lines (entries : list string) : nat :=
  list_sum (map (fun entry => S (line_feeds entry)) entries).

(** The line feeds in the fields of a record that [print_summary] shows. *)
Definition shown_line_feeds (r : inmate) : nat :=
  line_feeds (cdcr_number r)
  + line_feeds (or_else (name r) "None")
  + line_feeds (or_else (age r) "None")
  + line_feeds (or_else (admission_date r) "None")
  + line_feeds (or_else (current_location r) "None")
  + line_feeds (or_else (commitment_county r) "None")
  + line_feeds (or_else (parole_eligible_date r) "None").

(** ** Hearings as dicts and as text *)

(** The hearing is a dict: [isinstance(hearing, str)] is false. *)
Definition is_dict (h : hearing) : Prop :=
  match h with
  | HearingDict _ => True
  | HearingStr _ => False
  end.

(** The row of a (record, hearing) pair whose hearing is a dict. *)
Definition dict_row (p : inmate * hearing) : string :=
  match snd p with
  | HearingDict d =>
      csv_row [ Some (cdcr_number (fst p)); name (fst p);
                hearing_field d "date"; hearing_field d "action";
                hearing_field d "status"; hearing_field d "outcome" ]
  | HearingStr _ => EmptyString
  end.

(** A hearing dict replaced by the JSON text [export_to_json] writes for
    it; a hearing that is a string already is kept. *)
Definition as_json_text (repr : pyval -> string) (h : hearing) : hearing :=
  match h with
  | HearingDict _ => HearingStr (_iterencode repr (py_of_hearing h) 0)
  | HearingStr _ => h
  end.

(** The record with [f] done to each of its hearings. *)
Definition with_hearings (f : hearing -> hearing) (r : inmate) : inmate :=
  mk_inmate (cdcr_number r) (name r) (age r) (admission_date r)
    (current_location r) (commitment_county r) (parole_eligible_date r)
    (map f (board_of_parole_hearings r)).

(** ** Fields of a CSV row *)

(** A character that makes the csv writer quote the field it stands in. *)
Definition special (c : ascii) : bool :=
  (c =? ",")%char || (c =? quote_char)%char || (c =? "013")%char
  || (c =? "010")%char.

Fixpoint has_special (s : string) : bool :=
  match s with
  | String c r => special c || has_special r
  | EmptyString => false
  end.

(** The text with every quote written twice. *)
Fixpoint double_quotes (s : string) : string :=
  match s with
  | String c r =>
      if (c =? quote_char)%char then String c (String c (double_quotes r))
      else String c (double_quotes r)
  | EmptyString => EmptyString
  end.

(** Reading a field back from the head of a text: the field and what
    follows it.  [read_quoted] starts after the opening quote. *)
Fixpoint read_quoted (s : string) : string * string :=
  match s with
  | EmptyString => (EmptyString, EmptyString)
  | String c r =>
      if (c =? quote_char)%char then
        match r with
        | String c' r' =>
            if (c' =? quote_char)%char then
              let '(field, rest) := read_quoted r' in
              (String quote_char field, rest)
            else (EmptyString, r)
        | EmptyString => (EmptyString, EmptyString)
        end
      else
        let '(field, rest) := read_quoted r in (String c field, rest)
  end.

Fixpoint read_plain (s : string) : string * string :=
  match s with
  | EmptyString => (EmptyString, EmptyString)
  | String c r =>
      if special c then (EmptyString, s)
      else let '(field, rest) := read_plain r in (String c field, rest)
  end.

Definition read_field (s : string) : string * string :=
  match s with
  | String c r =>
      if (c =? quote_char)%char then read_quoted r else read_plain s
  | EmptyString => (EmptyString, EmptyString)
  end.

(** What may follow a field: nothing, a delimiter or a line end. *)
Definition field_end (t : string) : bool :=
  match t with
  | EmptyString => true
  | String c _ => special c && negb (c =? quote_char)%char
  end.

(** What the flat row shows of a record: the identifier and the six
    optional fields, an absent one as the empty string, and the number of
    hearings. *)
Definition flat_view (r : inmate) : list string * nat :=
  ([ cdcr_number r; or_else (name r) EmptyString;
     or_else (age r) EmptyString;
     or_else (admission_date r) EmptyString;
     or_else (current_location r) EmptyString;
     or_else (commitment_county r) EmptyString;
     or_else (parole_eligible_date r) EmptyString ],
   length (board_of_parole_hearings r)).

(** The strings of the eight cells of the flat row. *)
Definition flat_strings (r : inmate) : list string :=
  fst (flat_view r) ++ [str_int (Z.of_nat (snd (flat_view r)))].

(** ** Worked examples *)

(** A scraper just constructed, for the worked examples. *)
Definition boot : world :=
  mk_world ∅ [] 0 "20240115_093000".

Definition fresh : state := mk_state (init boot) boot.

(** A [repr] for the worked examples, none of which prints a float, a list
    or a dict. *)
Definition no_repr : pyval -> string := fun _ => EmptyString.

(** The record [search_cdcr_number] returns for an identifier. *)
Definition placeholder (cdcr_number : string) : inmate :=
  mk_inmate cdcr_number None None None None None None [].

(** The record of the spec's first example. *)
Definition doe : inmate :=
  mk_inmate "D54803" (Some "Doe, John") (Some "45") None None None None [].

(** Two records for the worked example of the round trip: one with a
    hearing dict and a hearing given as JSON text, one with nothing. *)
Definition sample_results : list inmate :=
  [ mk_inmate "D54803" (Some "Doe, John") (Some "45") None None None
      (Some "01/02/2030")
      [ HearingDict [ ("date", Some "03/04/2020"); ("action", None);
                      ("outcome", Some (String "009" "denied\3 years")) ];
        HearingStr ("{" +:+ quoted "date" +:+ ": null}") ];
    placeholder "T97214" ].

(** Two records whose hearings are dicts and whose fields hold no comma,
    quote or line end. *)
Definition dict_results : list inmate :=
  [ mk_inmate "D54803" (Some "John Doe") (Some "45") None None None
      (Some "01/02/2030")
      [ HearingDict [ ("date", Some "03/04/2020"); ("action", None);
                      ("outcome", Some "denied") ];
        HearingDict [ ("date", Some "05/06/2023") ] ];
    placeholder "T97214" ].

(** A hearing given as the JSON text of a dict that is no hearing: its date
    is a number, and it has a key no hearing has. *)
Definition unchecked_payload : string :=
  "{" +:+ quoted "date" +:+ ": 5, " +:+ quoted "zzz" +:+ ": true}".

Definition unchecked_results : list inmate :=
  [ mk_inmate "T1" (Some "Doe") None None None None None
      [ HearingStr unchecked_payload ] ].

(** A lookup that fails for B22222 and gives the record of
    [search_cdcr_number] for every other identifier. *)
Definition failing_lookup (cdcr_number : string) : outcome inmate :=
  if (cdcr_number =? "B22222")%string
  then Raise (OtherError "TimeoutException")
  else Return (search_cdcr_number cdcr_number).

(** * Properties *)

(** ** Text *)

Lemma append_assoc (a b c : string) : (a +:+ b) +:+ c = a +:+ b +:+ c.
Proof.
  induction a as [|x a IH]; [reflexivity |].
  change (String x ((a +:+ b) +:+ c) = String x (a +:+ b +:+ c)).
  now rewrite IH.
Qed.

Lemma append_nil_r (a : string) : a +:+ EmptyString = a.
Proof.
  induction a as [|x a IH]; [reflexivity |].
  change (String x (a +:+ EmptyString) = String x a).
  now rewrite IH.
Qed.

Lemma length_append (a b : string) :
  String.length (a +:+ b) = String.length a + String.length b.
Proof.
  induction a as [|x a IH]; [reflexivity |].
  change (S (String.length (a +:+ b)) = S (String.length a + String.length b)).
  now rewrite IH.
Qed.

Lemma append_cons (c : ascii) (a b : string) :
  String c a +:+ b = String c (a +:+ b).
Proof. reflexivity. Qed.

Lemma append_nil_l (a : string) : EmptyString +:+ a = a.
Proof. reflexivity. Qed.

Ltac norm_text :=
  repeat (rewrite append_assoc || rewrite append_cons || rewrite append_nil_l).

Lemma cat_app (l1 l2 : list string) : cat (l1 ++ l2) = cat l1 +:+ cat l2.
Proof.
  induction l1 as [|x l1 IH]; [reflexivity |].
  cbn [cat fold_right app]. fold (cat (l1 ++ l2)). fold (cat l1).
  now rewrite IH, append_assoc.
Qed.

Lemma strip_prefix_app (p s : string) : strip_prefix p (p +:+ s) = Some s.
Proof.
  induction p as [|c p IH]; [now destruct s |].
  change (strip_prefix (String c p) (String c (p +:+ s)) = Some s).
  cbn [strip_prefix]. now rewrite Ascii.eqb_refl.
Qed.

Lemma occurs_in_app (before needle after : string) :
  occurs_in needle (before +:+ needle +:+ after) = true.
Proof.
  induction before as [|c before IH].
  - change (occurs_in needle (needle +:+ after) = true).
    destruct (needle +:+ after) eqn:E;
      cbn [occurs_in]; rewrite <- E, strip_prefix_app; reflexivity.
  - change (occurs_in needle (String c (before +:+ needle +:+ after)) = true).
    cbn [occurs_in].
    destruct (strip_prefix needle _); [reflexivity | exact IH].
Qed.

Lemma concat_cons2 (sep a b : string) (l : list string) :
  String.concat sep (a :: b :: l) = a +:+ sep +:+ String.concat sep (b :: l).
Proof. reflexivity. Qed.

Lemma concat_head (sep a : string) (l : list string) (t : string) :
  exists t', String.concat sep (a :: l) +:+ t = a +:+ t'.
Proof.
  destruct l as [|b l].
  - exists t. reflexivity.
  - eexists. cbn [String.concat]. rewrite append_assoc. reflexivity.
Qed.

Lemma concat_as_tail (sep a : string) (l : list string) :
  String.concat sep (a :: l) = a +:+ cat (map (fun b => sep +:+ b) l).
Proof.
  revert a. induction l as [|b l IH]; intros a.
  - cbn [String.concat map cat fold_right]. now rewrite append_nil_r.
  - rewrite concat_cons2, IH. cbn [map cat fold_right].
    now rewrite append_assoc.
Qed.

Lemma length_concat (sep : string) (l : list string) :
  list_sum (map String.length l) <= String.length (String.concat sep l).
Proof.
  induction l as [|a l IH]; [reflexivity |].
  destruct l as [|b l].
  - cbn [map list_sum fold_right String.concat]. lia.
  - rewrite concat_cons2, !length_append.
    cbn [map list_sum fold_right] in *. lia.
Qed.

Lemma list_sum_le {A : Type} (f g : A -> nat) (l : list A) :
  Forall (fun x => f x <= g x) l ->
  list_sum (map f l) <= list_sum (map g l).
Proof.
  induction 1 as [|x l Hx _ IH]; [reflexivity |].
  cbn [map list_sum fold_right]. unfold list_sum in IH. lia.
Qed.

(** ** The state *)

Lemma open_w_put f st : open_w f st = (Return tt, put_file f EmptyString st).
Proof. reflexivity. Qed.

Lemma fwrite_put f c t st :
  fwrite f t (put_file f c st) = (Return tt, put_file f (c +:+ t) st).
Proof.
  unfold fwrite, put_file; simpl.
  rewrite lookup_insert_eq, insert_insert_eq. reflexivity.
Qed.

Lemma file_content_put f c st : file_content (put_file f c st) f = Some c.
Proof. unfold file_content, put_file; simpl. apply lookup_insert_eq. Qed.

Lemma file_content_printed line st f :
  file_content (printed line st) f = file_content st f.
Proof. reflexivity. Qed.

Lemma bind_print {A} line (k : unit -> M A) st :
  bind (print line) k st = k tt (printed line st).
Proof. reflexivity. Qed.

Lemma bind_sleep {A} n (k : unit -> M A) st :
  exists st', bind (sleep n) k st = k tt st'
    /\ self st' = self st /\ files (os st') = files (os st).
Proof. eexists; split; [reflexivity | split; reflexivity]. Qed.

Lemma bind_ret {A B} (a : A) (k : A -> M B) st : bind (ret a) k st = k a st.
Proof. reflexivity. Qed.

(** ** The collector *)

Lemma search_loop_spec (cdcr_numbers : list string) :
  forall total i acc st,
    fst (search_loop total i cdcr_numbers acc st)
      = Return (acc ++ map search_cdcr_number cdcr_numbers)
    /\ self (snd (search_loop total i cdcr_numbers acc st)) = self st
    /\ files (os (snd (search_loop total i cdcr_numbers acc st)))
       = files (os st).
Proof.
  induction cdcr_numbers as [|c rest IH]; intros total i acc st.
  - cbn [search_loop map]. unfold ret. cbn [fst snd].
    rewrite app_nil_r. auto.
  - cbn [search_loop map]. rewrite !bind_print.
    destruct (i <? total).
    + match goal with
      | |- context [bind (sleep ?n) ?k ?s] =>
          destruct (bind_sleep n k s) as (st' & -> & Hs & Hf)
      end.
      destruct (IH total (S i) (acc ++ [search_cdcr_number c]) st')
        as (H1 & H2 & H3).
      rewrite H1, H2, H3, Hs, Hf, <- List.app_assoc. auto.
    + rewrite bind_ret.
      match goal with
      | |- context [search_loop _ _ _ _ ?s] =>
          destruct (IH total (S i) (acc ++ [search_cdcr_number c]) s)
            as (H1 & H2 & H3)
      end.
      rewrite H1, H2, H3, <- List.app_assoc. auto.
Qed.

(** The collector returns one record per identifier, in order, stores the
    same list in [self.results], and never raises. *)
Lemma search_multiple_spec (cdcr_numbers : list string) (st : state) :
  fst (search_multiple_cdcr_numbers cdcr_numbers st)
    = Return (map search_cdcr_number cdcr_numbers)
  /\ results (self (snd (search_multiple_cdcr_numbers cdcr_numbers st)))
     = map search_cdcr_number cdcr_numbers.
Proof.
  unfold search_multiple_cdcr_numbers, bind.
  destruct (search_loop_spec cdcr_numbers (length cdcr_numbers) 1 [] st)
    as (H1 & _ & _).
  destruct (search_loop (length cdcr_numbers) 1 cdcr_numbers [] st)
    as [o st'].
  simpl in H1. subst o. simpl. auto.
Qed.

(** ** Loops that write *)

Lemma for_each_written {A : Type} (f : string) (body : A -> M unit)
    (G : A -> string * outcome unit) :
  (forall x c st,
     body x (put_file f c st) = (snd (G x), put_file f (c +:+ fst (G x)) st)) ->
  forall l c st,
    for_each l body (put_file f c st)
      = (snd (written_by G l), put_file f (c +:+ fst (written_by G l)) st).
Proof.
  intros Hbody l. induction l as [|x r IH]; intros c st.
  - cbn [for_each written_by fst snd]. unfold ret.
    now rewrite append_nil_r.
  - cbn [for_each written_by]. unfold bind. rewrite Hbody.
    destruct (snd (G x)) as [[]|e]; cbn [fst snd].
    + rewrite IH. now rewrite append_assoc.
    + reflexivity.
Qed.

(** A loop none of whose turns raises writes the turns' texts in order. *)
Lemma written_by_total {A : Type} (g : A -> string) (l : list A) :
  written_by (fun x => (g x, Return tt)) l = (cat (map g l), Return tt).
Proof.
  induction l as [|x r IH]; [reflexivity |].
  cbn [written_by fst snd map]. now rewrite IH.
Qed.

(** A loop over [l] with a loop over [inner x] in each turn does the turns
    of one loop over the pairs. *)
Lemma written_by_app {A : Type} (G : A -> string * outcome unit)
    (l1 l2 : list A) :
  written_by G (l1 ++ l2)
    = match snd (written_by G l1) with
      | Return _ =>
          (fst (written_by G l1) +:+ fst (written_by G l2),
           snd (written_by G l2))
      | Raise e => (fst (written_by G l1), Raise e)
      end.
Proof.
  induction l1 as [|x r IH].
  - cbn [app written_by fst snd]. now destruct (written_by G l2).
  - cbn [app written_by]. rewrite IH.
    destruct (snd (G x)) as [[]|e]; cbn [fst snd]; [| reflexivity].
    destruct (snd (written_by G r)) as [[]|e]; cbn [fst snd];
      [now rewrite append_assoc | reflexivity].
Qed.

Lemma written_by_map_pair {A B : Type} (G : A -> B -> string * outcome unit)
    (x : A) (ys : list B) :
  written_by (fun p => G (fst p) (snd p)) (map (pair x) ys)
    = written_by (G x) ys.
Proof.
  induction ys as [|y ys IH]; [reflexivity |].
  cbn [map written_by fst snd]. now rewrite IH.
Qed.

(** A loop over [l] with a loop over [inner x] in each turn does the turns
    of one loop over the pairs. *)
Lemma written_by_nested {A B : Type} (inner : A -> list B)
    (G : A -> B -> string * outcome unit) (l : list A) :
  written_by (fun x => written_by (G x) (inner x)) l
    = written_by (fun p => G (fst p) (snd p))
        (flat_map (fun x => map (pair x) (inner x)) l).
Proof.
  induction l as [|x r IH]; [reflexivity |].
  cbn [written_by flat_map].
  rewrite written_by_app, written_by_map_pair, IH. reflexivity.
Qed.

(** How a loop of such turns ends: after every turn, or at the first turn
    that raises, with the lines of the turns before it written. *)
Lemma written_by_cases {A : Type} (g : A -> outcome string) (l : list A) :
  (exists lines,
      Forall2 (fun x line => g x = Return line) l lines
      /\ written_by (turn g) l = (cat lines, Return tt))
  \/ (exists pre x post lines e,
        l = pre ++ x :: post
        /\ Forall2 (fun x line => g x = Return line) pre lines
        /\ g x = Raise e
        /\ written_by (turn g) l = (cat lines, Raise e)).
Proof.
  induction l as [|x r IH].
  - left. exists []. split; [constructor | reflexivity].
  - cbn [written_by].
    assert (Hturn : turn g x = match g x with
                               | Return line => (line, Return tt)
                               | Raise e => (EmptyString, Raise e)
                               end) by reflexivity.
    rewrite Hturn. clear Hturn.
    destruct (g x) as [line|e] eqn:Hx; cbn [fst snd].
    + destruct IH as [(lines & Hall & Hw) | IH].
      * left. exists (line :: lines). split.
        -- now constructor.
        -- now rewrite Hw.
      * right.
        destruct IH as (pre & y & post & lines & e & -> & Hall & Hy & Hw).
        exists (x :: pre), y, post, (line :: lines), e.
        repeat split; [now constructor | assumption |].
        now rewrite Hw.
    + right. exists [], x, r, [], e.
      repeat split; [constructor | assumption].
Qed.

(** ** The decoder's results *)

Lemma decoder_error_json : decoder_error JSONDecodeError.
Proof. now left. Qed.

Lemma decoder_error_value : decoder_error ValueError.
Proof. right. now left. Qed.

Lemma decoder_error_recursion : decoder_error RecursionError.
Proof. right. now right. Qed.

#[local] Hint Resolve decoder_error_json decoder_error_value
  decoder_error_recursion : core.

Lemma consumes_chunk (prefix : string) (lone : bool)
    (o : outcome (string * bool * string)) (s s' : string) :
  consumes o s' -> String.length s' <= String.length s ->
  consumes (chunk prefix lone o) s.
Proof.
  destruct o as [[[str l] rest]|e]; cbn [chunk consumes]; [lia | auto].
Qed.

Lemma scanstring_consumes (n : nat) :
  forall s, String.length s <= n -> consumes (scanstring s) s.
Proof.
  induction n as [|n IH]; intros s Hn.
  - destruct s; [cbn; auto | cbn [String.length] in Hn; lia].
  - destruct s as [|c r]; [cbn; auto |].
    cbn [String.length] in Hn.
    cbn [scanstring].
    repeat match goal with
           | |- consumes (if ?b then _ else _) _ => destruct b
           | |- consumes (match ?x with _ => _ end) _ =>
               destruct x eqn:?
           | |- consumes (Raise JSONDecodeError) _ => cbn; auto
           | |- consumes (Return _) _ => cbn [consumes String.length]; lia
           | |- consumes (chunk _ _ (scanstring ?t)) _ =>
               apply (consumes_chunk _ _ _ _ t);
               [apply IH |]; cbn [String.length] in *; lia
           end.
Qed.

(** [scanstring] raises nothing but [JSONDecodeError]. *)
Lemma scanstring_raises (n : nat) :
  forall s e, String.length s <= n -> scanstring s = Raise e ->
  e = JSONDecodeError.
Proof.
  induction n as [|n IH]; intros s e Hn.
  - destruct s; [cbn; congruence | cbn [String.length] in Hn; lia].
  - destruct s as [|c r]; [cbn; congruence |].
    cbn [String.length] in Hn.
    cbn [scanstring].
    repeat match goal with
           | |- (if ?b then _ else _) = _ -> _ => destruct b
           | |- match ?x with _ => _ end = _ -> _ => destruct x eqn:?
           | |- Raise _ = Raise _ -> _ => congruence
           | |- Return _ = Raise _ -> _ => discriminate
           | |- chunk _ _ (scanstring ?t) = Raise _ -> _ =>
               let H := fresh in
               pose proof (IH t e) as H;
               destruct (scanstring t) as [[[? ?] ?]|?];
               cbn [chunk]; [discriminate |];
               intros E; injection E as ->; apply H;
               [cbn [String.length] in *; lia | reflexivity]
           end.
Qed.

Lemma skip_ws_length (s : string) :
  String.length (skip_ws s) <= String.length s.
Proof.
  induction s as [|c r IH]; [reflexivity |].
  cbn [skip_ws]. destruct (is_ws c); cbn [String.length] in *; lia.
Qed.

Lemma strip_prefix_length (p s rest : string) :
  strip_prefix p s = Some rest ->
  String.length rest + String.length p = String.length s.
Proof.
  revert s. induction p as [|a p IH]; intros s H.
  - destruct s; injection H as <-; cbn [String.length]; lia.
  - destruct s as [|b s]; [discriminate |].
    cbn [strip_prefix] in H. destruct (a =? b)%char; [| discriminate].
    specialize (IH s H). cbn [String.length]. lia.
Qed.

Lemma literal_consumes (word : string) (v : pyval) (s : string)
    (otherwise : outcome (pyval * string)) :
  word <> EmptyString -> consumes otherwise s ->
  consumes (literal word v s otherwise) s.
Proof.
  intros Hw Ho. unfold literal.
  destruct (strip_prefix word s) as [rest|] eqn:E; [| exact Ho].
  apply strip_prefix_length in E. cbn [consumes].
  destruct word; [congruence | cbn [String.length] in E; lia].
Qed.

Lemma span_digits_length (s ds rest : string) :
  span_digits s = (ds, rest) -> String.length rest <= String.length s.
Proof.
  revert ds rest. induction s as [|c r IH]; intros ds rest H.
  - injection H as <- <-. reflexivity.
  - cbn [span_digits] in H. destruct (is_digit c).
    + destruct (span_digits r) as [ds' rest'] eqn:E.
      injection H as <- <-. specialize (IH _ _ eq_refl).
      cbn [String.length]. lia.
    + injection H as <- <-. reflexivity.
Qed.

Lemma match_digits_length (s ds rest : string) :
  match_digits s = Some (ds, rest) -> String.length rest < String.length s.
Proof.
  destruct s as [|c r]; [discriminate |]. cbn [match_digits].
  destruct (c =? "0")%char.
  - intros H. injection H as <- <-. cbn [String.length]. lia.
  - destruct (is_digit c); [| discriminate].
    destruct (span_digits r) as [ds' rest'] eqn:E.
    intros H. injection H as <- <-.
    apply span_digits_length in E. cbn [String.length]. lia.
Qed.

Lemma match_frac_length (s frac rest : string) :
  match_frac s = (frac, rest) -> String.length rest <= String.length s.
Proof.
  destruct s as [|c r]; cbn [match_frac].
  - intros H. injection H as <- <-. reflexivity.
  - destruct (c =? ".")%char.
    + destruct (span_digits r) as [ds rest'] eqn:E.
      apply span_digits_length in E.
      destruct ds; intros H; injection H as <- <-;
        cbn [String.length] in *; lia.
    + intros H. injection H as <- <-. reflexivity.
Qed.

Lemma match_exp_length (s exp rest : string) :
  match_exp s = (exp, rest) -> String.length rest <= String.length s.
Proof.
  destruct s as [|c r]; cbn [match_exp].
  - intros H. injection H as <- <-. reflexivity.
  - destruct ((c =? "e")%char || (c =? "E")%char).
    + destruct r as [|sg r'].
      * cbn [span_digits]. intros H. injection H as <- <-. reflexivity.
      * destruct ((sg =? "-")%char || (sg =? "+")%char).
        -- destruct (span_digits r') as [ds rest'] eqn:E.
           apply span_digits_length in E.
           destruct ds; intros H; injection H as <- <-;
             cbn [String.length] in *; lia.
        -- destruct (span_digits (String sg r')) as [ds rest'] eqn:E.
           apply span_digits_length in E.
           destruct ds; intros H; injection H as <- <-;
             cbn [String.length] in *; lia.
    + intros H. injection H as <- <-. reflexivity.
Qed.

Lemma match_number_consumes (s : string) (res : outcome (pyval * string)) :
  match_number s = Some res -> consumes res s.
Proof.
  unfold match_number.
  set (sign := match s with
               | String c r =>
                   if (c =? "-")%char then (String c EmptyString, r)
                   else (EmptyString, s)
               | EmptyString => (EmptyString, s)
               end).
  assert (Hs : String.length (snd sign) <= String.length s).
  { subst sign. destruct s as [|c r]; [reflexivity |].
    destruct (c =? "-")%char; cbn [snd String.length]; lia. }
  destruct sign as [sg s1]. cbn [snd] in Hs.
  destruct (match_digits s1) as [[ds s2]|] eqn:E1; [| discriminate].
  apply match_digits_length in E1.
  destruct (match_frac s2) as [frac s3] eqn:E2.
  apply match_frac_length in E2.
  destruct (match_exp s3) as [exp s4] eqn:E3.
  apply match_exp_length in E3.
  destruct frac, exp; try destruct (int_max_str_digits <? String.length ds);
    intros H; injection H as <-; cbn [consumes]; auto; lia.
Qed.

Lemma consumes_weaken {A : Type} (o : outcome (A * string)) (s s' : string) :
  consumes o s' -> String.length s' <= String.length s -> consumes o s.
Proof. destruct o as [[v rest]|e]; cbn [consumes]; [lia | auto]. Qed.

Lemma JSONArray_loop_consumes (scan : scanner) :
  scans scan ->
  forall n s values, consumes (JSONArray_loop n scan s values) s.
Proof.
  intros Hscan. induction n as [|n IH]; intros s values; [cbn; auto |].
  cbn [JSONArray_loop]. specialize (Hscan s).
  destruct (scan s) as [[value s1]|e]; cbn [consumes] in Hscan;
    [| exact Hscan].
  pose proof (skip_ws_length s1) as Hs1.
  destruct (skip_ws s1) as [|c s2]; [cbn; auto |].
  cbn [String.length] in Hs1.
  destruct (c =? "]")%char; [cbn [consumes]; lia |].
  destruct (c =? ",")%char; [| cbn; auto].
  pose proof (skip_ws_length s2).
  apply (consumes_weaken _ _ (skip_ws s2)); [apply IH | lia].
Qed.

Lemma JSONArray_consumes (scan : scanner) (n : nat) (s : string) :
  scans scan -> consumes (JSONArray n scan s) s.
Proof.
  intros Hscan. unfold JSONArray.
  pose proof (skip_ws_length s) as Hs.
  pose proof (JSONArray_loop_consumes scan Hscan n (skip_ws s) []) as Hl.
  destruct (skip_ws s) as [|c s1] eqn:E.
  - apply (consumes_weaken _ _ EmptyString); [exact Hl | cbn; lia].
  - destruct (c =? "]")%char.
    + cbn [consumes String.length] in *. lia.
    + apply (consumes_weaken _ _ (String c s1)); [exact Hl | exact Hs].
Qed.

Lemma JSONObject_loop_consumes (scan : scanner) :
  scans scan ->
  forall n s pairs, consumes (JSONObject_loop n scan s pairs) s.
Proof.
  intros Hscan. induction n as [|n IH]; intros s pairs; [cbn; auto |].
  cbn [JSONObject_loop].
  pose proof (scanstring_consumes (String.length s) s (le_n _)) as Hk.
  destruct (scanstring s) as [[[key lone] s1]|e]; cbn [consumes] in Hk;
    [| exact Hk].
  pose proof (skip_ws_length s1) as Hs1.
  destruct (skip_ws s1) as [|colon s2]; [cbn; auto |].
  cbn [String.length] in Hs1.
  destruct (colon =? ":")%char; [| cbn; auto].
  pose proof (skip_ws_length s2) as Hs2.
  pose proof (Hscan (skip_ws s2)) as Hv.
  destruct (scan (skip_ws s2)) as [[value s3]|e]; cbn [consumes] in Hv;
    [| exact Hv].
  pose proof (skip_ws_length s3) as Hs3.
  destruct (skip_ws s3) as [|c s4]; [cbn; auto |].
  cbn [String.length] in Hs3.
  destruct (c =? "}")%char; [cbn [consumes]; lia |].
  destruct (c =? ",")%char; [| cbn; auto].
  pose proof (skip_ws_length s4) as Hs4.
  destruct (skip_ws s4) as [|q s5]; [cbn; auto |].
  cbn [String.length] in Hs4.
  destruct (q =? quote_char)%char; [| cbn; auto].
  apply (consumes_weaken _ _ s5); [apply IH | lia].
Qed.

Lemma JSONObject_consumes (scan : scanner) (n : nat) (s : string) :
  scans scan -> consumes (JSONObject n scan s) s.
Proof.
  intros Hscan. unfold JSONObject.
  pose proof (skip_ws_length s) as Hs.
  destruct (skip_ws s) as [|c s1]; [cbn; auto |].
  cbn [String.length] in Hs.
  destruct (c =? quote_char)%char.
  - apply (consumes_weaken _ _ s1);
      [now apply JSONObject_loop_consumes | lia].
  - destruct (c =? "}")%char; [cbn [consumes]; lia | cbn; auto].
Qed.

(** [scan_once] leaves less than it was given, and raises nothing but the
    exceptions of the decoder. *)
Lemma scan_once_consumes (turns room : nat) : scans (scan_once turns room).
Proof.
  assert (Hscalar : forall s,
            consumes
              (literal "null" PNone s
              (literal "true" (PBool true) s
              (literal "false" (PBool false) s
              (match match_number s with
               | Some res => res
               | None =>
                   literal "NaN" (PFloat "NaN") s
                   (literal "Infinity" (PFloat "Infinity") s
                   (literal "-Infinity" (PFloat "-Infinity") s
                   (Raise JSONDecodeError)))
               end)))) s).
  { intros s. repeat (apply literal_consumes; [discriminate |]).
    destruct (match_number s) as [res|] eqn:E.
    - now apply match_number_consumes.
    - repeat (apply literal_consumes; [discriminate |]). cbn. auto. }
  assert (Hstr : forall r,
            consumes
              (match scanstring r with
               | Return (str, lone, rest) =>
                   Return ((if lone then PLone str else PStr str), rest)
               | Raise e => Raise e
               end) (String quote_char r)).
  { intros r.
    pose proof (scanstring_consumes (String.length r) r (le_n _)) as H.
    destruct (scanstring r) as [[[str lone] rest]|e];
      cbn [consumes String.length] in *; [lia | exact H]. }
  induction room as [|room IH]; intros s.
  - destruct s as [|c r]; [cbn; auto |]. cbn [scan_once].
    destruct (c =? quote_char)%char eqn:Eq.
    { apply Ascii.eqb_eq in Eq. subst c. apply Hstr. }
    destruct (c =? "{")%char; [cbn; auto |].
    destruct (c =? "[")%char; [cbn; auto |].
    apply Hscalar.
  - destruct s as [|c r]; [cbn; auto |]. cbn [scan_once].
    destruct (c =? quote_char)%char eqn:Eq.
    { apply Ascii.eqb_eq in Eq. subst c. apply Hstr. }
    destruct (c =? "{")%char.
    { apply (consumes_weaken _ _ r); [| cbn [String.length]; lia].
      now apply JSONObject_consumes. }
    destruct (c =? "[")%char.
    { apply (consumes_weaken _ _ r); [| cbn [String.length]; lia].
      now apply JSONArray_consumes. }
    apply Hscalar.
Qed.

(** ** The turns of the loops *)

(** A loop that has more turns than its text has characters does what it
    does with any such number of turns, also with another scanner that
    agrees with its own on the texts that are not longer. *)
Lemma JSONArray_loop_turns (scan scan' : scanner) (bound : nat) :
  scans scan ->
  (forall s, String.length s <= bound -> scan s = scan' s) ->
  forall n n' s values,
    String.length s <= bound -> String.length s < n -> String.length s < n' ->
    JSONArray_loop n scan s values = JSONArray_loop n' scan' s values.
Proof.
  intros Hscan Hsame. induction n as [|n IH]; intros n' s values Hb Hn Hn';
    [lia |].
  destruct n' as [|n']; [lia |].
  cbn [JSONArray_loop]. rewrite <- (Hsame s Hb). specialize (Hscan s).
  destruct (scan s) as [[value s1]|e]; cbn [consumes] in Hscan;
    [| reflexivity].
  pose proof (skip_ws_length s1) as Hs1.
  destruct (skip_ws s1) as [|c s2]; [reflexivity |].
  cbn [String.length] in Hs1.
  destruct (c =? "]")%char; [reflexivity |].
  destruct (c =? ",")%char; [| reflexivity].
  pose proof (skip_ws_length s2). apply IH; lia.
Qed.

Lemma JSONArray_turns (scan scan' : scanner) (n n' : nat) (s : string) :
  scans scan ->
  (forall t, String.length t <= String.length s -> scan t = scan' t) ->
  String.length s < n -> String.length s < n' ->
  JSONArray n scan s = JSONArray n' scan' s.
Proof.
  intros Hscan Hsame Hn Hn'. unfold JSONArray.
  pose proof (skip_ws_length s) as Hs.
  assert (Hl : JSONArray_loop n scan (skip_ws s) []
               = JSONArray_loop n' scan' (skip_ws s) [])
    by (apply (JSONArray_loop_turns scan scan' (String.length s));
        auto; lia).
  rewrite Hl. reflexivity.
Qed.

Lemma JSONObject_loop_turns (scan scan' : scanner) (bound : nat) :
  scans scan ->
  (forall s, String.length s <= bound -> scan s = scan' s) ->
  forall n n' s pairs,
    String.length s <= bound -> String.length s < n -> String.length s < n' ->
    JSONObject_loop n scan s pairs = JSONObject_loop n' scan' s pairs.
Proof.
  intros Hscan Hsame. induction n as [|n IH]; intros n' s pairs Hb Hn Hn';
    [lia |].
  destruct n' as [|n']; [lia |].
  cbn [JSONObject_loop].
  pose proof (scanstring_consumes (String.length s) s (le_n _)) as Hk.
  destruct (scanstring s) as [[[key lone] s1]|e]; cbn [consumes] in Hk;
    [| reflexivity].
  pose proof (skip_ws_length s1) as Hs1.
  destruct (skip_ws s1) as [|colon s2]; [reflexivity |].
  cbn [String.length] in Hs1.
  destruct (colon =? ":")%char; [| reflexivity].
  pose proof (skip_ws_length s2) as Hs2.
  rewrite <- (Hsame (skip_ws s2)) by lia.
  pose proof (Hscan (skip_ws s2)) as Hv.
  destruct (scan (skip_ws s2)) as [[value s3]|e]; cbn [consumes] in Hv;
    [| reflexivity].
  pose proof (skip_ws_length s3) as Hs3.
  destruct (skip_ws s3) as [|c s4]; [reflexivity |].
  cbn [String.length] in Hs3.
  destruct (c =? "}")%char; [reflexivity |].
  destruct (c =? ",")%char; [| reflexivity].
  pose proof (skip_ws_length s4) as Hs4.
  destruct (skip_ws s4) as [|q s5]; [reflexivity |].
  cbn [String.length] in Hs4.
  destruct (q =? quote_char)%char; [| reflexivity].
  apply IH; lia.
Qed.

Lemma JSONObject_turns (scan scan' : scanner) (n n' : nat) (s : string) :
  scans scan ->
  (forall t, String.length t <= String.length s -> scan t = scan' t) ->
  String.length s < n -> String.length s < n' ->
  JSONObject n scan s = JSONObject n' scan' s.
Proof.
  intros Hscan Hsame Hn Hn'. unfold JSONObject.
  pose proof (skip_ws_length s) as Hs.
  destruct (skip_ws s) as [|c s1]; [reflexivity |].
  cbn [String.length] in Hs.
  destruct (c =? quote_char)%char; [| reflexivity].
  apply (JSONObject_loop_turns scan scan' (String.length s)); auto; lia.
Qed.

(** With more turns than the text has characters, [scan_once] does what it
    does with any such number of turns. *)
Lemma scan_once_turns (room : nat) :
  forall turns turns' s,
    String.length s < turns -> String.length s < turns' ->
    scan_once turns room s = scan_once turns' room s.
Proof.
  induction room as [|room IH]; intros turns turns' s Ht Ht';
    (destruct s as [|c r]; [reflexivity |]);
    cbn [scan_once]; [reflexivity |].
  cbn [String.length] in Ht, Ht'.
  rewrite (JSONObject_turns (scan_once turns room) (scan_once turns' room)
             turns turns' r);
    [| apply scan_once_consumes | intros t Hl; apply IH; lia | lia | lia].
  rewrite (JSONArray_turns (scan_once turns room) (scan_once turns' room)
             turns turns' r);
    [| apply scan_once_consumes | intros t Hl; apply IH; lia | lia | lia].
  reflexivity.
Qed.

(** The turns [json_loads] gives the loops are never what stops it: it does
    what [decode] does with any larger number of turns. *)
Lemma json_loads_turns (s : string) (turns : nat) :
  String.length s < turns ->
  json_loads s
  = match strip_prefix BOM s with
    | Some _ => Raise JSONDecodeError
    | None => decode turns s
    end.
Proof.
  intros Ht. unfold json_loads, decode.
  pose proof (skip_ws_length s) as Hs.
  rewrite (scan_once_turns nesting_room (S (String.length s)) turns)
    by lia.
  reflexivity.
Qed.

(** [json_loads] raises nothing but [JSONDecodeError], [ValueError] and
    [RecursionError]. *)
Lemma json_loads_raises (s : string) (e : exn) :
  json_loads s = Raise e -> decoder_error e.
Proof.
  unfold json_loads, decode.
  destruct (strip_prefix BOM s); [intros H; injection H as <-; auto |].
  pose proof (scan_once_consumes (S (String.length s)) nesting_room
                (skip_ws s)) as H.
  destruct (scan_once (S (String.length s)) nesting_room (skip_ws s))
    as [[obj rest]|e']; cbn [consumes] in H.
  - destruct (skip_ws rest); [discriminate |].
    intros E. injection E as <-. auto.
  - intros E. injection E as <-. exact H.
Qed.

(** ** The exporters *)

Section ExporterProperties.

Variable repr : pyval -> string.

Lemma writerow_put (writer : DictWriter) rowdict row c st :
  _dict_to_list writer rowdict = Return row ->
  forallb encodable row = true ->
  writerow repr writer rowdict (put_file (csvfile writer) c st)
    = (Return tt, put_file (csvfile writer) (c +:+ csv_line repr row) st).
Proof.
  intros H He. unfold writerow, bind, lift. rewrite H, He. apply fwrite_put.
Qed.

Lemma writerow_lone (writer : DictWriter) rowdict row st :
  _dict_to_list writer rowdict = Return row ->
  forallb encodable row = false ->
  writerow repr writer rowdict st = (Raise UnicodeEncodeError, st).
Proof.
  intros H He. unfold writerow, bind, lift. now rewrite H, He.
Qed.

Lemma encodable_opt (o : option string) : encodable (py_of_opt o) = true.
Proof. destruct o; reflexivity. Qed.

Lemma encodable_flat_cells (r : inmate) :
  forallb encodable (flat_cells r) = true.
Proof.
  unfold flat_cells. cbn [forallb]. now rewrite !encodable_opt.
Qed.

Lemma bind_results_or_self {B} given (k : list inmate -> M B) st :
  bind (results_or_self given) k st
    = k (or_else given (results (self st))) st.
Proof. destruct given; reflexivity. Qed.

Lemma bind_filename_or_stamped {B} filename stem ext (k : string -> M B) st :
  bind (filename_or_stamped filename stem ext) k st
    = k (or_else filename (stem +:+ timestamp (self st) +:+ ext)) st.
Proof. destruct filename; reflexivity. Qed.

Lemma export_to_csv_run given filename st :
  let rs := or_else given (results (self st)) in
  let f := or_else filename
             ("cdcr_inmates_" +:+ timestamp (self st) +:+ ".csv") in
  export_to_csv repr given filename st
    = (Return f,
       printed (LF +:+ "✓ CSV exported to: " +:+ f)
         (put_file f
            (csv_line repr (map PStr flat_fieldnames)
             +:+ cat (map (fun r => csv_line repr (flat_cells r)) rs)) st)).
Proof.
  intros rs f. unfold export_to_csv.
  rewrite bind_results_or_self, bind_filename_or_stamped.
  unfold bind at 1. rewrite open_w_put.
  unfold bind at 1. unfold bind at 1. unfold writeheader.
  rewrite (writerow_put (mk_DictWriter f _) _ (map PStr flat_fieldnames))
    by reflexivity.
  rewrite (for_each_written f _
             (fun r => (csv_line repr (flat_cells r), Return tt))).
  - rewrite written_by_total. cbn [fst snd].
    rewrite bind_print. reflexivity.
  - intros r c st'. cbn [fst snd].
    apply (writerow_put (mk_DictWriter f _));
      [reflexivity | apply encodable_flat_cells].
Qed.

Lemma export_to_json_run given filename st :
  let rs := or_else given (results (self st)) in
  let f := or_else filename
             ("cdcr_inmates_" +:+ timestamp (self st) +:+ ".json") in
  export_to_json repr given filename st
    = (Return f,
       printed ("✓ JSON exported to: " +:+ f)
         (put_file f (_iterencode repr (py_of_results rs) 0) st)).
Proof.
  intros rs f. unfold export_to_json.
  rewrite bind_results_or_self, bind_filename_or_stamped.
  unfold bind at 1. rewrite open_w_put.
  unfold bind at 1. unfold json_dump. rewrite fwrite_put.
  rewrite bind_print. reflexivity.
Qed.

(** One turn of the inner loop of [export_parole_hearings_to_csv]. *)
Lemma hearing_turn (f : string) (inmate : inmate) (h : hearing) c st :
  (do hearing <- lift (decode_hearing h) ;
   do date <- lift (py_get hearing "date" (PStr EmptyString)) ;
   do action <- lift (py_get hearing "action" (PStr EmptyString)) ;
   do status <- lift (py_get hearing "status" (PStr EmptyString)) ;
   do outcome <- lift (py_get hearing "outcome" (PStr EmptyString)) ;
   writerow repr (mk_DictWriter f hearings_fieldnames)
     [ ("cdcr_number", PStr (cdcr_number inmate));
       ("inmate_name", py_of_opt (name inmate));
       ("date", date);
       ("action", action);
       ("status", status);
       ("outcome", outcome) ]) (put_file f c st)
  = (snd (turn (hearing_line repr) (inmate, h)),
     put_file f (c +:+ fst (turn (hearing_line repr) (inmate, h))) st).
Proof.
  unfold turn, hearing_line, hearing_cells. cbn [fst snd].
  unfold bind at 1. unfold lift at 1.
  destruct (decode_hearing h) as [v|e]; cbn [fst snd];
    [| now rewrite append_nil_r].
  destruct v; cbn [fst snd]; try (now rewrite append_nil_r).
  unfold bind at 1 2 3 4, lift, py_get.
  match goal with
  | |- context [forallb encodable ?row] =>
      destruct (forallb encodable row) eqn:He
  end; cbn [fst snd].
  - now apply (writerow_put (mk_DictWriter f hearings_fieldnames)).
  - rewrite append_nil_r.
    eapply (writerow_lone (mk_DictWriter f hearings_fieldnames));
      [reflexivity | exact He].
Qed.

Lemma export_parole_hearings_to_csv_run given filename st :
  let rs := or_else given (results (self st)) in
  let f := or_else filename
             ("cdcr_parole_hearings_" +:+ timestamp (self st) +:+ ".csv") in
  let w := written_by (turn (hearing_line repr)) (hearing_pairs rs) in
  let st' := put_file f
               (csv_line repr (map PStr hearings_fieldnames) +:+ fst w) st in
  export_parole_hearings_to_csv repr given filename st
    = match snd w with
      | Return _ =>
          (Return f,
           printed ("✓ Parole Hearings CSV exported to: " +:+ f) st')
      | Raise e => (Raise e, st')
      end.
Proof.
  intros rs f w st'. unfold export_parole_hearings_to_csv.
  rewrite bind_results_or_self, bind_filename_or_stamped.
  unfold bind at 1. rewrite open_w_put.
  unfold bind at 1. unfold bind at 1. unfold writeheader.
  rewrite (writerow_put (mk_DictWriter f _) _ (map PStr hearings_fieldnames))
    by reflexivity.
  rewrite (for_each_written f _
             (fun r => written_by (fun h => turn (hearing_line repr) (r, h))
                         (board_of_parole_hearings r))).
  - rewrite (written_by_nested board_of_parole_hearings
               (fun r h => turn (hearing_line repr) (r, h))).
    fold (hearing_pairs rs).
    replace (fun p : inmate * hearing => turn (hearing_line repr) (fst p, snd p))
      with (turn (hearing_line repr)).
    2:{ unfold turn, hearing_line, hearing_cells. reflexivity. }
    repeat match goal with
           | |- context [written_by ?G ?l] =>
               progress change (written_by G l) with w
           end.
    subst st'. clearbody w.
    destruct (snd w) as [[]|e]; reflexivity.
  - intros r c st0.
    apply (for_each_written f _ (fun h => turn (hearing_line repr) (r, h))).
    intros h c0 st1. apply hearing_turn.
Qed.

Lemma export_to_csv_file rs f st :
  fst (export_to_csv repr (Some rs) (Some f) st) = Return f
  /\ file_content (snd (export_to_csv repr (Some rs) (Some f) st)) f
     = Some (flat_text repr rs).
Proof.
  rewrite export_to_csv_run. cbn [fst snd or_else].
  rewrite file_content_printed, file_content_put. auto.
Qed.

Lemma export_to_json_file rs f st :
  fst (export_to_json repr (Some rs) (Some f) st) = Return f
  /\ file_content (snd (export_to_json repr (Some rs) (Some f) st)) f
     = Some (_iterencode repr (py_of_results rs) 0).
Proof.
  rewrite export_to_json_run. cbn [fst snd or_else].
  rewrite file_content_printed, file_content_put. auto.
Qed.

Lemma export_parole_hearings_to_csv_file rs f st :
  fst (export_parole_hearings_to_csv repr (Some rs) (Some f) st)
    = finish (snd (hearings_run repr rs)) f
  /\ file_content
       (snd (export_parole_hearings_to_csv repr (Some rs) (Some f) st)) f
     = Some (hearings_text repr rs).
Proof.
  pose proof (export_parole_hearings_to_csv_run (Some rs) (Some f) st) as H.
  cbv zeta in H. cbn [or_else] in H.
  change (written_by (turn (hearing_line repr)) (hearing_pairs rs))
    with (hearings_run repr rs) in H.
  rewrite H. clear H. unfold hearings_text.
  destruct (snd (hearings_run repr rs)) as [[]|e]; cbn [fst snd finish].
  - rewrite file_content_printed, file_content_put. auto.
  - rewrite file_content_put. auto.
Qed.

Lemma hearing_pairs_app (l1 l2 : list inmate) :
  hearing_pairs (l1 ++ l2) = hearing_pairs l1 ++ hearing_pairs l2.
Proof. unfold hearing_pairs. apply flat_map_app. Qed.

End ExporterProperties.

(** ** Rows and cells *)

Lemma flat_header_line repr :
  csv_line repr (map PStr flat_fieldnames) = flat_header +:+ CRLF.
Proof. reflexivity. Qed.

Lemma hearings_header_line repr :
  csv_line repr (map PStr hearings_fieldnames) = hearings_header +:+ CRLF.
Proof. reflexivity. Qed.

(** A row of two cells or more is its cells joined by commas. *)
Lemma csv_line_cells repr (a b : pyval) (l : list pyval) :
  csv_line repr (a :: b :: l)
    = String.concat comma (map (csv_cell repr) (a :: b :: l)) +:+ CRLF.
Proof.
  unfold csv_line. cbn [map String.concat].
  fold (csv_cell repr a). destruct (csv_cell repr a); reflexivity.
Qed.

Lemma flat_text_app repr (l1 l2 : list inmate) :
  flat_text repr (l1 ++ l2)
    = flat_text repr l1
      +:+ cat (map (fun r => csv_line repr (flat_cells r)) l2).
Proof.
  unfold flat_text. now rewrite map_app, cat_app, append_assoc.
Qed.

(** A line that is written is the line of a row whose cells can all be
    encoded. *)
Lemma hearing_line_row repr (p : inmate * hearing) (line : string) :
  hearing_line repr p = Return line ->
  exists row,
    hearing_cells p = Return row
    /\ forallb encodable row = true
    /\ line = csv_line repr row.
Proof.
  unfold hearing_line. destruct (hearing_cells p) as [row|e]; [| discriminate].
  destruct (forallb encodable row) eqn:He; [| discriminate].
  intros H. injection H as <-. exists row. auto.
Qed.

Lemma hearing_line_rows repr (ps : list (inmate * hearing))
    (lines : list string) :
  Forall2 (fun p line => hearing_line repr p = Return line) ps lines ->
  exists rows,
    Forall2 (fun p row => hearing_cells p = Return row
                          /\ forallb encodable row = true) ps rows
    /\ lines = map (csv_line repr) rows.
Proof.
  induction 1 as [|p line ps lines Hp _ (rows & Hrows & ->)].
  - exists []. split; [constructor | reflexivity].
  - destruct (hearing_line_row repr p line Hp) as (row & Hc & He & ->).
    exists (row :: rows). split; [now constructor | reflexivity].
Qed.

(** The hearings export writes the header row and then one whole row for
    each (record, hearing) pair in turn, up to the end or to the first pair
    whose row cannot be made or written; it returns the file name in the
    first case and raises the exception of that pair in the second. *)
Lemma hearings_export_cases repr rs f st :
  let run := export_parole_hearings_to_csv repr (Some rs) (Some f) st in
  (exists rows,
      fst run = Return f
      /\ Forall2 (fun p row => hearing_cells p = Return row
                               /\ forallb encodable row = true)
           (hearing_pairs rs) rows
      /\ file_content (snd run) f
         = Some (cat (map (csv_line repr)
                        (map PStr hearings_fieldnames :: rows))))
  \/ (exists e pre p post rows,
        fst run = Raise e
        /\ hearing_pairs rs = pre ++ p :: post
        /\ hearing_line repr p = Raise e
        /\ Forall2 (fun p row => hearing_cells p = Return row
                                 /\ forallb encodable row = true) pre rows
        /\ file_content (snd run) f
           = Some (cat (map (csv_line repr)
                          (map PStr hearings_fieldnames :: rows)))).
Proof.
  intros run. subst run.
  destruct (export_parole_hearings_to_csv_file repr rs f st) as [Ho Hf].
  rewrite Ho, Hf. unfold hearings_text, hearings_run.
  destruct (written_by_cases (hearing_line repr) (hearing_pairs rs))
    as [(lines & Hall & Hw) | (pre & p & post & lines & e & Hl & Hall & Hp & Hw)];
    rewrite Hw; cbn [fst snd finish];
    destruct (hearing_line_rows repr _ _ Hall) as (rows & Hrows & ->).
  - left. exists rows. auto.
  - right. exists e, pre, p, post, rows. auto 6.
Qed.

Lemma csv_cell_opt repr (o : option string) :
  csv_cell repr (py_of_opt o) = opt_cell o.
Proof. destruct o; reflexivity. Qed.

Lemma flat_line_row repr (r : inmate) :
  csv_line repr (flat_cells r)
    = csv_row [ Some (cdcr_number r); name r; age r; admission_date r;
                current_location r; commitment_county r;
                parole_eligible_date r;
                Some (str_int (Z.of_nat
                        (length (board_of_parole_hearings r)))) ].
Proof.
  unfold flat_cells, csv_row. rewrite csv_line_cells.
  cbn [map]. now rewrite !csv_cell_opt.
Qed.

Lemma dict_get_py_of_hearing (d : list (string * option string)) key :
  dict_get (map (fun kv => (fst kv, py_of_opt (snd kv))) d) key
    = option_map py_of_opt (dict_get d key).
Proof.
  induction d as [|[k v] d IH]; [reflexivity |].
  cbn [map dict_get fst snd]. now destruct (k =? key)%string.
Qed.

Lemma encodable_hearing_value (d : list (string * option string)) key :
  encodable
    (default (PStr EmptyString)
       (dict_get (map (fun kv => (fst kv, py_of_opt (snd kv))) d) key))
  = true.
Proof.
  rewrite dict_get_py_of_hearing.
  destruct (dict_get d key) as [[?|]|]; reflexivity.
Qed.

Lemma hearing_dict_line repr (r : inmate) d :
  hearing_line repr (r, HearingDict d)
    = Return (csv_row [ Some (cdcr_number r); name r;
                        hearing_field d "date"; hearing_field d "action";
                        hearing_field d "status";
                        hearing_field d "outcome" ]).
Proof.
  unfold hearing_line, hearing_cells, csv_row.
  cbn [fst snd decode_hearing py_of_hearing forallb encodable].
  rewrite encodable_opt, !encodable_hearing_value. cbn [andb].
  rewrite csv_line_cells. cbn [map]. rewrite csv_cell_opt.
  rewrite !dict_get_py_of_hearing. unfold hearing_field.
  do 4 f_equal.
  all: repeat match goal with
         | |- context [dict_get ?m ?k] => destruct (dict_get m k) as [[?|]|]
         end; reflexivity.
Qed.

(** The line of a hearing given as text that [json.loads] turns into a
    dict: written when the four values it takes can be encoded, and the
    exception of the file's [write] otherwise. *)
Lemma hearing_payload_line repr (r : inmate) s d :
  json_loads s = Return (PDict d) ->
  hearing_line repr (r, HearingStr s)
    = if forallb encodable (written_values d)
      then Return (String.concat comma
                     [ opt_cell (Some (cdcr_number r)); opt_cell (name r);
                       payload_cell repr d "date";
                       payload_cell repr d "action";
                       payload_cell repr d "status";
                       payload_cell repr d "outcome" ] +:+ CRLF)
      else Raise UnicodeEncodeError.
Proof.
  intros H. unfold hearing_line, hearing_cells.
  cbn [fst snd decode_hearing]. rewrite H.
  cbn [forallb encodable]. rewrite encodable_opt. cbn [andb].
  assert (Hw : forallb encodable (written_values d)
               = encodable (default (PStr EmptyString) (dict_get d "date"))
                 && (encodable
                       (default (PStr EmptyString) (dict_get d "action"))
                     && (encodable
                           (default (PStr EmptyString) (dict_get d "status"))
                         && (encodable
                               (default (PStr EmptyString)
                                  (dict_get d "outcome")) && true))))
    by reflexivity.
  rewrite <- Hw. clear Hw.
  destruct (forallb encodable (written_values d)); [| reflexivity].
  rewrite csv_line_cells. cbn [map]. rewrite csv_cell_opt.
  unfold payload_cell.
  do 4 f_equal.
  all: repeat match goal with
         | |- context [dict_get ?m ?k] => destruct (dict_get m k) as [[]|]
         end; reflexivity.
Qed.

(** A line that is not written is the line of a hearing given as a string:
    one that [json.loads] refuses, one that it turns into something other
    than a dict, or one that it turns into a dict with a value, among the
    four that are written, that cannot be encoded. *)
Lemma hearing_line_raises repr (p : inmate * hearing) (e : exn) :
  hearing_line repr p = Raise e ->
  exists s,
    snd p = HearingStr s
    /\ ((json_loads s = Raise e /\ decoder_error e)
        \/ (exists v,
              json_loads s = Return v
              /\ (forall d, v <> PDict d)
              /\ e = AttributeError)
        \/ (exists d,
              json_loads s = Return (PDict d)
              /\ forallb encodable (written_values d) = false
              /\ e = UnicodeEncodeError)).
Proof.
  destruct p as [r [d | s]]; [now rewrite hearing_dict_line |].
  intros H. exists s. split; [reflexivity |].
  destruct (json_loads s) as [v | e'] eqn:E.
  - assert (Hv : (exists d, v = PDict d) \/ (forall d, v <> PDict d)).
    { destruct v; try (right; discriminate). left. eauto. }
    destruct Hv as [[d ->] | Hv].
    + right. right. exists d. split; [reflexivity |].
      rewrite (hearing_payload_line repr r s d E) in H.
      destruct (forallb encodable (written_values d)); [discriminate |].
      injection H as <-. auto.
    + right. left. exists v. split; [reflexivity |]. split; [exact Hv |].
      unfold hearing_line, hearing_cells in H.
      cbn [fst snd decode_hearing] in H. rewrite E in H.
      destruct v; try (now injection H as <-).
      now destruct (Hv d).
  - left. unfold hearing_line, hearing_cells in H.
    cbn [fst snd decode_hearing] in H. rewrite E in H.
    injection H as <-. split; [reflexivity |].
    now apply (json_loads_raises s).
Qed.

(** ** JSON text *)

Lemma iterencode_list repr (l : list pyval) (level : nat) :
  _iterencode repr (PList l) level
    = json_array level (map (fun v => _iterencode repr v (S level)) l).
Proof. destruct l; reflexivity. Qed.

Lemma iterencode_dict repr (d : list (string * pyval)) (level : nat) :
  _iterencode repr (PDict d) level
    = json_object level
        (map (fun kv => (fst kv, _iterencode repr (snd kv) (S level))) d).
Proof.
  destruct d as [|kv d]; [reflexivity |].
  cbn [_iterencode]. unfold json_object. cbn [map fst snd String.concat].
  destruct d as [|kv' d]; [reflexivity |].
  cbn [map fst snd]. now rewrite map_map.
Qed.

Lemma iterencode_opt repr (o : option string) (level : nat) :
  _iterencode repr (py_of_opt o) level = json_opt o.
Proof. destruct o; reflexivity. Qed.

(** ** Decoding what the encoder wrote *)

Lemma scanstring_escape_char (c x : ascii) (t : string) :
  scanstring (escape_char c +:+ String x t)
    = chunk (String c EmptyString) false (scanstring (String x t)).
Proof. destruct c as [[] [] [] [] [] [] [] []]; reflexivity. Qed.

(** [scanstring] undoes [escape], up to the closing quote. *)
Lemma scanstring_escape (s rest : string) :
  scanstring (escape s +:+ String quote_char rest) = Return (s, false, rest).
Proof.
  induction s as [|c s IH]; [reflexivity |].
  change (escape (String c s)) with (escape_char c +:+ escape s).
  rewrite append_assoc.
  assert (H : exists x t, escape s +:+ String quote_char rest = String x t)
    by (destruct (escape s); eexists; eexists; reflexivity).
  destruct H as (x & t & H). rewrite H in *.
  rewrite scanstring_escape_char, IH. reflexivity.
Qed.

Lemma skip_ws_spaces (n : nat) (t : string) :
  skip_ws (spaces n +:+ t) = skip_ws t.
Proof. induction n as [|n IH]; [reflexivity | exact IH]. Qed.

Lemma skip_ws_newline_indent (level : nat) (t : string) :
  skip_ws (newline_indent level +:+ t) = skip_ws t.
Proof.
  unfold newline_indent. rewrite append_assoc.
  change (skip_ws (spaces (2 * level) +:+ t) = skip_ws t).
  apply skip_ws_spaces.
Qed.

Lemma skip_ws_starts_value (s : string) : starts_value s -> skip_ws s = s.
Proof. intros (c & r & -> & H & _). cbn [skip_ws]. now rewrite H. Qed.

Lemma skip_ws_cons (c : ascii) (t : string) :
  is_ws c = false -> skip_ws (String c t) = String c t.
Proof. intros H. cbn [skip_ws]. now rewrite H. Qed.

Lemma iterencode_starts_value repr (v : pyval) (level : nat) (t : string) :
  plain v -> starts_value (_iterencode repr v level +:+ t).
Proof.
  intros H. destruct H as [|[]|s|l _|d _ _].
  1-4: repeat eexists.
  - destruct l; repeat eexists.
  - destruct d; repeat eexists.
Qed.

Lemma weight_pos (v : pyval) : 1 <= weight v.
Proof. destruct v; cbn [weight]; lia. Qed.

Lemma dict_set_fresh (d : list (string * pyval)) (k : string) (v : pyval) :
  ~ In k (map fst d) -> dict_set d k v = d ++ [(k, v)].
Proof.
  induction d as [|[k' v'] d IH]; intros H; [reflexivity |].
  cbn [dict_set app]. cbn [map fst In] in H.
  destruct (String.eqb_spec k' k) as [-> | _]; [tauto |].
  rewrite IH; [reflexivity | tauto].
Qed.

Lemma dict_fold_nodup (l acc : list (string * pyval)) :
  NoDup (map fst (acc ++ l)) ->
  fold_left (fun d kv => dict_set d (fst kv) (snd kv)) l acc = acc ++ l.
Proof.
  revert acc. induction l as [|[k v] l IH]; intros acc H.
  - cbn [fold_left]. now rewrite app_nil_r.
  - cbn [fold_left fst snd]. rewrite dict_set_fresh.
    + rewrite IH; rewrite <- List.app_assoc; [reflexivity | exact H].
    + rewrite map_app in H. cbn [map fst] in H.
      apply NoDup_app in H. destruct H as (_ & H & _).
      intros Hin. apply list_elem_of_In in Hin.
      apply (H k Hin). now left.
Qed.

(** [dict] keeps a list of pairs with distinct keys as it is. *)
Lemma dict_nodup (d : list (string * pyval)) :
  NoDup (map fst d) -> dict d = d.
Proof. intros H. unfold dict. now apply dict_fold_nodup. Qed.

Lemma weight_in_list (v : pyval) (l : list pyval) :
  In v l -> weight v <= list_sum (map weight l).
Proof.
  induction l as [|x l IH]; [intros [] |].
  intros [-> | H]; cbn [map list_sum fold_right]; [lia |].
  specialize (IH H). unfold list_sum in IH. lia.
Qed.

Lemma length_le_weights {A : Type} (w : A -> nat) (l : list A) :
  (forall x, 1 <= w x) -> length l <= list_sum (map w l).
Proof.
  intros Hw. induction l as [|x l IH]; [reflexivity |].
  cbn [length map list_sum fold_right]. specialize (Hw x).
  unfold list_sum in IH. lia.
Qed.

Lemma weight_in_dict (kv : string * pyval) (d : list (string * pyval)) :
  In kv d -> weight (snd kv) <= list_sum (map (fun kv => weight (snd kv)) d).
Proof.
  induction d as [|x d IH]; [intros [] |].
  intros [-> | H]; cbn [map list_sum fold_right]; [lia |].
  specialize (IH H). unfold list_sum in IH. lia.
Qed.

Lemma depth_in_list (v : pyval) (l : list pyval) :
  In v l -> depth v <= list_max (map depth l).
Proof.
  intros H. pose proof (list_max_le (map depth l) (list_max (map depth l)))
    as [Hle _].
  specialize (Hle (le_n _)). rewrite List.Forall_forall in Hle.
  apply Hle. now apply in_map.
Qed.

Lemma depth_in_dict (kv : string * pyval) (d : list (string * pyval)) :
  In kv d -> depth (snd kv) <= list_max (map (fun kv => depth (snd kv)) d).
Proof.
  intros H.
  pose proof (list_max_le (map (fun kv => depth (snd kv)) d)
                (list_max (map (fun kv => depth (snd kv)) d))) as [Hle _].
  specialize (Hle (le_n _)). rewrite List.Forall_forall in Hle.
  apply Hle. now apply (in_map (fun kv => depth (snd kv))).
Qed.

Section RoundTrip.

Variable repr : pyval -> string.

#[local] Abbreviation enc := (_iterencode repr).

Lemma JSONArray_loop_encoded (scan : scanner) (level : nat) (rest : string) :
  forall l values n,
    l <> [] ->
    Forall (reads repr scan (S level)) l ->
    length l <= n ->
    JSONArray_loop n scan
      (String.concat ("," +:+ newline_indent (S level))
         (map (fun v => enc v (S level)) l)
       +:+ newline_indent level +:+ String "]" rest) values
    = Return (PList (values ++ l), rest).
Proof.
  induction l as [|x l IH]; [congruence |].
  intros values n _ Hall Hn.
  apply List.Forall_cons_iff in Hall. destruct Hall as [[Hpx Hx] Hall].
  destruct n as [|n]; [cbn [length] in Hn; lia |].
  destruct l as [|y l].
  - cbn [map String.concat JSONArray_loop].
    rewrite Hx, skip_ws_newline_indent. reflexivity.
  - cbn [map]. rewrite concat_cons2. cbn [JSONArray_loop].
    rewrite !append_assoc, Hx, append_cons, append_nil_l.
    rewrite skip_ws_cons by reflexivity.
    change (JSONArray_loop n scan
              (skip_ws (newline_indent (S level)
                 +:+ String.concat ("," +:+ newline_indent (S level))
                       (map (fun v => enc v (S level)) (y :: l))
                 +:+ newline_indent level +:+ String "]" rest))
              (values ++ [x])
            = Return (PList (values ++ x :: y :: l), rest)).
    rewrite skip_ws_newline_indent.
    destruct (concat_head ("," +:+ newline_indent (S level))
                (enc y (S level)) (map (fun v => enc v (S level)) l)
                (newline_indent level +:+ String "]" rest)) as (t' & Ht).
    apply List.Forall_cons_iff in Hall as Hall'.
    destruct Hall' as [[Hpy _] _].
    rewrite skip_ws_starts_value.
    2:{ cbn [map]. rewrite Ht. now apply iterencode_starts_value. }
    rewrite (IH (values ++ [x]) n); [| discriminate | exact Hall |].
    + now rewrite <- List.app_assoc.
    + cbn [length] in *. lia.
Qed.

Lemma JSONObject_loop_encoded (scan : scanner) (level : nat) (rest : string) :
  forall d k v pairs n,
    reads repr scan (S level) v ->
    Forall (fun kv => reads repr scan (S level) (snd kv)) d ->
    length d < n ->
    JSONObject_loop n scan
      (escape k +:+ String quote_char (String ":" (String " "
         (enc v (S level)
          +:+ cat (map (fun kv => ("," +:+ newline_indent (S level))
                                  +:+ member repr (S level) kv) d)
          +:+ newline_indent level +:+ String "}" rest)))) pairs
    = Return (PDict (dict (pairs ++ (k, v) :: d)), rest).
Proof.
  induction d as [|[k2 v2] d IH]; intros k v pairs n [Hpv Hv] Hall Hn;
    (destruct n as [|n]; [lia |]).
  - cbn [JSONObject_loop]. rewrite scanstring_escape.
    rewrite skip_ws_cons by reflexivity.
    cbv beta iota. change (":" =? ":")%char with true. cbv iota.
    change (skip_ws (String " " ?t)) with (skip_ws t).
    rewrite skip_ws_starts_value by now apply iterencode_starts_value.
    rewrite Hv. cbn [map cat fold_right]. rewrite append_nil_l.
    rewrite skip_ws_newline_indent. reflexivity.
  - apply List.Forall_cons_iff in Hall. destruct Hall as [Hr2 Hall].
    cbn [JSONObject_loop]. rewrite scanstring_escape.
    rewrite skip_ws_cons by reflexivity.
    cbv beta iota. change (":" =? ":")%char with true. cbv iota.
    change (skip_ws (String " " ?t)) with (skip_ws t).
    rewrite skip_ws_starts_value by now apply iterencode_starts_value.
    rewrite Hv. cbn [map cat fold_right].
    change (fold_right String.append EmptyString ?l) with (cat l).
    unfold member at 1. cbn [fst snd]. unfold py_encode_basestring.
    norm_text.
    rewrite skip_ws_cons by reflexivity.
    cbv beta iota. change ("," =? "}")%char with false.
    change ("," =? ",")%char with true. cbv iota.
    rewrite skip_ws_newline_indent.
    rewrite skip_ws_cons by reflexivity.
    cbv beta iota. rewrite Ascii.eqb_refl.
    refine (eq_trans (IH k2 v2 (pairs ++ [(k, v)]) n Hr2 Hall _) _);
      [cbn [length] in Hn; lia |].
    now rewrite <- List.app_assoc.
Qed.

(** Decoding the text of a plain value gives the value back, and what
    follows the text is left to read, when the loops have turns enough and
    the value is not nested deeper than there is room. *)
Lemma scan_once_encoded (v : pyval) :
  plain v ->
  forall level rest turns room,
    weight v <= turns -> depth v <= room ->
    scan_once turns room (enc v level +:+ rest) = Return (v, rest).
Proof.
  induction v as [| b | z | lit | s | s | l IH | d IH] using pyval_nested_ind;
    intros Hp level rest turns room Ht Hr; inversion Hp; subst.
  - destruct room; reflexivity.
  - destruct room, b; reflexivity.
  - change (enc (PStr s) level)
      with (String quote_char (escape s +:+ String quote_char EmptyString)).
    norm_text. destruct room; cbn [scan_once]; rewrite Ascii.eqb_refl;
      now rewrite scanstring_escape.
  - destruct room as [|room]; [cbn [depth] in Hr; lia |].
    destruct l as [|x l]; [reflexivity |].
    cbn [weight] in Ht. cbn [depth] in Hr.
    assert (Hreads : Forall (reads repr (scan_once turns room) (S level))
                       (x :: l)).
    { apply List.Forall_forall. intros v Hv.
      rewrite List.Forall_forall in IH, H0. split; [now apply H0 |].
      intros rest'. apply IH; [exact Hv | now apply H0 | |].
      - pose proof (weight_in_list v (x :: l) Hv). lia.
      - pose proof (depth_in_list v (x :: l) Hv). lia. }
    change (enc (PList (x :: l)) level)
      with ("[" +:+ newline_indent (S level)
            +:+ String.concat ("," +:+ newline_indent (S level))
                  (map (fun value => enc value (S level)) (x :: l))
            +:+ newline_indent level +:+ "]").
    norm_text. cbn [scan_once].
    change (JSONArray turns (scan_once turns room)
              (newline_indent (S level)
               +:+ String.concat ("," +:+ newline_indent (S level))
                     (map (fun value => enc value (S level)) (x :: l))
               +:+ newline_indent level +:+ String "]" rest)
            = Return (PList (x :: l), rest)).
    unfold JSONArray. rewrite skip_ws_newline_indent.
    destruct (concat_head ("," +:+ newline_indent (S level))
                (enc x (S level)) (map (fun v => enc v (S level)) l)
                (newline_indent level +:+ String "]" rest)) as (t' & Hhead).
    assert (Hs : starts_value
              (String.concat ("," +:+ newline_indent (S level))
                 (map (fun value => enc value (S level)) (x :: l))
               +:+ newline_indent level +:+ String "]" rest)).
    { cbn [map]. rewrite Hhead. apply iterencode_starts_value.
      rewrite List.Forall_forall in H0. apply H0. now left. }
    rewrite (skip_ws_starts_value _ Hs).
    destruct Hs as (c & r & Hc & _ & Hclose). rewrite Hc at 1.
    rewrite Hclose.
    apply (JSONArray_loop_encoded (scan_once turns room) level rest (x :: l)
             [] turns);
      [discriminate | exact Hreads |].
    pose proof (length_le_weights weight (x :: l) weight_pos). lia.
  - destruct room as [|room]; [cbn [depth] in Hr; lia |].
    destruct d as [|[k v] d]; [reflexivity |].
    cbn [weight] in Ht. cbn [depth] in Hr.
    assert (Hreads : Forall (fun kv => reads repr (scan_once turns room)
                                         (S level) (snd kv))
                       ((k, v) :: d)).
    { apply List.Forall_forall. intros kv Hkv.
      rewrite List.Forall_forall in IH, H1. split; [now apply H1 |].
      intros rest'. apply IH; [exact Hkv | now apply H1 | |].
      - pose proof (weight_in_dict kv ((k, v) :: d) Hkv). lia.
      - pose proof (depth_in_dict kv ((k, v) :: d) Hkv). lia. }
    apply List.Forall_cons_iff in Hreads. destruct Hreads as [Hv Hreads].
    change (enc (PDict ((k, v) :: d)) level)
      with ("{" +:+ newline_indent (S level)
            +:+ String.concat ("," +:+ newline_indent (S level))
                  (map (member repr (S level)) ((k, v) :: d))
            +:+ newline_indent level +:+ "}").
    cbn [map]. rewrite concat_as_tail, map_map.
    unfold member at 1. cbn [fst snd]. unfold py_encode_basestring.
    norm_text. cbn [scan_once].
    change (JSONObject turns (scan_once turns room)
              (newline_indent (S level)
               +:+ String quote_char
                     (escape k +:+ String quote_char (String ":" (String " "
                        (enc v (S level)
                         +:+ cat (map (fun kv =>
                                    ("," +:+ newline_indent (S level))
                                    +:+ member repr (S level) kv) d)
                         +:+ newline_indent level +:+ String "}" rest)))))
            = Return (PDict ((k, v) :: d), rest)).
    unfold JSONObject. rewrite skip_ws_newline_indent.
    rewrite skip_ws_cons by reflexivity.
    cbv beta iota. rewrite Ascii.eqb_refl.
    rewrite (JSONObject_loop_encoded (scan_once turns room) level rest d k v
               [] turns Hv Hreads).
    + cbn [app]. now rewrite dict_nodup.
    + pose proof (length_le_weights (fun kv : string * pyval =>
                     weight (snd kv)) d (fun kv => weight_pos (snd kv))).
      cbn [map list_sum fold_right snd] in Ht. unfold list_sum in H.
      pose proof (weight_pos v). lia.
Qed.

Lemma length_json_array (level : nat) (elements : list string) :
  S (list_sum (map String.length elements))
    <= String.length (json_array level elements).
Proof.
  destruct elements as [|a l]; [cbn; lia |].
  unfold json_array. rewrite !length_append.
  pose proof (length_concat ("," +:+ newline_indent (S level)) (a :: l)).
  change (String.length "[") with 1. lia.
Qed.

Lemma length_json_object (level : nat) (members : list (string * string)) :
  S (list_sum (map (fun m => String.length (snd m)) members))
    <= String.length (json_object level members).
Proof.
  destruct members as [|a l]; [cbn; lia |].
  unfold json_object. rewrite !length_append.
  pose proof (length_concat ("," +:+ newline_indent (S level))
                (map (fun m => py_encode_basestring (fst m) +:+ ": " +:+ snd m)
                   (a :: l))) as Hc.
  rewrite map_map in Hc.
  assert (Hw : list_sum (map (fun m : string * string =>
                                String.length (snd m)) (a :: l))
               <= list_sum
                    (map (fun m : string * string =>
                            String.length
                              (py_encode_basestring (fst m) +:+ ": " +:+ snd m))
                       (a :: l))).
  { apply list_sum_le. apply List.Forall_forall. intros m _.
    rewrite !length_append. lia. }
  change (String.length "{") with 1. lia.
Qed.

(** The text of a value has at least as many characters as the loops need
    turns to decode it. *)
Lemma length_encoded (v : pyval) :
  plain v -> forall level, weight v <= String.length (enc v level).
Proof.
  induction v as [| b | z | lit | s | s | l IH | d IH]
    using pyval_nested_ind;
    intros Hp level; inversion Hp; subst.
  - cbn. lia.
  - destruct b; cbn; lia.
  - cbn [weight _iterencode py_encode_basestring String.length]. lia.
  - rewrite iterencode_list. cbn [weight].
    etransitivity; [| apply length_json_array].
    rewrite map_map. apply le_n_S, list_sum_le.
    rewrite List.Forall_forall in *.
    intros v Hv. apply IH; [exact Hv | now apply H0].
  - rewrite iterencode_dict. cbn [weight].
    etransitivity; [| apply length_json_object].
    rewrite map_map. apply le_n_S, list_sum_le.
    rewrite List.Forall_forall in *.
    intros kv Hkv. cbn [snd]. apply IH; [exact Hkv | now apply H1].
Qed.

(** [json.loads] reads back the text written for a value, at any indent
    level, when the value is not nested deeper than there is room. *)
Lemma json_loads_encoded (v : pyval) (level : nat) :
  plain v -> depth v <= nesting_room ->
  json_loads (enc v level) = Return v.
Proof.
  intros Hp Hd. unfold json_loads, decode.
  assert (H1 : strip_prefix BOM (enc v level) = None).
  { destruct Hp as [|[]|s|l _|d _ _]; try reflexivity.
    - destruct l; reflexivity.
    - destruct d; reflexivity. }
  assert (H2 : skip_ws (enc v level) = enc v level).
  { rewrite <- (append_nil_r (enc v level)).
    apply skip_ws_starts_value. now apply iterencode_starts_value. }
  rewrite H1, H2.
  rewrite <- (append_nil_r (enc v level)) at 2.
  rewrite scan_once_encoded; [reflexivity | exact Hp | | exact Hd].
  pose proof (length_encoded v Hp level). lia.
Qed.

End RoundTrip.

(** ** The JSON document of a record list *)

Lemma plain_opt (o : option string) : plain (py_of_opt o).
Proof. destruct o; constructor. Qed.

Lemma plain_results (results : list inmate) :
  distinct_keys results -> plain (py_of_results results).
Proof.
  intros H. constructor. apply List.Forall_forall. intros v Hv.
  apply in_map_iff in Hv. destruct Hv as (r & <- & Hr).
  unfold distinct_keys in H. rewrite List.Forall_forall in H.
  specialize (H r Hr). unfold py_of_inmate. constructor.
  - refine (bool_decide_unpack _ _). vm_compute. exact I.
  - repeat (apply List.Forall_cons; [cbn [snd]; try apply plain_opt;
                                      try constructor |]);
      [| apply List.Forall_nil].
    apply List.Forall_forall. intros v Hv.
    apply in_map_iff in Hv. destruct Hv as (h & <- & Hh).
    rewrite List.Forall_forall in H. specialize (H h Hh).
    destruct h as [d | s]; cbn [py_of_hearing]; constructor.
    + now rewrite map_map.
    + apply List.Forall_forall. intros kv Hkv.
      apply in_map_iff in Hkv. destruct Hkv as (x & <- & _).
      apply plain_opt.
Qed.

Lemma depth_opt (o : option string) : depth (py_of_opt o) = 0.
Proof. destruct o; reflexivity. Qed.

Lemma depth_hearing (h : hearing) : depth (py_of_hearing h) <= 1.
Proof.
  destruct h as [d | s]; cbn [py_of_hearing depth]; [| lia].
  apply le_n_S. apply list_max_le. apply List.Forall_forall.
  intros n Hn. rewrite map_map in Hn. apply in_map_iff in Hn.
  destruct Hn as (kv & <- & _). cbn [snd]. now rewrite depth_opt.
Qed.

(** The document of a record list is nested four deep at most: the list,
    a record, its hearings, a hearing. *)
Lemma depth_results (results : list inmate) :
  depth (py_of_results results) <= 4.
Proof.
  unfold py_of_results. cbn [depth].
  apply le_n_S. apply list_max_le. apply List.Forall_forall.
  intros n Hn. rewrite map_map in Hn. apply in_map_iff in Hn.
  destruct Hn as (r & <- & _). unfold py_of_inmate.
  cbn [depth map snd list_max fold_right]. rewrite !depth_opt.
  assert (Hh : list_max (map depth (map py_of_hearing
                                      (board_of_parole_hearings r))) <= 1).
  { apply list_max_le. apply List.Forall_forall.
    intros n Hn. rewrite map_map in Hn. apply in_map_iff in Hn.
    destruct Hn as (h & <- & _). apply depth_hearing. }
  lia.
Qed.

Lemma room_for_results : 4 <= nesting_room.
Proof. unfold nesting_room. lia. Qed.

Lemma opt_of_py_of_opt (o : option string) : opt_of_py (py_of_opt o) = Some o.
Proof. destruct o; reflexivity. Qed.

Lemma mapM_map_inverse {A B : Type} (f : A -> B) (g : B -> option A)
    (l : list A) :
  (forall x, g (f x) = Some x) -> mapM g (map f l) = Some l.
Proof.
  intros H. apply mapM_Some. induction l as [|x l IH]; constructor; auto.
Qed.

Lemma hearing_of_py_of_hearing (h : hearing) :
  hearing_of_py (py_of_hearing h) = Some h.
Proof.
  destruct h as [d | s]; [| reflexivity].
  cbn [py_of_hearing hearing_of_py].
  rewrite mapM_map_inverse; [reflexivity |].
  intros [k v]. cbn [fst snd]. now rewrite opt_of_py_of_opt.
Qed.

Lemma inmate_of_py_of_inmate (r : inmate) :
  inmate_of_py (py_of_inmate r) = Some r.
Proof.
  destruct r. unfold py_of_inmate, inmate_of_py.
  cbn -[mapM]. rewrite !opt_of_py_of_opt. cbn -[mapM].
  rewrite mapM_map_inverse by apply hearing_of_py_of_hearing.
  reflexivity.
Qed.

(** Reading back the Python value of a record list gives the list. *)
Lemma results_of_py_of_results (results : list inmate) :
  results_of_py (py_of_results results) = Some results.
Proof.
  unfold py_of_results, results_of_py.
  apply mapM_map_inverse, inmate_of_py_of_inmate.
Qed.

(** ** The collector, step by step *)

Lemma search_loop_run (cdcr_numbers : list string) :
  forall total i acc st,
    search_loop total i cdcr_numbers acc st
    = (Return (acc ++ map search_cdcr_number cdcr_numbers),
       mk_state (self st)
         (mk_world (files (os st))
            (stdout (os st) ++ progress total i cdcr_numbers)
            (slept (os st) + pauses total i cdcr_numbers)
            (clock (os st)))).
Proof.
  induction cdcr_numbers as [|c rest IH]; intros total i acc st.
  - cbn [search_loop map progress pauses]. unfold ret.
    rewrite !app_nil_r, Nat.add_0_r. now destruct st as [s []].
  - cbn [search_loop map progress pauses]. rewrite !bind_print.
    destruct (i <? total).
    + unfold bind at 1. cbn [sleep]. rewrite IH. cbn.
      rewrite <- !List.app_assoc. cbn [app].
      do 3 f_equal. lia.
    + rewrite bind_ret, IH. cbn.
      rewrite <- !List.app_assoc. cbn [app]. reflexivity.
Qed.

Lemma pauses_min (cdcr_numbers : list string) :
  forall total i,
    pauses total i cdcr_numbers = Nat.min (length cdcr_numbers) (total - i).
Proof.
  induction cdcr_numbers as [|c rest IH]; intros total i; [reflexivity |].
  cbn [pauses length]. rewrite IH.
  destruct (Nat.ltb_spec i total); lia.
Qed.

Lemma length_progress (cdcr_numbers : list string) :
  forall total i,
    length (progress total i cdcr_numbers) = 2 * length cdcr_numbers.
Proof.
  induction cdcr_numbers as [|c rest IH]; intros total i; [reflexivity |].
  cbn [progress length]. rewrite IH. lia.
Qed.


(** The whole run of the collector: what it returns and the state it
    leaves. *)
Lemma search_multiple_run (cdcr_numbers : list string) (st : state) :
  search_multiple_cdcr_numbers cdcr_numbers st
  = (Return (map search_cdcr_number cdcr_numbers),
     mk_state
       (mk_scraper (map search_cdcr_number cdcr_numbers) (timestamp (self st)))
       (mk_world (files (os st))
          (stdout (os st) ++ progress (length cdcr_numbers) 1 cdcr_numbers)
          (slept (os st) + (length cdcr_numbers - 1))
          (clock (os st)))).
Proof.
  unfold search_multiple_cdcr_numbers. unfold bind at 1.
  rewrite search_loop_run, pauses_min.
  replace (Nat.min (length cdcr_numbers) (length cdcr_numbers - 1))
    with (length cdcr_numbers - 1) by lia.
  reflexivity.
Qed.

(** ** Files and output *)

Lemma touches_only_put f c st : touches_only f st (put_file f c st).
Proof.
  repeat split. intros g Hg. unfold file_content, put_file. cbn.
  now apply lookup_insert_ne.
Qed.

Lemma touches_only_printed f line st st' :
  touches_only f st st' -> touches_only f st (printed line st').
Proof. intros H. exact H. Qed.

Lemma file_content_put_ne f g c st :
  g <> f -> file_content (put_file f c st) g = file_content st g.
Proof.
  intros H. unfold file_content, put_file. cbn. now apply lookup_insert_ne.
Qed.

Lemma more_output_nil st : more_output [] st = st.
Proof. unfold more_output. rewrite app_nil_r. now destruct st as [s []]. Qed.

Lemma more_output_app l1 l2 st :
  more_output l2 (more_output l1 st) = more_output (l1 ++ l2) st.
Proof. unfold more_output. cbn. now rewrite List.app_assoc. Qed.

Lemma printed_more_output line st : printed line st = more_output [line] st.
Proof. reflexivity. Qed.

Lemma self_printed line st : self (printed line st) = self st.
Proof. reflexivity. Qed.

Lemma self_put_file f c st : self (put_file f c st) = self st.
Proof. reflexivity. Qed.

Lemma self_more_output lines st : self (more_output lines st) = self st.
Proof. reflexivity. Qed.

Lemma slept_printed line st : slept (os (printed line st)) = slept (os st).
Proof. reflexivity. Qed.

Lemma slept_put_file f c st : slept (os (put_file f c st)) = slept (os st).
Proof. reflexivity. Qed.

Lemma slept_more_output lines st :
  slept (os (more_output lines st)) = slept (os st).
Proof. reflexivity. Qed.

Lemma stdout_printed line st :
  stdout (os (printed line st)) = stdout (os st) ++ [line].
Proof. reflexivity. Qed.

Lemma stdout_put_file f c st : stdout (os (put_file f c st)) = stdout (os st).
Proof. reflexivity. Qed.

Lemma stdout_more_output lines st :
  stdout (os (more_output lines st)) = stdout (os st) ++ lines.
Proof. reflexivity. Qed.

Lemma file_content_more_output lines st g :
  file_content (more_output lines st) g = file_content st g.
Proof. reflexivity. Qed.

Lemma append_inj_l (a b c : string) : a +:+ b = a +:+ c -> b = c.
Proof.
  induction a as [|x a IH]; [trivial |].
  intros H. apply IH. now injection H.
Qed.

(** The three names made from one timestamp are three different names. *)
Lemma stamped_names_differ (stamp : string) :
  let f1 := "cdcr_inmates_" +:+ stamp +:+ ".csv" in
  let f2 := "cdcr_inmates_" +:+ stamp +:+ ".json" in
  let f3 := "cdcr_parole_hearings_" +:+ stamp +:+ ".csv" in
  f1 <> f2 /\ f1 <> f3 /\ f2 <> f3.
Proof.
  cbv zeta. repeat split; intros H.
  - apply append_inj_l, append_inj_l in H. discriminate H.
  - discriminate H.
  - discriminate H.
Qed.

(** The files after the hearings export, whether it returned or raised. *)
Lemma hearings_export_files (repr : pyval -> string) given filename st g :
  let rs := or_else given (results (self st)) in
  let f := or_else filename
             ("cdcr_parole_hearings_" +:+ timestamp (self st) +:+ ".csv") in
  file_content
    (snd (export_parole_hearings_to_csv repr given filename st)) g
  = file_content (put_file f (hearings_text repr rs) st) g.
Proof.
  cbv zeta.
  pose proof (export_parole_hearings_to_csv_run repr given filename st) as H.
  cbv zeta in H. rewrite H. clear H. unfold hearings_text, hearings_run.
  match goal with
  | |- context [snd (written_by ?G ?l)] =>
      destruct (snd (written_by G l)) as [[]|e]
  end; reflexivity.
Qed.

(** ** The summary, step by step *)

Lemma py_str_opt repr (o : option string) :
  py_str repr (py_of_opt o) = or_else o "None".
Proof. destruct o; reflexivity. Qed.

Lemma summary_loop_run repr (rs : list inmate) :
  forall i st,
    summary_loop repr i rs st
    = (Return tt, more_output (summary_blocks i rs) st).
Proof.
  induction rs as [|r rest IH]; intros i st.
  - cbn [summary_loop summary_blocks]. now rewrite more_output_nil.
  - cbn [summary_loop summary_blocks]. rewrite !bind_print, IH.
    rewrite !printed_more_output, !more_output_app, !py_str_opt.
    reflexivity.
Qed.

Lemma print_summary_run repr given st :
  print_summary repr given st
  = (Return tt,
     more_output
       ([LF +:+ str_mul "=" 80; "CDCR INMATE SEARCH RESULTS SUMMARY";
         str_mul "=" 80]
        ++ summary_blocks 1 (or_else given (results (self st)))
        ++ [LF +:+ str_mul "=" 80]) st).
Proof.
  unfold print_summary. rewrite bind_results_or_self, !bind_print.
  unfold bind at 1. rewrite summary_loop_run.
  change (print ?l ?s) with (Return tt, printed l s).
  rewrite !printed_more_output, !more_output_app. reflexivity.
Qed.

Lemma length_summary_blocks (rs : list inmate) :
  forall i, length (summary_blocks i rs) = 8 * length rs.
Proof.
  induction rs as [|r rest IH]; intros i; [reflexivity |].
  cbn [summary_blocks]. rewrite length_app, IH.
  cbn [length summary_block]. lia.
Qed.

Lemma summary_blocks_lookup (rs : list inmate) :
  forall i k r j,
    rs !! k = Some r -> j < 8 ->
    summary_blocks i rs !! (8 * k + j) = summary_block (i + k) r !! j.
Proof.
  induction rs as [|r0 rest IH]; intros i k r j H Hj; [discriminate |].
  cbn [summary_blocks]. destruct k as [|k].
  - injection H as ->. rewrite Nat.add_0_r.
    rewrite lookup_app_l by (cbn; lia). reflexivity.
  - cbn [lookup list_lookup] in H.
    rewrite lookup_app_r by (cbn; lia).
    replace (8 * S k + j - length (summary_block i r0)) with (8 * k + j)
      by (cbn [length summary_block]; lia).
    replace (i + S k) with (S i + k) by lia.
    now apply IH.
Qed.

(** ** Loops whose turns agree *)

Lemma written_by_turn_total {A : Type} (g : A -> outcome string)
    (h : A -> string) (l : list A) :
  Forall (fun x => g x = Return (h x)) l ->
  written_by (turn g) l = (cat (map h l), Return tt).
Proof.
  induction 1 as [|x r Hx _ IH]; [reflexivity |].
  cbn [written_by map]. rewrite IH. unfold turn. rewrite Hx. reflexivity.
Qed.

Lemma written_by_ext {A B : Type} (G : A -> string * outcome unit)
    (G' : B -> string * outcome unit) (l : list A) (l' : list B) :
  Forall2 (fun x y => G x = G' y) l l' -> written_by G l = written_by G' l'.
Proof.
  induction 1 as [|x y l l' Hxy _ IH]; [reflexivity |].
  cbn [written_by]. now rewrite Hxy, IH.
Qed.

Lemma length_hearing_pairs (rs : list inmate) :
  length (hearing_pairs rs)
  = list_sum (map (fun r => length (board_of_parole_hearings r)) rs).
Proof.
  induction rs as [|r rs IH]; [reflexivity |].
  unfold hearing_pairs in *. cbn [flat_map map list_sum fold_right].
  rewrite length_app, length_map, IH. reflexivity.
Qed.

Lemma all_dict_pairs (rs : list inmate) :
  Forall (fun r => Forall is_dict (board_of_parole_hearings r)) rs ->
  Forall (fun p => is_dict (snd p)) (hearing_pairs rs).
Proof.
  intros H. apply List.Forall_forall. intros [r h] Hin.
  unfold hearing_pairs in Hin. apply in_flat_map in Hin.
  destruct Hin as (r' & Hr' & Hin). apply in_map_iff in Hin.
  destruct Hin as (h' & E & Hh'). injection E as -> ->.
  rewrite List.Forall_forall in H. specialize (H r Hr').
  rewrite List.Forall_forall in H. exact (H h Hh').
Qed.

(** ** Hearings written as text and read back *)

Lemma plain_hearing_dict (d : list (string * option string)) :
  NoDup (map fst d) -> plain (py_of_hearing (HearingDict d)).
Proof.
  intros H. cbn [py_of_hearing]. constructor.
  - now rewrite map_map.
  - apply List.Forall_forall. intros kv Hkv.
    apply in_map_iff in Hkv. destruct Hkv as (x & <- & _). apply plain_opt.
Qed.

Lemma hearing_line_as_json_text repr (r r' : inmate) (h : hearing) :
  cdcr_number r' = cdcr_number r -> name r' = name r ->
  match h with
  | HearingDict d => NoDup (map fst d)
  | HearingStr _ => True
  end ->
  hearing_line repr (r', as_json_text repr h) = hearing_line repr (r, h).
Proof.
  intros Hn Hm Hd. unfold hearing_line, hearing_cells. cbn [fst snd].
  rewrite Hn, Hm. destruct h as [d|s]; [| reflexivity].
  cbn [as_json_text decode_hearing].
  rewrite json_loads_encoded;
    [reflexivity | now apply plain_hearing_dict |].
  pose proof (depth_hearing (HearingDict d)). pose proof room_for_results.
  lia.
Qed.

(** ** Fields read back from a row *)

Lemma join_append_data_spec (s : string) :
  join_append_data s = (has_special s, double_quotes s).
Proof.
  induction s as [|c r IH]; [reflexivity |].
  cbn [join_append_data has_special double_quotes]. rewrite IH.
  unfold special, delimiter, quotechar, lineterminator, CRLF.
  cbn [string_mem].
  destruct (c =? ",")%char, (c =? quote_char)%char eqn:Eq,
    (c =? "013")%char, (c =? "010")%char; cbn [orb];
    try reflexivity;
    apply Ascii.eqb_eq in Eq; now subst.
Qed.

Lemma double_quotes_plain (s : string) :
  has_special s = false -> double_quotes s = s.
Proof.
  induction s as [|c r IH]; [reflexivity |].
  cbn [has_special double_quotes]. intros H.
  apply orb_false_iff in H. destruct H as [Hc Hr].
  rewrite (IH Hr). unfold special in Hc.
  destruct (c =? quote_char)%char; [| reflexivity].
  now rewrite orb_true_r in Hc.
Qed.

(** A field without a delimiter, a quote or a line end is written as it
    is. *)
Lemma join_append_plain (s : string) :
  has_special s = false -> join_append s = s.
Proof.
  intros H. unfold join_append. rewrite join_append_data_spec, H.
  now apply double_quotes_plain.
Qed.

Lemma read_quoted_spec (s t : string) :
  field_end t = true ->
  read_quoted (double_quotes s +:+ String quote_char t) = (s, t).
Proof.
  intros Ht. induction s as [|c r IH].
  - rewrite append_nil_l. cbn [double_quotes read_quoted].
    rewrite Ascii.eqb_refl. destruct t as [|c' r']; [reflexivity |].
    cbn [field_end] in Ht. apply andb_true_iff in Ht.
    destruct Ht as [_ Hq]. apply negb_true_iff in Hq. now rewrite Hq.
  - cbn [double_quotes].
    destruct (c =? quote_char)%char eqn:E.
    + rewrite !append_cons. cbn [read_quoted]. rewrite E, IH.
      apply Ascii.eqb_eq in E. now subst.
    + rewrite append_cons. cbn [read_quoted]. now rewrite E, IH.
Qed.

Lemma read_plain_spec (s t : string) :
  has_special s = false -> field_end t = true ->
  read_plain (s +:+ t) = (s, t).
Proof.
  intros Hs Ht. induction s as [|c r IH].
  - rewrite append_nil_l. destruct t as [|c' r']; [reflexivity |].
    cbn [field_end] in Ht. apply andb_true_iff in Ht.
    destruct Ht as [Hc _]. cbn [read_plain]. now rewrite Hc.
  - cbn [has_special] in Hs. apply orb_false_iff in Hs.
    destruct Hs as [Hc Hr].
    rewrite append_cons. cbn [read_plain]. now rewrite Hc, (IH Hr).
Qed.

(** A field the writer wrote is read back, with what follows it. *)
Lemma read_field_spec (s t : string) :
  field_end t = true -> read_field (join_append s +:+ t) = (s, t).
Proof.
  intros Ht. unfold join_append. rewrite join_append_data_spec.
  destruct (has_special s) eqn:Hs.
  - unfold quotechar. rewrite append_cons. cbn [read_field].
    rewrite Ascii.eqb_refl, append_assoc, append_cons, append_nil_l.
    now apply read_quoted_spec.
  - rewrite (double_quotes_plain s Hs).
    destruct s as [|c r].
    + rewrite append_nil_l. destruct t as [|c' r']; [reflexivity |].
      cbn [field_end] in Ht. apply andb_true_iff in Ht.
      destruct Ht as [Hc Hq]. apply negb_true_iff in Hq.
      cbn [read_field read_plain]. now rewrite Hq, Hc.
    + assert (Hq : (c =? quote_char)%char = false).
      { cbn [has_special] in Hs. apply orb_false_iff in Hs.
        destruct Hs as [Hc _]. unfold special in Hc.
        destruct (c =? quote_char)%char; [| reflexivity].
        now rewrite orb_true_r in Hc. }
      rewrite append_cons. unfold read_field. rewrite Hq.
      rewrite <- append_cons. now apply read_plain_spec.
Qed.

(** The text of a row determines its cells. *)
Lemma cells_inj (l1 : list string) :
  forall l2 t1 t2,
    length l1 = length l2 ->
    field_end t1 = true -> field_end t2 = true ->
    String.concat comma (map join_append l1) +:+ t1
      = String.concat comma (map join_append l2) +:+ t2 ->
    l1 = l2 /\ t1 = t2.
Proof.
  induction l1 as [|a l1 IH]; intros [|b l2] t1 t2 Hlen H1 H2 H;
    try discriminate Hlen.
  - split; [reflexivity | exact H].
  - injection Hlen as Hlen.
    destruct l1 as [|a' l1], l2 as [|b' l2]; try discriminate Hlen.
    + cbn [map String.concat] in H.
      apply (f_equal read_field) in H.
      rewrite !read_field_spec in H by assumption.
      now injection H as -> ->.
    + cbn [map] in H. rewrite !concat_cons2, !append_assoc in H.
      unfold comma in H at 1 3. rewrite !append_cons, !append_nil_l in H.
      pose proof (f_equal read_field H) as Hf.
      rewrite !read_field_spec in Hf by reflexivity.
      injection Hf as -> Hf.
      destruct (IH (b' :: l2) t1 t2 Hlen H1 H2 Hf) as [-> ->]. auto.
Qed.

Lemma csv_cell_or_else repr (o : option string) :
  csv_cell repr (py_of_opt o) = join_append (or_else o EmptyString).
Proof. destruct o; reflexivity. Qed.

Lemma flat_line_strings repr (r : inmate) :
  csv_line repr (flat_cells r)
    = String.concat comma (map join_append (flat_strings r)) +:+ CRLF.
Proof.
  unfold flat_cells, flat_strings, flat_view. cbn [fst snd app].
  rewrite csv_line_cells. cbn [map]. now rewrite !csv_cell_or_else.
Qed.

Lemma digits_plain (d : Decimal.uint) :
  has_special (NilEmpty.string_of_uint d) = false.
Proof. induction d; cbn [NilEmpty.string_of_uint has_special]; auto. Qed.

Lemma str_int_plain (n : nat) : has_special (str_int (Z.of_nat n)) = false.
Proof.
  unfold str_int. destruct (Z.of_nat n) as [|p|p] eqn:E; [reflexivity | | lia].
  cbn [Z.to_int NilZero.string_of_int]. unfold NilZero.string_of_uint.
  destruct (Pos.to_uint p); try apply digits_plain. reflexivity.
Qed.

Lemma str_int_inj (z1 z2 : Z) : str_int z1 = str_int z2 -> z1 = z2.
Proof.
  unfold str_int. intros H.
  assert (Hn : forall z, Z.to_int z <> Decimal.Pos Decimal.Nil
                         /\ Z.to_int z <> Decimal.Neg Decimal.Nil).
  { intros [|p|p]; cbn [Z.to_int]; split; try discriminate;
      intros E; injection E as E;
      now apply DecimalPos.Unsigned.to_uint_nonnil in E. }
  apply (f_equal NilZero.int_of_string) in H.
  rewrite !NilZero.isi in H by apply Hn.
  injection H as H. apply (f_equal Z.of_int) in H.
  now rewrite !DecimalZ.of_to in H.
Qed.

Lemma flat_strings_view (r1 r2 : inmate) :
  flat_strings r1 = flat_strings r2 <-> flat_view r1 = flat_view r2.
Proof.
  unfold flat_strings, flat_view. cbn [fst snd app]. split; intros H.
  - injection H as H0 H1 H2 H3 H4 H5 H6 H7.
    apply str_int_inj, Nat2Z.inj in H7. congruence.
  - injection H as H0 H1 H2 H3 H4 H5 H6 H7. congruence.
Qed.

Lemma flat_rows_inj repr (rs1 : list inmate) :
  forall rs2,
    cat (map (fun r => csv_line repr (flat_cells r)) rs1)
      = cat (map (fun r => csv_line repr (flat_cells r)) rs2) ->
    map flat_strings rs1 = map flat_strings rs2.
Proof.
  induction rs1 as [|r1 rs1 IH]; intros [|r2 rs2] H.
  - reflexivity.
  - exfalso. apply (f_equal String.length) in H.
    cbn [map cat fold_right] in H. rewrite flat_line_strings in H.
    rewrite !length_append in H. cbn in H. lia.
  - exfalso. apply (f_equal String.length) in H.
    cbn [map cat fold_right] in H. rewrite flat_line_strings in H.
    rewrite !length_append in H. cbn in H. lia.
  - cbn [map cat fold_right] in H.
    rewrite !flat_line_strings, !append_assoc in H.
    apply cells_inj in H; try reflexivity.
    destruct H as [E H]. apply append_inj_l in H.
    cbn [map]. rewrite E. f_equal. now apply IH.
Qed.

Lemma map_agree {A B C : Type} (f : A -> B) (g : A -> C) :
  (forall a b, f a = f b -> g a = g b) ->
  forall l1 l2, map f l1 = map f l2 -> map g l1 = map g l2.
Proof.
  intros Hfg. induction l1 as [|a l1 IH]; intros [|b l2] H;
    try discriminate H; [reflexivity |].
  cbn [map] in *.
  pose proof (f_equal (hd (f a)) H) as H1.
  pose proof (f_equal (@tl B) H) as H2. cbn [hd tl] in H1, H2.
  now rewrite (Hfg a b H1), (IH l2 H2).
Qed.

Lemma map_join_append_plain (l : list string) :
  Forall (fun s => has_special s = false) l -> map join_append l = l.
Proof.
  induction 1 as [|s l Hs _ IH]; [reflexivity |].
  cbn [map]. now rewrite IH, (join_append_plain s Hs).
Qed.

(** ** Records that hold an identifier only *)

Lemma placeholder_line repr (id : string) :
  csv_line repr (flat_cells (search_cdcr_number id))
  = join_append id +:+ ",,,,,,,0" +:+ CRLF.
Proof.
  unfold flat_cells, search_cdcr_number. rewrite csv_line_cells.
  cbn [map cdcr_number name age admission_date current_location
       commitment_county parole_eligible_date board_of_parole_hearings
       py_of_opt length Z.of_nat].
  rewrite concat_cons2, append_assoc. reflexivity.
Qed.

Lemma placeholder_pairs (ids : list string) :
  hearing_pairs (map search_cdcr_number ids) = [].
Proof. induction ids as [|id ids IH]; [reflexivity | exact IH]. Qed.

(** ** Lines of output *)

Lemma line_feeds_append (a b : string) :
  line_feeds (a +:+ b) = line_feeds a + line_feeds b.
Proof.
  induction a as [|c a IH]; [reflexivity |].
  rewrite append_cons. cbn [line_feeds]. rewrite IH. lia.
Qed.

Lemma line_feeds_plain (s : string) :
  has_special s = false -> line_feeds s = 0.
Proof.
  induction s as [|c s IH]; [reflexivity |].
  cbn [has_special line_feeds]. intros H.
  apply orb_false_iff in H. destruct H as [Hc Hs]. rewrite (IH Hs).
  unfold special in Hc. apply orb_false_iff in Hc.
  destruct Hc as [_ Hc]. now rewrite Hc.
Qed.

Lemma output_lines_app (l1 l2 : list string) :
  output_lines (l1 ++ l2) = output_lines l1 + output_lines l2.
Proof. unfold output_lines. now rewrite map_app, list_sum_app. Qed.

Lemma output_lines_cons (x : string) (l : list string) :
  output_lines (x :: l) = S (line_feeds x) + output_lines l.
Proof. reflexivity. Qed.

Lemma output_lines_summary_block (i : nat) (r : inmate) :
  output_lines (summary_block i r) = 9 + shown_line_feeds r.
Proof.
  unfold output_lines, summary_block, shown_line_feeds.
  cbn [map list_sum]. rewrite !line_feeds_append.
  rewrite !(line_feeds_plain (str_int (Z.of_nat _))) by apply str_int_plain.
  cbn. lia.
Qed.

Lemma output_lines_summary_blocks (rs : list inmate) :
  forall i,
    output_lines (summary_blocks i rs)
    = 9 * length rs + list_sum (map shown_line_feeds rs).
Proof.
  induction rs as [|r rest IH]; intros i; [reflexivity |].
  cbn [summary_blocks map length].
  change (list_sum (shown_line_feeds r :: map shown_line_feeds rest))
    with (shown_line_feeds r + list_sum (map shown_line_feeds rest)).
  rewrite output_lines_app, output_lines_summary_block, IH. lia.
Qed.

(** ** The document read back *)

Lemma json_loads_results repr (results : list inmate) :
  distinct_keys results ->
  json_loads (_iterencode repr (py_of_results results) 0)
  = Return (py_of_results results).
Proof.
  intros H. apply json_loads_encoded; [now apply plain_results |].
  pose proof (depth_results results). pose proof room_for_results. lia.
Qed.

(** ** The rows of the hearings table *)

Lemma hearing_cells_text repr (p : inmate * hearing) (row : list pyval) :
  hearing_cells p = Return row -> csv_line repr row = row_text repr row.
Proof.
  unfold hearing_cells.
  destruct (decode_hearing (snd p)) as [v|e]; [| discriminate].
  destruct v; try discriminate.
  intros H. injection H as <-. apply csv_line_cells.
Qed.

Lemma hearing_rows_text repr (ps : list (inmate * hearing))
    (rows : list (list pyval)) :
  Forall2 (fun p row => hearing_cells p = Return row
                        /\ forallb encodable row = true) ps rows ->
  map (csv_line repr) rows = map (row_text repr) rows.
Proof.
  induction 1 as [|p row ps rows [Hp _] _ IH]; [reflexivity |].
  cbn [map]. now rewrite IH, (hearing_cells_text repr p row Hp).
Qed.

Lemma in_hearing_pairs (rs : list inmate) (p : inmate * hearing) :
  In p (hearing_pairs rs) <->
  In (fst p) rs /\ In (snd p) (board_of_parole_hearings (fst p)).
Proof.
  unfold hearing_pairs. rewrite in_flat_map. split.
  - intros (r & Hr & Hp). apply in_map_iff in Hp.
    destruct Hp as (h & <- & Hh). auto.
  - intros [Hr Hh]. exists (fst p). split; [exact Hr |].
    apply in_map_iff. exists (snd p). split; [now destruct p | exact Hh].
Qed.

(** The two ways the hearings export ends, with the state it leaves. *)
Lemma hearings_export_ends repr rs f st :
  let run := export_parole_hearings_to_csv repr (Some rs) (Some f) st in
  let made := fun (p : inmate * hearing) (row : list pyval) =>
    hearing_cells p = Return row /\ forallb encodable row = true in
  (exists rows,
      Forall2 made (hearing_pairs rs) rows
      /\ run = (Return f,
                printed ("✓ Parole Hearings CSV exported to: " +:+ f)
                  (put_file f
                     (hearings_header +:+ CRLF
                      +:+ cat (map (row_text repr) rows)) st)))
  \/ (exists e pre p post rows,
        hearing_pairs rs = pre ++ p :: post
        /\ Forall2 made pre rows
        /\ hearing_line repr p = Raise e
        /\ run = (Raise e,
                  put_file f
                    (hearings_header +:+ CRLF
                     +:+ cat (map (row_text repr) rows)) st)).
Proof.
  intros run made. subst run made.
  rewrite export_parole_hearings_to_csv_run. cbv zeta. cbn [or_else].
  rewrite hearings_header_line, append_assoc.
  destruct (written_by_cases (hearing_line repr) (hearing_pairs rs))
    as [(lines & Hall & Hw) | (pre & p & post & lines & e & Hl & Hall & Hp & Hw)];
    rewrite Hw; cbn [fst snd];
    destruct (hearing_line_rows repr _ _ Hall) as (rows & Hrows & ->);
    rewrite (hearing_rows_text repr _ _ Hrows).
  - left. exists rows. auto.
  - right. exists e, pre, p, post, rows. auto.
Qed.

(** ** The collector with the call left open *)

Lemma search_loop_calling_method (cdcr_numbers : list string) :
  forall total i acc st,
    search_loop_calling (fun id => ret (search_cdcr_number id))
      total i cdcr_numbers acc st
    = search_loop total i cdcr_numbers acc st.
Proof.
  induction cdcr_numbers as [|c rest IH]; intros total i acc st;
    [reflexivity |].
  cbn [search_loop_calling search_loop].
  rewrite !bind_print, bind_ret, !bind_print.
  unfold bind.
  destruct ((if i <? total then sleep 1 else ret tt) _) as [[[]|e] st'];
    [apply IH | reflexivity].
Qed.

Lemma search_multiple_calling_method (cdcr_numbers : list string) st :
  search_multiple_calling (fun id => ret (search_cdcr_number id))
    cdcr_numbers st
  = search_multiple_cdcr_numbers cdcr_numbers st.
Proof.
  unfold search_multiple_calling, search_multiple_cdcr_numbers.
  unfold bind at 1 3. now rewrite search_loop_calling_method.
Qed.

(** A lookup that raises for [id] after it has given a record for each
    identifier of [pre]: the loop ends there with that exception, having
    announced [id] and nothing after it. *)
Lemma search_loop_calling_raises (lookup : string -> outcome inmate)
    (e : exn) (id : string) (post : list string) :
  lookup id = Raise e ->
  forall pre total i acc st,
    Forall (fun x => exists r, lookup x = Return r) pre ->
    search_loop_calling (fun x => lift (lookup x)) total i
      (pre ++ id :: post) acc st
    = (Raise e,
       mk_state (self st)
         (mk_world (files (os st))
            (stdout (os st) ++ progress total i pre
             ++ [announcement total (i + length pre) id])
            (slept (os st) + pauses total i pre)
            (clock (os st)))).
Proof.
  intros Hid pre. induction pre as [|c pre IH]; intros total i acc st Hpre.
  - cbn [app search_loop_calling progress pauses length].
    rewrite bind_print. unfold bind at 1, lift at 1. rewrite Hid.
    rewrite !Nat.add_0_r. reflexivity.
  - apply Forall_cons_iff in Hpre. destruct Hpre as [[r Hc] Hpre].
    rewrite <- app_comm_cons.
    cbn [search_loop_calling progress pauses length].
    rewrite bind_print. unfold bind at 1, lift at 1. rewrite Hc.
    rewrite bind_print.
    destruct (i <? total).
    + unfold bind at 1. cbn [sleep]. rewrite (IH total (S i) _ _ Hpre).
      cbn. rewrite <- !List.app_assoc. cbn [app].
      replace (i + S (length pre)) with (S (i + length pre)) by lia.
      do 3 f_equal. lia.
    + rewrite bind_ret, (IH total (S i) _ _ Hpre). cbn.
      rewrite <- !List.app_assoc. cbn [app].
      replace (i + S (length pre)) with (S (i + length pre)) by lia.
      reflexivity.
Qed.

(** * The claims *)

(** C1: for every non-empty list of identifiers, [search_multiple_cdcr_numbers]
    returns a list of the same length, and the record at each position carries
    the identifier at that position of the input. *)
Theorem C1_collector_length_and_order
    (cdcr_numbers : list string) (st : state) :
  cdcr_numbers <> [] ->
  exists rs,
    fst (search_multiple_cdcr_numbers cdcr_numbers st) = Return rs
    /\ length rs = length cdcr_numbers
    /\ forall i, cdcr_number <$> (rs !! i) = cdcr_numbers !! i.
Proof.
  intros _. exists (map search_cdcr_number cdcr_numbers).
  destruct (search_multiple_spec cdcr_numbers st) as [H _].
  split; [exact H |]. split; [apply length_map |].
  intros i. rewrite list_lookup_fmap.
  destruct (cdcr_numbers !! i); reflexivity.
Qed.

Lemma C1_witness :
  exists rs,
    fst (search_multiple_cdcr_numbers ["D54803"; "T97214"] fresh) = Return rs
    /\ length rs = 2
    /\ forall i, cdcr_number <$> (rs !! i) = ["D54803"; "T97214"] !! i.
Proof.
  apply (C1_collector_length_and_order ["D54803"; "T97214"] fresh).
  discriminate.
Defined.

(** C2: a record whose [board_of_parole_hearings] is empty adds no row to the
    hearings CSV: the export with the record in the list ends as, and leaves
    the state of, the export without it.  In the flat CSV the row of the
    record, which stands after the rows of the records before it, ends in
    the cell [0], the column [num_parole_hearings]. *)
Theorem C2_record_without_hearings (repr : pyval -> string)
    (pre post : list inmate) (r : inmate) (filename : string) (st : state) :
  board_of_parole_hearings r = [] ->
  export_parole_hearings_to_csv repr (Some (pre ++ r :: post))
      (Some filename) st
    = export_parole_hearings_to_csv repr (Some (pre ++ post))
        (Some filename) st
  /\ file_content
       (snd (export_to_csv repr (Some (pre ++ r :: post)) (Some filename) st))
       filename
     = Some (flat_text repr pre
             +:+ (String.concat comma
                    (map (csv_cell repr) (firstn 7 (flat_cells r)))
                  +:+ ",0" +:+ CRLF)
             +:+ cat (map (fun r => csv_line repr (flat_cells r)) post))
  /\ nth 7 flat_fieldnames EmptyString = "num_parole_hearings".
Proof.
  intros Hr. split; [| split; [| reflexivity]].
  - rewrite !export_parole_hearings_to_csv_run. cbn [or_else].
    replace (hearing_pairs (pre ++ r :: post))
      with (hearing_pairs (pre ++ post)); [reflexivity |].
    rewrite !hearing_pairs_app. f_equal.
    unfold hearing_pairs. cbn [flat_map]. now rewrite Hr.
  - destruct (export_to_csv_file repr (pre ++ r :: post) filename st)
      as [_ ->].
    rewrite flat_text_app. cbn [map cat fold_right].
    fold (cat (map (fun r => csv_line repr (flat_cells r)) post)).
    unfold flat_cells at 1 3. rewrite Hr, csv_line_cells.
    cbn [firstn map String.concat length Z.of_nat].
    rewrite !append_assoc. reflexivity.
Qed.

Lemma C2_witness :
  export_parole_hearings_to_csv no_repr
      (Some ([placeholder "D54803"] ++ placeholder "T97214" :: []))
      (Some "hearings.csv") fresh
    = export_parole_hearings_to_csv no_repr
        (Some ([placeholder "D54803"] ++ [])) (Some "hearings.csv") fresh
  /\ file_content
       (snd (export_to_csv no_repr
               (Some ([placeholder "D54803"] ++ placeholder "T97214" :: []))
               (Some "hearings.csv") fresh))
       "hearings.csv"
     = Some (flat_text no_repr [placeholder "D54803"]
             +:+ (String.concat comma
                    (map (csv_cell no_repr)
                       (firstn 7 (flat_cells (placeholder "T97214"))))
                  +:+ ",0" +:+ CRLF)
             +:+ cat (map (fun r => csv_line no_repr (flat_cells r)) []))
  /\ nth 7 flat_fieldnames EmptyString = "num_parole_hearings".
Proof.
  apply (C2_record_without_hearings no_repr [placeholder "D54803"] []
           (placeholder "T97214") "hearings.csv" fresh).
  reflexivity.
Defined.

(** C3: the document written by [export_to_json] for a record list, read
    with [json.loads], is the list of dicts the export was given: the same
    records in the same order, each with the same value under every key and
    the same hearings in the same order; the record list read back from
    that value is the list given.  The dicts of the hearings have distinct
    keys, as Python dicts do. *)
Theorem C3_json_round_trip (repr : pyval -> string)
    (results : list inmate) (filename : string) (st : state) :
  distinct_keys results ->
  exists text parsed,
    file_content
      (snd (export_to_json repr (Some results) (Some filename) st)) filename
    = Some text
    /\ json_loads text = Return parsed
    /\ parsed = py_of_results results
    /\ results_of_py parsed = Some results.
Proof.
  intros Hwf.
  exists (_iterencode repr (py_of_results results) 0), (py_of_results results).
  destruct (export_to_json_file repr results filename st) as [_ ->].
  split; [reflexivity |]. split; [| split; [reflexivity |]].
  - apply json_loads_encoded; [now apply plain_results |].
    pose proof (depth_results results). pose proof room_for_results. lia.
  - apply results_of_py_of_results.
Qed.

Lemma C3_witness :
  exists text parsed,
    file_content
      (snd (export_to_json no_repr (Some sample_results)
              (Some "inmates.json") fresh)) "inmates.json"
    = Some text
    /\ json_loads text = Return parsed
    /\ parsed = py_of_results sample_results
    /\ results_of_py parsed = Some sample_results.
Proof.
  apply (C3_json_round_trip no_repr sample_results "inmates.json" fresh).
  unfold distinct_keys, sample_results.
  repeat (apply List.Forall_cons || apply List.Forall_nil);
    try exact I.
  refine (bool_decide_unpack _ _). vm_compute. exact I.
Defined.

(** C4: an optional field that is [None] is a cell with nothing in it in
    the flat CSV and in the hearings CSV, and the member [null] under its
    key in the JSON document; it is never the text [None], and the cell or
    the member is always there.  The flat CSV is the header line and one
    row of eight cells per record.  The hearings CSV is the header line and
    the rows of the (record, hearing) pairs in order, all of them or, when
    the row of a pair cannot be written, those of the pairs before the
    first such pair; the row of a hearing dict has six cells, empty where
    the record has no name and where the dict has [None] under the key (or
    no such key); in the row of a hearing decoded from a string a [null] is
    an empty cell too.  The JSON document is the array of the records'
    objects; the object of a record has its eight members, and the object
    of a hearing dict one member per key, [null] for [None]. *)
Theorem C4_absent_fields (repr : pyval -> string)
    (results : list inmate) (filename : string) (st : state) :
  file_content
    (snd (export_to_csv repr (Some results) (Some filename) st)) filename
  = Some (flat_header +:+ CRLF
          +:+ cat (map (fun r =>
                     csv_row [ Some (cdcr_number r); name r; age r;
                               admission_date r; current_location r;
                               commitment_county r; parole_eligible_date r;
                               Some (str_int
                                 (Z.of_nat
                                    (length (board_of_parole_hearings r)))) ])
                   results))
  /\ (exists pre post lines,
        hearing_pairs results = pre ++ post
        /\ Forall2 (fun p line => hearing_line repr p = Return line) pre lines
        /\ (post = []
            \/ exists p post' e,
                 post = p :: post' /\ hearing_line repr p = Raise e)
        /\ file_content
             (snd (export_parole_hearings_to_csv repr (Some results)
                     (Some filename) st)) filename
           = Some (hearings_header +:+ CRLF +:+ cat lines))
  /\ (forall r d,
        hearing_line repr (r, HearingDict d)
        = Return (csv_row [ Some (cdcr_number r); name r;
                            hearing_field d "date"; hearing_field d "action";
                            hearing_field d "status";
                            hearing_field d "outcome" ]))
  /\ (forall r s d,
        json_loads s = Return (PDict d) ->
        hearing_line repr (r, HearingStr s)
        = if forallb encodable (written_values d)
          then Return (String.concat comma
                         [ opt_cell (Some (cdcr_number r));
                           opt_cell (name r);
                           payload_cell repr d "date";
                           payload_cell repr d "action";
                           payload_cell repr d "status";
                           payload_cell repr d "outcome" ] +:+ CRLF)
          else Raise UnicodeEncodeError)
  /\ file_content
       (snd (export_to_json repr (Some results) (Some filename) st)) filename
     = Some (json_array 0
               (map (fun r => _iterencode repr (py_of_inmate r) 1) results))
  /\ (forall r level,
        _iterencode repr (py_of_inmate r) level
        = json_object level
            [ ("cdcr_number", py_encode_basestring (cdcr_number r));
              ("name", json_opt (name r));
              ("age", json_opt (age r));
              ("admission_date", json_opt (admission_date r));
              ("current_location", json_opt (current_location r));
              ("commitment_county", json_opt (commitment_county r));
              ("parole_eligible_date", json_opt (parole_eligible_date r));
              ("board_of_parole_hearings",
                json_array (S level)
                  (map (fun h =>
                          _iterencode repr (py_of_hearing h) (S (S level)))
                     (board_of_parole_hearings r))) ])
  /\ (forall d level,
        _iterencode repr (py_of_hearing (HearingDict d)) level
        = json_object level (map (fun kv => (fst kv, json_opt (snd kv))) d))
  /\ opt_cell None = EmptyString
  /\ (forall d key,
        dict_get d key = Some PNone \/ dict_get d key = None ->
        payload_cell repr d key = EmptyString)
  /\ json_opt None = "null".
Proof.
  repeat apply conj.
  - destruct (export_to_csv_file repr results filename st) as [_ ->].
    unfold flat_text. rewrite flat_header_line, append_assoc.
    do 3 f_equal. f_equal. apply map_ext. intros r. apply flat_line_row.
  - destruct (export_parole_hearings_to_csv_file repr results filename st)
      as [_ ->].
    unfold hearings_text, hearings_run.
    rewrite hearings_header_line, append_assoc.
    destruct (written_by_cases (hearing_line repr) (hearing_pairs results))
      as [(lines & Hall & ->)
         | (pre & p & post & lines & e & Hl & Hall & Hp & ->)].
    + exists (hearing_pairs results), [], lines.
      rewrite app_nil_r. auto.
    + exists pre, (p :: post), lines.
      split; [exact Hl |]. split; [exact Hall |]. split; [| reflexivity].
      right. exists p, post, e. auto.
  - intros r d. apply hearing_dict_line.
  - intros r s d. apply hearing_payload_line.
  - destruct (export_to_json_file repr results filename st) as [_ ->].
    unfold py_of_results. rewrite iterencode_list, map_map. reflexivity.
  - intros r level. unfold py_of_inmate.
    rewrite iterencode_dict. cbn [map fst snd].
    rewrite !iterencode_opt, iterencode_list, map_map. reflexivity.
  - intros d level. cbn [py_of_hearing].
    rewrite iterencode_dict, map_map. f_equal.
    apply map_ext. intros kv. cbn [fst snd]. now rewrite iterencode_opt.
  - reflexivity.
  - intros d key [H | H]; unfold payload_cell; now rewrite H.
  - reflexivity.
Qed.

(** The records of the worked example: the hearings CSV holds the header
    line and the rows of the two hearings of the first record, with empty
    cells for the fields that are absent; the second of these rows is that
    of the hearing given as text, whose [null] is an empty cell. *)
Lemma C4_witness :
  (exists pre post lines,
      hearing_pairs sample_results = pre ++ post
      /\ Forall2 (fun p line => hearing_line no_repr p = Return line)
           pre lines
      /\ (post = []
          \/ exists p post' e,
               post = p :: post' /\ hearing_line no_repr p = Raise e)
      /\ file_content
           (snd (export_parole_hearings_to_csv no_repr (Some sample_results)
                   (Some "out.csv") fresh)) "out.csv"
         = Some (hearings_header +:+ CRLF +:+ cat lines))
  /\ file_content
       (snd (export_parole_hearings_to_csv no_repr (Some sample_results)
               (Some "out.csv") fresh)) "out.csv"
     = Some (hearings_header +:+ CRLF
             +:+ "D54803," +:+ quoted "Doe, John" +:+ ",03/04/2020,,,"
             +:+ String "009" "denied\3 years" +:+ CRLF
             +:+ "D54803," +:+ quoted "Doe, John" +:+ ",,,," +:+ CRLF)
  /\ hearing_line no_repr
       (placeholder "T97214",
        HearingStr ("{" +:+ quoted "date" +:+ ": null}"))
     = Return ("T97214,,,,," +:+ CRLF).
Proof.
  destruct (C4_absent_fields no_repr sample_results "out.csv" fresh)
    as (_ & Hrows & Hdict & Htext & _).
  split; [exact Hrows |]. split.
  - destruct Hrows as (pre & post & lines & Hl & Hall & Hpost & ->).
    f_equal. f_equal. f_equal.
    destruct Hpost as [-> | (p & post' & e & -> & Hp)].
    + rewrite app_nil_r in Hl. subst pre.
      inversion Hall as [|p1 l1 ps1 ls1 H1 Hall1]; subst.
      inversion Hall1 as [|p2 l2 ps2 ls2 H2 Hall2]; subst.
      inversion Hall2; subst.
      vm_compute in H1. injection H1 as <-.
      vm_compute in H2. injection H2 as <-. reflexivity.
    + exfalso.
      assert (Hin : In p (hearing_pairs sample_results))
        by (rewrite Hl; apply in_elt).
      destruct Hin as [<- | [<- | []]]; vm_compute in Hp; discriminate Hp.
  - apply (Htext (placeholder "T97214")
             ("{" +:+ quoted "date" +:+ ": null}") [("date", PNone)]).
    reflexivity.
Defined.

(** C5, as stated, fails: for the record of the example the flat CSV holds
    the text [D54803,Doe, John,45,,,,0] nowhere, whatever the state and the
    file name. *)
Lemma C5_counterexample :
  ~ (exists repr st filename before after,
        file_content
          (snd (export_to_csv repr (Some [doe]) (Some filename) st)) filename
        = Some (before +:+ "D54803,Doe, John,45,,,,0" +:+ after)).
Proof.
  intros (repr & st & filename & before & after & H).
  destruct (export_to_csv_file repr [doe] filename st) as [_ E].
  rewrite E in H. injection H as H.
  pose proof (occurs_in_app before "D54803,Doe, John,45,,,,0" after) as Ho.
  rewrite <- H in Ho. vm_compute in Ho. discriminate Ho.
Qed.

(** C5, amended: for the record with identifier D54803, name [Doe, John],
    age 45, no other field and no hearings, the flat CSV is the header line
    and the one data row [D54803,"Doe, John",45,,,,,0]: the name is quoted
    since it holds the delimiter, and four empty cells stand between the age
    and the count.  The hearings CSV is its header line alone, and both
    exports return the file name. *)
Theorem C5_example_rows (repr : pyval -> string) (filename : string)
    (st : state) :
  export_to_csv repr (Some [doe]) (Some filename) st
    = (Return filename,
       printed (LF +:+ "✓ CSV exported to: " +:+ filename)
         (put_file filename
            (flat_header +:+ CRLF
             +:+ "D54803," +:+ quoted "Doe, John" +:+ ",45,,,,,0" +:+ CRLF)
            st))
  /\ export_parole_hearings_to_csv repr (Some [doe]) (Some filename) st
     = (Return filename,
        printed ("✓ Parole Hearings CSV exported to: " +:+ filename)
          (put_file filename (hearings_header +:+ CRLF) st)).
Proof.
  split.
  - rewrite export_to_csv_run. reflexivity.
  - rewrite export_parole_hearings_to_csv_run. reflexivity.
Qed.

(** C6: the flat and the JSON export return for every record list, with
    the header row and every row (the whole document) in the file.  The
    hearings export ends in one of two ways.  It returns the file name, with
    the header row and one whole row per (record, hearing) pair in the file:
    so it does whenever every hearing given as a string is the JSON text of a
    dict whose four written values can be encoded, whatever the keys of the
    dict and the types of its values, for the shape of the dict is not
    checked.  Or it raises at the first pair whose row cannot be made or
    written, and prints no success line; the file then holds the header row
    and the whole rows of the pairs before that one, and nothing after them.
    That pair has a hearing given as a string which [json.loads] refuses
    ([JSONDecodeError], [ValueError], [RecursionError]), or turns into
    something other than a dict ([AttributeError]), or turns into a dict one
    of whose written values cannot be encoded ([UnicodeEncodeError]); and
    the export raises whenever some hearing is such a string.  A row is its
    cells with commas between them and a line end after them; a cell with a
    comma, a quote or a line end in it stands between quotes with its quotes
    doubled, any other cell as it is, and a cell is read back from the row
    as the text it was written from. *)
Theorem C6_exports_finish_or_raise (repr : pyval -> string)
    (results : list inmate) (filename : string) (st : state) :
  let csv := export_to_csv repr (Some results) (Some filename) st in
  let json := export_to_json repr (Some results) (Some filename) st in
  let hearings :=
    export_parole_hearings_to_csv repr (Some results) (Some filename) st in
  let made := fun (p : inmate * hearing) (row : list pyval) =>
    hearing_cells p = Return row /\ forallb encodable row = true in
  (fst csv = Return filename
   /\ file_content (snd csv) filename
      = Some (flat_header +:+ CRLF
              +:+ cat (map (fun r =>
                         String.concat comma
                           (map join_append (flat_strings r)) +:+ CRLF)
                       results)))
  /\ (fst json = Return filename
      /\ file_content (snd json) filename
         = Some (_iterencode repr (py_of_results results) 0))
  /\ ((exists rows,
          fst hearings = Return filename
          /\ Forall2 made (hearing_pairs results) rows
          /\ file_content (snd hearings) filename
             = Some (hearings_header +:+ CRLF
                     +:+ cat (map (row_text repr) rows)))
      \/ (exists e pre p post rows s,
            fst hearings = Raise e
            /\ stdout (os (snd hearings)) = stdout (os st)
            /\ hearing_pairs results = pre ++ p :: post
            /\ Forall2 made pre rows
            /\ file_content (snd hearings) filename
               = Some (hearings_header +:+ CRLF
                       +:+ cat (map (row_text repr) rows))
            /\ snd p = HearingStr s
            /\ ((json_loads s = Raise e
                 /\ (e = JSONDecodeError \/ e = ValueError
                     \/ e = RecursionError))
                \/ (exists v,
                      json_loads s = Return v
                      /\ (forall d, v <> PDict d)
                      /\ e = AttributeError)
                \/ (exists d,
                      json_loads s = Return (PDict d)
                      /\ forallb encodable (written_values d) = false
                      /\ e = UnicodeEncodeError))))
  /\ (forall r s,
        In r results ->
        In (HearingStr s) (board_of_parole_hearings r) ->
        (forall d, json_loads s = Return (PDict d) ->
                   forallb encodable (written_values d) = false) ->
        exists e, fst hearings = Raise e)
  /\ ((forall r s,
         In r results ->
         In (HearingStr s) (board_of_parole_hearings r) ->
         exists d, json_loads s = Return (PDict d)
                   /\ forallb encodable (written_values d) = true) ->
      fst hearings = Return filename)
  /\ (forall r s d,
        json_loads s = Return (PDict d) ->
        hearing_cells (r, HearingStr s)
        = Return (PStr (cdcr_number r) :: py_of_opt (name r)
                  :: written_values d))
  /\ (forall s,
        join_append s
        = if has_special s
          then String quote_char
                 (double_quotes s +:+ String quote_char EmptyString)
          else s)
  /\ (forall s t,
        field_end t = true -> read_field (join_append s +:+ t) = (s, t)).
Proof.
  intros csv json hearings made. subst csv json hearings made.
  split; [| split; [| split; [| split; [| split; [| split; [| split]]]]]].
  - destruct (export_to_csv_file repr results filename st) as [-> ->].
    split; [reflexivity |]. unfold flat_text.
    rewrite flat_header_line, append_assoc.
    do 3 f_equal. f_equal. apply map_ext. intros r. apply flat_line_strings.
  - apply export_to_json_file.
  - destruct (hearings_export_ends repr results filename st)
      as [(rows & Hall & ->) | (e & pre & p & post & rows & Hl & Hall & Hp & ->)];
      cbn [fst snd].
    + left. exists rows.
      rewrite file_content_printed, file_content_put. auto.
    + right.
      destruct (hearing_line_raises repr p e Hp) as (s & Hs & Hcause).
      exists e, pre, p, post, rows, s.
      rewrite file_content_put, stdout_put_file.
      repeat (split; [now auto |]). exact Hcause.
  - intros r s Hr Hs Hbad.
    destruct (hearings_export_ends repr results filename st)
      as [(rows & Hall & _) | (e & pre & p & post & rows & _ & _ & _ & ->)];
      [| now exists e].
    exfalso.
    assert (Hin : In (r, HearingStr s) (hearing_pairs results))
      by now apply in_hearing_pairs.
    assert (Hrow : exists row,
               hearing_cells (r, HearingStr s) = Return row
               /\ forallb encodable row = true).
    { clear - Hin Hall.
      induction Hall as [|p row ps rows Hp _ IH]; [destruct Hin |].
      destruct Hin as [-> | Hin]; [now exists row | exact (IH Hin)]. }
    destruct Hrow as (row & Hrow & He).
    unfold hearing_cells in Hrow. cbn [fst snd decode_hearing] in Hrow.
    destruct (json_loads s) as [v|e]; [| discriminate].
    destruct v; try discriminate.
    specialize (Hbad d eq_refl). injection Hrow as <-.
    cbn [forallb encodable] in He. rewrite encodable_opt in He.
    cbn [andb] in He.
    change (forallb encodable (written_values d) = true) in He.
    congruence.
  - intros Hgood.
    destruct (hearings_export_ends repr results filename st)
      as [(rows & _ & ->) | (e & pre & p & post & rows & Hl & _ & Hp & _)];
      [reflexivity |].
    exfalso.
    destruct (hearing_line_raises repr p e Hp) as (s & Hs & Hcause).
    assert (Hin : In p (hearing_pairs results))
      by (rewrite Hl; apply in_elt).
    apply in_hearing_pairs in Hin. destruct Hin as [Hr Hh].
    rewrite Hs in Hh.
    destruct (Hgood (fst p) s Hr Hh) as (d & Hd & He).
    destruct Hcause as [[H _] | [(v & H & Hv & _) | (d' & H & He' & _)]];
      rewrite Hd in H.
    + discriminate.
    + injection H as <-. now apply (Hv d).
    + injection H as <-. congruence.
  - intros r s d H. unfold hearing_cells.
    cbn [fst snd decode_hearing]. now rewrite H.
  - intros s. unfold join_append. rewrite join_append_data_spec.
    destruct (has_special s) eqn:Hs; [reflexivity |].
    now apply double_quotes_plain.
  - intros s t. apply read_field_spec.
Qed.

(** A record with a hearing given as text that is no JSON: the hearings
    export raises. *)
Lemma C6_witness :
  exists e,
    fst (export_parole_hearings_to_csv no_repr
           (Some [mk_inmate "T97214" None None None None None None
                    [HearingStr "not json"]])
           (Some "hearings.csv") fresh) = Raise e.
Proof.
  apply (proj1 (proj2 (proj2 (proj2
           (C6_exports_finish_or_raise no_repr
              [mk_inmate "T97214" None None None None None None
                 [HearingStr "not json"]] "hearings.csv" fresh))))
           (mk_inmate "T97214" None None None None None None
              [HearingStr "not json"]) "not json").
  - left. reflexivity.
  - left. reflexivity.
  - intros d H. vm_compute in H. discriminate H.
Defined.

(** C6, as stated, fails: a hearing given as the text
    [{"date": 5, "zzz": true}] decodes to a dict that is no hearing, yet the
    hearings export returns as after a success, with a row for it in the
    file. *)
Lemma C6_counterexample :
  json_loads unchecked_payload
    = Return (PDict [("date", PInt 5); ("zzz", PBool true)])
  /\ hearing_of_py (PDict [("date", PInt 5); ("zzz", PBool true)]) = None
  /\ export_parole_hearings_to_csv no_repr (Some unchecked_results)
       (Some "hearings.csv") fresh
     = (Return "hearings.csv",
        printed "✓ Parole Hearings CSV exported to: hearings.csv"
          (put_file "hearings.csv"
             (hearings_header +:+ CRLF +:+ "T1,Doe,5,,," +:+ CRLF) fresh)).
Proof.
  split; [vm_compute; reflexivity |]. split; [reflexivity |].
  rewrite export_parole_hearings_to_csv_run. reflexivity.
Qed.

(** C7: each of the three exports, given the record list and the file name,
    leaves the same bytes in the file whatever the state it starts from (the
    object's attributes, the files already there, what was printed), and so
    also when it is called a second time after itself; it ends the same way
    both times. *)
Theorem C7_exports_are_functions_of_their_input (repr : pyval -> string)
    (results : list inmate) (filename : string) (st st' : state) :
  let csv := export_to_csv repr (Some results) (Some filename) in
  let json := export_to_json repr (Some results) (Some filename) in
  let hearings :=
    export_parole_hearings_to_csv repr (Some results) (Some filename) in
  (fst (csv st) = fst (csv st')
   /\ file_content (snd (csv st)) filename
      = file_content (snd (csv st')) filename
   /\ file_content (snd (csv (snd (csv st)))) filename
      = file_content (snd (csv st)) filename)
  /\ (fst (json st) = fst (json st')
      /\ file_content (snd (json st)) filename
         = file_content (snd (json st')) filename
      /\ file_content (snd (json (snd (json st)))) filename
         = file_content (snd (json st)) filename)
  /\ (fst (hearings st) = fst (hearings st')
      /\ file_content (snd (hearings st)) filename
         = file_content (snd (hearings st')) filename
      /\ file_content (snd (hearings (snd (hearings st)))) filename
         = file_content (snd (hearings st)) filename).
Proof.
  intros csv json hearings. subst csv json hearings. cbv beta.
  pose proof (export_to_csv_file repr results filename) as Hc.
  pose proof (export_to_json_file repr results filename) as Hj.
  pose proof (export_parole_hearings_to_csv_file repr results filename) as Hh.
  split; [| split].
  - destruct (Hc st) as [E1 F1], (Hc st') as [E2 F2].
    destruct (Hc (snd (export_to_csv repr (Some results) (Some filename) st)))
      as [_ F3].
    rewrite E1, E2, F1, F2, F3. auto.
  - destruct (Hj st) as [E1 F1], (Hj st') as [E2 F2].
    destruct (Hj (snd (export_to_json repr (Some results) (Some filename) st)))
      as [_ F3].
    rewrite E1, E2, F1, F2, F3. auto.
  - destruct (Hh st) as [E1 F1], (Hh st') as [E2 F2].
    destruct (Hh (snd (export_parole_hearings_to_csv repr (Some results)
                         (Some filename) st))) as [_ F3].
    rewrite E1, E2, F1, F2, F3. auto.
Qed.

(** C8: whatever the records, the flat CSV begins with the header line
    [cdcr_number,name,age,admission_date,current_location,commitment_county,
    parole_eligible_date,num_parole_hearings] and the hearings CSV with the
    header line [cdcr_number,inmate_name,date,action,status,outcome]; the
    rows follow the line terminator, and no header holds a line feed, so
    the header is the whole first line. *)
Theorem C8_header_rows (repr : pyval -> string)
    (results : list inmate) (filename : string) (st : state) :
  (exists rows,
      file_content
        (snd (export_to_csv repr (Some results) (Some filename) st)) filename
      = Some (flat_header +:+ CRLF +:+ rows))
  /\ (exists rows,
        file_content
          (snd (export_parole_hearings_to_csv repr (Some results)
                  (Some filename) st)) filename
        = Some (hearings_header +:+ CRLF +:+ rows))
  /\ occurs_in LF flat_header = false
  /\ occurs_in LF hearings_header = false.
Proof.
  split; [| split; [| split; reflexivity]].
  - destruct (export_to_csv_file repr results filename st) as [_ ->].
    eexists. unfold flat_text.
    rewrite flat_header_line, append_assoc. reflexivity.
  - destruct (export_parole_hearings_to_csv_file repr results filename st)
      as [_ ->].
    eexists. unfold hearings_text.
    rewrite hearings_header_line, append_assoc. reflexivity.
Qed.

(** C9: as the source stands, [search_cdcr_number] looks nothing up and
    cannot fail: the collector returns, for every identifier list, the
    records with every optional field absent and no hearings, one per
    identifier, and never raises; for ["A11111"; "B22222"] it returns two
    records, the second for B22222 with nothing else in it, and the flat
    CSV of that output has two data rows.  The loop of the collector has no
    handler around the call: with a lookup in the place of the method that
    gives a record for the identifiers of [pre] and raises for [id], the
    collector raises that exception at [id], returns no list, leaves the
    object and the files as they were, and prints nothing after the
    announcement of [id]: the identifiers after [id] are not visited. *)
Theorem C9_collector_and_a_raising_lookup :
  (forall cdcr_numbers st,
      search_multiple_calling (fun id => ret (search_cdcr_number id))
        cdcr_numbers st
      = search_multiple_cdcr_numbers cdcr_numbers st
      /\ fst (search_multiple_cdcr_numbers cdcr_numbers st)
         = Return (map placeholder cdcr_numbers))
  /\ (forall repr st filename,
        exists r1 r2 st1,
          search_multiple_cdcr_numbers ["A11111"; "B22222"] st
            = (Return [r1; r2], st1)
          /\ r2 = placeholder "B22222"
          /\ file_content
               (snd (export_to_csv repr (Some [r1; r2]) (Some filename) st1))
               filename
             = Some (flat_header +:+ CRLF
                     +:+ "A11111,,,,,,,0" +:+ CRLF
                     +:+ "B22222,,,,,,,0" +:+ CRLF))
  /\ (forall (lookup : string -> outcome inmate) pre id post e st,
        Forall (fun x => exists r, lookup x = Return r) pre ->
        lookup id = Raise e ->
        let total := length (pre ++ id :: post) in
        let run :=
          search_multiple_calling (fun x => lift (lookup x))
            (pre ++ id :: post) st in
        fst run = Raise e
        /\ self (snd run) = self st
        /\ files (os (snd run)) = files (os st)
        /\ stdout (os (snd run))
           = stdout (os st) ++ progress total 1 pre
             ++ [announcement total (S (length pre)) id]).
Proof.
  split; [| split].
  - intros ids st. split; [apply search_multiple_calling_method |].
    apply (search_multiple_spec ids st).
  - intros repr st filename.
    destruct (search_multiple_spec ["A11111"; "B22222"] st) as [H _].
    destruct (search_multiple_cdcr_numbers ["A11111"; "B22222"] st)
      as [o st1].
    cbn [fst] in H. subst o.
    exists (placeholder "A11111"), (placeholder "B22222"), st1.
    split; [reflexivity |]. split; [reflexivity |].
    destruct (export_to_csv_file repr
                [placeholder "A11111"; placeholder "B22222"] filename st1)
      as [_ ->].
    reflexivity.
  - intros lookup pre id post e st Hpre Hid total run. subst total run.
    pose proof (search_loop_calling_raises lookup e id post Hid pre
                  (length (pre ++ id :: post)) 1 [] st Hpre) as H.
    unfold search_multiple_calling, bind. rewrite H.
    cbn [fst snd self os files stdout]. auto.
Qed.

(** C9, as stated, fails for a lookup that fails: with a lookup that raises
    for B22222 in the place of the method, the collector given
    ["A11111"; "B22222"] raises, returns no list of two records, and leaves
    [self.results] empty. *)
Lemma C9_counterexample :
  fst (search_multiple_calling (fun id => lift (failing_lookup id))
         ["A11111"; "B22222"] fresh)
    = Raise (OtherError "TimeoutException")
  /\ results (self (snd (search_multiple_calling
                           (fun id => lift (failing_lookup id))
                           ["A11111"; "B22222"] fresh))) = []
  /\ stdout (os (snd (search_multiple_calling
                        (fun id => lift (failing_lookup id))
                        ["A11111"; "B22222"] fresh)))
     = [ LF +:+ "[1/2] Searching for CDCR number: A11111";
         "✓ Successfully retrieved data for A11111";
         LF +:+ "[2/2] Searching for CDCR number: B22222" ].
Proof. repeat split. Qed.

(** C10: [search_cdcr_number] returns, for every identifier, the record that
    carries it with the six other fields [None] and no hearings; so every
    record the collector returns is such a record. *)
Theorem C10_records_are_placeholders :
  (forall id,
      cdcr_number (search_cdcr_number id) = id
      /\ name (search_cdcr_number id) = None
      /\ age (search_cdcr_number id) = None
      /\ admission_date (search_cdcr_number id) = None
      /\ current_location (search_cdcr_number id) = None
      /\ commitment_county (search_cdcr_number id) = None
      /\ parole_eligible_date (search_cdcr_number id) = None
      /\ board_of_parole_hearings (search_cdcr_number id) = [])
  /\ (forall cdcr_numbers st,
        exists rs,
          fst (search_multiple_cdcr_numbers cdcr_numbers st) = Return rs
          /\ Forall (fun r => r = placeholder (cdcr_number r)) rs).
Proof.
  split.
  - intros id. repeat split.
  - intros ids st. exists (map search_cdcr_number ids).
    destruct (search_multiple_spec ids st) as [H _].
    split; [exact H |].
    apply List.Forall_forall. intros r Hr.
    apply in_map_iff in Hr. destruct Hr as (id & <- & _). reflexivity.
Qed.

(** * Further properties

    The collector's output and pauses, the state the methods leave, the
    summary, the file names made from the timestamp, the hearings given as
    dicts or as text, what the flat table keeps of a record, the script,
    and the limits of the interpreter as the hearings export meets them. *)


(** X2: the list [search_multiple_cdcr_numbers] returns is also what it
    leaves in [self.results], whatever was there before; so the three
    exports and the summary, called afterwards without a record list, do
    what they do when given the list returned. *)
Theorem collector_results_are_default (repr : pyval -> string)
    (cdcr_numbers : list string) (filename : option string) (st : state) :
  exists rs st1,
    search_multiple_cdcr_numbers cdcr_numbers st = (Return rs, st1)
    /\ results (self st1) = rs
    /\ export_to_csv repr None filename st1
       = export_to_csv repr (Some rs) filename st1
    /\ export_to_json repr None filename st1
       = export_to_json repr (Some rs) filename st1
    /\ export_parole_hearings_to_csv repr None filename st1
       = export_parole_hearings_to_csv repr (Some rs) filename st1
    /\ print_summary repr None st1 = print_summary repr (Some rs) st1.
Proof.
  rewrite search_multiple_run. eexists. eexists.
  split; [reflexivity |]. split; [reflexivity |].
  repeat split.
Qed.

(** X3: an export changes one file, the one it names (the name given, or
    the name made from the timestamp), and nothing else: not the object,
    not the other files, not the time slept.  An export that returns
    returns that name and prints one line, which holds the name; the
    hearings export that raises prints nothing. *)
Theorem exports_touch_one_file (repr : pyval -> string)
    (given : option (list inmate)) (filename : option string) (st : state) :
  let csv := export_to_csv repr given filename st in
  let json := export_to_json repr given filename st in
  let hearings := export_parole_hearings_to_csv repr given filename st in
  let stamp := timestamp (self st) in
  let f1 := or_else filename ("cdcr_inmates_" +:+ stamp +:+ ".csv") in
  let f2 := or_else filename ("cdcr_inmates_" +:+ stamp +:+ ".json") in
  let f3 :=
    or_else filename ("cdcr_parole_hearings_" +:+ stamp +:+ ".csv") in
  (fst csv = Return f1
   /\ touches_only f1 st (snd csv)
   /\ stdout (os (snd csv))
      = stdout (os st) ++ [LF +:+ "✓ CSV exported to: " +:+ f1])
  /\ (fst json = Return f2
      /\ touches_only f2 st (snd json)
      /\ stdout (os (snd json))
         = stdout (os st) ++ ["✓ JSON exported to: " +:+ f2])
  /\ (touches_only f3 st (snd hearings)
      /\ ((fst hearings = Return f3
           /\ stdout (os (snd hearings))
              = stdout (os st)
                ++ ["✓ Parole Hearings CSV exported to: " +:+ f3])
          \/ (exists e,
                fst hearings = Raise e
                /\ stdout (os (snd hearings)) = stdout (os st)))).
Proof.
  cbv zeta. rewrite export_to_csv_run, export_to_json_run.
  pose proof (export_parole_hearings_to_csv_run repr given filename st) as H.
  cbv zeta in H. rewrite H. clear H. cbn [fst snd].
  split; [| split].
  - split; [reflexivity |]. split; [| reflexivity].
    apply touches_only_printed, touches_only_put.
  - split; [reflexivity |]. split; [| reflexivity].
    apply touches_only_printed, touches_only_put.
  - match goal with
    | |- context [snd (written_by ?G ?l)] =>
        destruct (snd (written_by G l)) as [[]|e]
    end; cbn [fst snd].
    + split; [apply touches_only_printed, touches_only_put |].
      left. split; reflexivity.
    + split; [apply touches_only_put |].
      right. exists e. split; reflexivity.
Qed.

(** X4: called one after the other without a file name, the three exports
    write three different files, named from the one timestamp of the
    object, and none overwrites another: after the third, each file holds
    what its export wrote. *)
Theorem stamped_files_coexist (repr : pyval -> string)
    (given : option (list inmate)) (st : state) :
  let stamp := timestamp (self st) in
  let rs := or_else given (results (self st)) in
  let st1 := snd (export_to_csv repr given None st) in
  let st2 := snd (export_to_json repr given None st1) in
  let st3 := snd (export_parole_hearings_to_csv repr given None st2) in
  file_content st3 ("cdcr_inmates_" +:+ stamp +:+ ".csv")
    = Some (flat_text repr rs)
  /\ file_content st3 ("cdcr_inmates_" +:+ stamp +:+ ".json")
     = Some (_iterencode repr (py_of_results rs) 0)
  /\ file_content st3 ("cdcr_parole_hearings_" +:+ stamp +:+ ".csv")
     = Some (hearings_text repr rs).
Proof.
  cbv zeta.
  destruct (stamped_names_differ (timestamp (self st))) as (H12 & H13 & H23).
  rewrite !hearings_export_files.
  rewrite export_to_csv_run. cbn [snd or_else].
  rewrite export_to_json_run. cbn [snd or_else].
  change (self (printed ?l ?s)) with (self s).
  change (self (put_file ?f ?c ?s)) with (self s).
  unfold flat_text.
  repeat split.
  - rewrite file_content_put_ne by auto. rewrite file_content_printed.
    rewrite file_content_put_ne by auto. rewrite file_content_printed.
    apply file_content_put.
  - rewrite file_content_put_ne by auto. rewrite file_content_printed.
    apply file_content_put.
  - apply file_content_put.
Qed.

(** X5: [print_summary] never raises and changes nothing but the output.
    It calls [print] [4 + 8 * n] times for [n] records: three times for the
    heading, eight times for each record in input order, numbered from 1,
    and once for the closing rule.  The first text of the heading, the first
    text of each record and the closing rule begin with a line feed, so the
    output is [6 + 9 * n] lines, and one line more for every line feed in a
    field that is shown.  A field that is [None] is shown as the text
    [None]. *)
Theorem print_summary_lines (repr : pyval -> string)
    (given : option (list inmate)) (st : state) :
  let rs := or_else given (results (self st)) in
  exists entries,
    print_summary repr given st = (Return tt, more_output entries st)
    /\ length entries = 4 + 8 * length rs
    /\ output_lines entries
       = 6 + 9 * length rs + list_sum (map shown_line_feeds rs)
    /\ entries !! 0 = Some (LF +:+ str_mul "=" 80)
    /\ entries !! 1 = Some "CDCR INMATE SEARCH RESULTS SUMMARY"
    /\ entries !! 2 = Some (str_mul "=" 80)
    /\ (forall k r j,
          rs !! k = Some r -> j < 8 ->
          entries !! (3 + 8 * k + j) = summary_block (S k) r !! j)
    /\ entries !! (3 + 8 * length rs) = Some (LF +:+ str_mul "=" 80).
Proof.
  cbv zeta. eexists. split; [apply print_summary_run |].
  set (rs := or_else given (results (self st))).
  split; [| split; [| split; [| split; [| split; [| split]]]]];
    try reflexivity.
  - rewrite !length_app, length_summary_blocks. cbn [length]. lia.
  - rewrite !output_lines_app, output_lines_summary_blocks.
    change (output_lines [LF +:+ str_mul "=" 80;
                          "CDCR INMATE SEARCH RESULTS SUMMARY";
                          str_mul "=" 80]) with 4.
    change (output_lines [LF +:+ str_mul "=" 80]) with 2.
    lia.
  - intros k r j Hk Hj.
    rewrite lookup_app_r by (cbn; lia).
    replace (3 + 8 * k + j - length _) with (8 * k + j) by (cbn [length]; lia).
    rewrite lookup_app_l.
    + now apply (summary_blocks_lookup rs 1 k r j).
    + rewrite length_summary_blocks.
      apply lookup_lt_Some in Hk. lia.
  - rewrite lookup_app_r by (cbn; lia).
    rewrite lookup_app_r by (rewrite length_summary_blocks; cbn; lia).
    rewrite length_summary_blocks.
    replace (3 + 8 * length rs - length _ - 8 * length rs) with 0
      by (cbn [length]; lia).
    reflexivity.
Qed.

(** X6: when every hearing of every record is a dict, the hearings export
    returns the file name; the file is the header row and one row per
    (record, hearing) pair in order, and the number of these rows is the
    sum of the counts the flat export writes under [num_parole_hearings]. *)
Theorem dict_hearings_export (repr : pyval -> string)
    (rs : list inmate) (filename : string) (st : state) :
  Forall (fun r => Forall is_dict (board_of_parole_hearings r)) rs ->
  let run :=
    export_parole_hearings_to_csv repr (Some rs) (Some filename) st in
  fst run = Return filename
  /\ file_content (snd run) filename
     = Some (hearings_header +:+ CRLF
             +:+ cat (map dict_row (hearing_pairs rs)))
  /\ length (hearing_pairs rs)
     = list_sum (map (fun r => length (board_of_parole_hearings r)) rs).
Proof.
  intros H run. subst run.
  destruct (export_parole_hearings_to_csv_file repr rs filename st) as [-> ->].
  unfold hearings_text, hearings_run.
  rewrite (written_by_turn_total (hearing_line repr) dict_row).
  - cbn [fst snd finish]. rewrite hearings_header_line, append_assoc.
    split; [reflexivity |]. split; [reflexivity |]. apply length_hearing_pairs.
  - apply all_dict_pairs in H. revert H. apply List.Forall_impl.
    intros [r [d|s]] Hd; [| destruct Hd].
    unfold dict_row. cbn [fst snd]. apply hearing_dict_line.
Qed.

Lemma dict_hearings_export_witness :
  fst (export_parole_hearings_to_csv no_repr (Some dict_results)
         (Some "hearings.csv") fresh) = Return "hearings.csv"
  /\ file_content
       (snd (export_parole_hearings_to_csv no_repr (Some dict_results)
               (Some "hearings.csv") fresh)) "hearings.csv"
     = Some (hearings_header +:+ CRLF
             +:+ cat (map dict_row (hearing_pairs dict_results)))
  /\ length (hearing_pairs dict_results)
     = list_sum
         (map (fun r => length (board_of_parole_hearings r)) dict_results).
Proof.
  apply (dict_hearings_export no_repr dict_results "hearings.csv" fresh).
  repeat (apply List.Forall_cons || apply List.Forall_nil); exact I.
Defined.

(** X7: the two branches of the hearings export agree: with every hearing
    dict replaced by the JSON text [export_to_json] writes for it, the
    export ends the same way and leaves the same state, the file included.
    The dicts have distinct keys, as Python dicts do. *)
Theorem hearing_text_or_dict (repr : pyval -> string)
    (rs : list inmate) (filename : option string) (st : state) :
  distinct_keys rs ->
  export_parole_hearings_to_csv repr
    (Some (map (with_hearings (as_json_text repr)) rs)) filename st
  = export_parole_hearings_to_csv repr (Some rs) filename st.
Proof.
  intros Hk.
  pose proof (fun given =>
                export_parole_hearings_to_csv_run repr given filename st) as H.
  cbv zeta in H. rewrite !H. clear H. cbn [or_else].
  replace (written_by (turn (hearing_line repr))
             (hearing_pairs (map (with_hearings (as_json_text repr)) rs)))
    with (written_by (turn (hearing_line repr)) (hearing_pairs rs));
    [reflexivity |].
  symmetry. apply written_by_ext.
  unfold distinct_keys in Hk.
  induction Hk as [|r rs Hr _ IH]; [constructor |].
  unfold hearing_pairs. cbn [map flat_map].
  apply Forall2_app; [| exact IH].
  cbn [with_hearings board_of_parole_hearings]. clear IH.
  generalize (with_hearings (as_json_text repr) r)
    (eq_refl : cdcr_number (with_hearings (as_json_text repr) r)
               = cdcr_number r)
    (eq_refl : name (with_hearings (as_json_text repr) r) = name r).
  intros r' Hn Hm.
  induction Hr as [|h hs Hh _ IH]; [constructor |].
  cbn [map]. constructor; [| exact IH].
  unfold turn. now rewrite (hearing_line_as_json_text repr r r' h).
Qed.

Lemma hearing_text_or_dict_witness :
  export_parole_hearings_to_csv no_repr
    (Some (map (with_hearings (as_json_text no_repr)) dict_results))
    (Some "hearings.csv") fresh
  = export_parole_hearings_to_csv no_repr (Some dict_results)
      (Some "hearings.csv") fresh.
Proof.
  apply (hearing_text_or_dict no_repr dict_results (Some "hearings.csv")
           fresh).
  unfold distinct_keys, dict_results.
  repeat (apply List.Forall_cons || apply List.Forall_nil);
    refine (bool_decide_unpack _ _); vm_compute; exact I.
Defined.

(** X8: the flat CSV keeps of a record list exactly the identifiers, the
    six optional fields with [None] and the empty string taken as one, and
    the numbers of hearings: two lists give the same file if and only if
    they agree on these, record by record.  So a row is read back without
    ambiguity, whatever commas, quotes and line ends the fields hold, and
    the file does not tell an absent field from an empty one. *)
Theorem flat_csv_shows_flat_view (repr : pyval -> string)
    (rs1 rs2 : list inmate) (f1 f2 : string) (st1 st2 : state) :
  file_content (snd (export_to_csv repr (Some rs1) (Some f1) st1)) f1
  = file_content (snd (export_to_csv repr (Some rs2) (Some f2) st2)) f2
  <-> map flat_view rs1 = map flat_view rs2.
Proof.
  destruct (export_to_csv_file repr rs1 f1 st1) as [_ ->].
  destruct (export_to_csv_file repr rs2 f2 st2) as [_ ->].
  unfold flat_text. split; intros H.
  - injection H as H. apply append_inj_l, flat_rows_inj in H.
    revert H. apply map_agree. intros a b. apply flat_strings_view.
  - do 3 f_equal. revert H. apply map_agree. intros a b E.
    rewrite !flat_line_strings. apply flat_strings_view in E. now rewrite E.
Qed.

(** X9: the JSON file determines the record list: two lists whose hearing
    dicts have distinct keys give the same file if and only if they are the
    same list. *)
Theorem json_file_determines_records (repr : pyval -> string)
    (rs1 rs2 : list inmate) (f1 f2 : string) (st1 st2 : state) :
  distinct_keys rs1 -> distinct_keys rs2 ->
  file_content (snd (export_to_json repr (Some rs1) (Some f1) st1)) f1
  = file_content (snd (export_to_json repr (Some rs2) (Some f2) st2)) f2
  <-> rs1 = rs2.
Proof.
  intros H1 H2.
  destruct (export_to_json_file repr rs1 f1 st1) as [_ ->].
  destruct (export_to_json_file repr rs2 f2 st2) as [_ ->].
  split; intros H; [| now subst].
  apply (f_equal (fun o => json_loads (or_else o EmptyString))) in H.
  cbn [or_else] in H.
  rewrite !json_loads_results in H by assumption.
  apply (f_equal (fun o => match o with
                          | Return v => results_of_py v
                          | Raise _ => None
                          end)) in H.
  cbv beta iota in H.
  rewrite !results_of_py_of_results in H. now injection H.
Qed.

Lemma json_file_determines_records_witness :
  file_content
    (snd (export_to_json no_repr (Some sample_results) (Some "a.json")
            fresh)) "a.json"
  = file_content
      (snd (export_to_json no_repr (Some dict_results) (Some "b.json")
              fresh)) "b.json"
  <-> sample_results = dict_results.
Proof.
  apply (json_file_determines_records no_repr sample_results dict_results
           "a.json" "b.json" fresh fresh).
  - unfold distinct_keys, sample_results.
    repeat (apply List.Forall_cons || apply List.Forall_nil);
      try exact I.
    refine (bool_decide_unpack _ _). vm_compute. exact I.
  - unfold distinct_keys, dict_results.
    repeat (apply List.Forall_cons || apply List.Forall_nil);
      refine (bool_decide_unpack _ _); vm_compute; exact I.
Defined.

(** X10: when no field of any record holds a comma, a quote, a carriage
    return or a line feed, the flat CSV is the header row and, for each
    record, its eight values joined by commas as they are, an absent field
    as nothing. *)
Theorem plain_fields_verbatim (repr : pyval -> string)
    (rs : list inmate) (filename : string) (st : state) :
  Forall (fun r => Forall (fun s => has_special s = false) (fst (flat_view r)))
    rs ->
  file_content
    (snd (export_to_csv repr (Some rs) (Some filename) st)) filename
  = Some (flat_header +:+ CRLF
          +:+ cat (map (fun r =>
                          String.concat ","
                            (fst (flat_view r)
                             ++ [str_int (Z.of_nat (snd (flat_view r)))])
                          +:+ CRLF) rs)).
Proof.
  intros H.
  destruct (export_to_csv_file repr rs filename st) as [_ ->].
  unfold flat_text. rewrite flat_header_line, append_assoc.
  do 3 f_equal. f_equal.
  induction H as [|r rs Hr _ IH]; [reflexivity |].
  cbn [map]. rewrite IH, flat_line_strings. do 3 f_equal.
  unfold flat_strings. apply map_join_append_plain.
  apply Forall_app. split; [exact Hr |].
  constructor; [apply str_int_plain | constructor].
Qed.

Lemma plain_fields_verbatim_witness :
  file_content
    (snd (export_to_csv no_repr (Some dict_results) (Some "inmates.csv")
            fresh)) "inmates.csv"
  = Some (flat_header +:+ CRLF
          +:+ cat (map (fun r =>
                          String.concat ","
                            (fst (flat_view r)
                             ++ [str_int (Z.of_nat (snd (flat_view r)))])
                          +:+ CRLF) dict_results)).
Proof.
  apply (plain_fields_verbatim no_repr dict_results "inmates.csv" fresh).
  repeat (apply List.Forall_cons || apply List.Forall_nil); reflexivity.
Defined.

(** X11: what a run of the collector followed by the exports gives, for
    any identifiers: a flat CSV whose rows hold the identifier, six empty
    cells and the count 0; a JSON array of objects with the identifier and
    [null] and [[]] elsewhere; and a hearings CSV that is its header row
    alone, whose export returns. *)
Theorem pipeline_outputs (repr : pyval -> string)
    (cdcr_numbers : list string) (filename : string) (st : state) :
  let st1 := snd (search_multiple_cdcr_numbers cdcr_numbers st) in
  let csv := export_to_csv repr None (Some filename) st1 in
  let json := export_to_json repr None (Some filename) st1 in
  let hearings :=
    export_parole_hearings_to_csv repr None (Some filename) st1 in
  file_content (snd csv) filename
    = Some (flat_header +:+ CRLF
            +:+ cat (map (fun id => join_append id +:+ ",,,,,,,0" +:+ CRLF)
                       cdcr_numbers))
  /\ file_content (snd json) filename
     = Some (json_array 0
               (map (fun id =>
                       json_object 1
                         [ ("cdcr_number", py_encode_basestring id);
                           ("name", "null"); ("age", "null");
                           ("admission_date", "null");
                           ("current_location", "null");
                           ("commitment_county", "null");
                           ("parole_eligible_date", "null");
                           ("board_of_parole_hearings", "[]") ])
                  cdcr_numbers))
  /\ fst hearings = Return filename
  /\ file_content (snd hearings) filename = Some (hearings_header +:+ CRLF).
Proof.
  cbv zeta. rewrite search_multiple_run. cbn [snd].
  rewrite export_to_csv_run, export_to_json_run.
  pose proof (fun st' =>
     export_parole_hearings_to_csv_run repr None (Some filename) st') as H.
  cbv zeta in H. rewrite H. clear H.
  cbn [or_else self results snd]. rewrite placeholder_pairs.
  cbn [written_by fst snd].
  rewrite !file_content_printed, !file_content_put.
  rewrite flat_header_line, hearings_header_line, append_nil_r.
  split; [| split; [| split; reflexivity]].
  - rewrite append_assoc, map_map. do 3 f_equal. f_equal.
    apply map_ext. intros id. apply placeholder_line.
  - unfold py_of_results. rewrite iterencode_list, !map_map.
    reflexivity.
Qed.

(** X12: the script, from any state of the files and the clock: it ends
    without an exception, having slept one second and called [print] 27
    times, which makes 34 lines of output when the time stamp holds no line
    feed (seven of the texts begin with a line feed).  It leaves three
    files, named from the time the object was made: the flat
    CSV with the rows of D54803 and T97214, the JSON document of the two
    records, and the hearings CSV with its header row alone.  Every other
    file is as it was. *)
Theorem script_run (repr : pyval -> string) (st : state) :
  let stamp := clock (os st) in
  let f1 := "cdcr_inmates_" +:+ stamp +:+ ".csv" in
  let f2 := "cdcr_inmates_" +:+ stamp +:+ ".json" in
  let f3 := "cdcr_parole_hearings_" +:+ stamp +:+ ".csv" in
  exists st',
    main repr st = (Return tt, st')
    /\ file_content st' f1
       = Some (flat_header +:+ CRLF +:+ "D54803,,,,,,,0" +:+ CRLF
               +:+ "T97214,,,,,,,0" +:+ CRLF)
    /\ file_content st' f2
       = Some (_iterencode repr
                 (py_of_results [placeholder "D54803"; placeholder "T97214"])
                 0)
    /\ file_content st' f3 = Some (hearings_header +:+ CRLF)
    /\ (forall g, g <> f1 -> g <> f2 -> g <> f3 ->
          file_content st' g = file_content st g)
    /\ slept (os st') = slept (os st) + 1
    /\ (exists entries,
          stdout (os st') = stdout (os st) ++ entries
          /\ length entries = 27
          /\ output_lines entries = 34 + 3 * line_feeds stamp)
    /\ self st'
       = mk_scraper [placeholder "D54803"; placeholder "T97214"] stamp.
Proof.
  cbv zeta.
  destruct (stamped_names_differ (clock (os st))) as (H12 & H13 & H23).
  unfold main. unfold bind at 1. unfold construct.
  unfold bind at 1. rewrite search_multiple_run.
  unfold bind at 1. rewrite print_summary_run.
  unfold bind at 1. rewrite export_to_csv_run.
  unfold bind at 1. rewrite export_to_json_run.
  unfold bind at 1.
  pose proof (fun st' =>
     export_parole_hearings_to_csv_run repr
       (Some (map search_cdcr_number ["D54803"; "T97214"])) None st') as H.
  cbv zeta in H. rewrite H. clear H.
  cbn [or_else hearing_pairs flat_map map search_cdcr_number
       board_of_parole_hearings app written_by fst snd].
  rewrite !self_printed, !self_put_file, !self_more_output.
  cbn [self timestamp init].
  eexists. split; [reflexivity |].
  split; [| split; [| split; [| split; [| split; [| split]]]]].
  - rewrite file_content_printed, file_content_put_ne by auto.
    rewrite file_content_printed, file_content_put_ne by auto.
    rewrite file_content_printed, file_content_put. reflexivity.
  - rewrite file_content_printed, file_content_put_ne by auto.
    rewrite file_content_printed, file_content_put. reflexivity.
  - rewrite file_content_printed, file_content_put. reflexivity.
  - intros g G1 G2 G3.
    rewrite file_content_printed, file_content_put_ne by auto.
    rewrite file_content_printed, file_content_put_ne by auto.
    rewrite file_content_printed, file_content_put_ne by auto.
    rewrite file_content_more_output. reflexivity.
  - rewrite slept_printed, slept_put_file, slept_printed, slept_put_file,
      slept_printed, slept_put_file, slept_more_output. reflexivity.
  - rewrite stdout_printed, stdout_put_file, stdout_printed, stdout_put_file,
      stdout_printed, stdout_put_file, stdout_more_output.
    cbn [stdout os]. rewrite <- !List.app_assoc.
    rewrite ?self_printed, ?self_put_file, ?self_more_output.
    cbn [self timestamp].
    eexists. split; [reflexivity |]. split.
    + rewrite !length_app. cbn [length].
      rewrite !length_app, length_summary_blocks, length_progress.
      cbn [length]. lia.
    + rewrite !output_lines_app, !output_lines_cons, !output_lines_app,
        output_lines_summary_blocks, !output_lines_cons.
      change (output_lines (progress _ 1 ["D54803"; "T97214"])) with 6.
      rewrite !line_feeds_append.
      change (line_feeds (str_mul "=" 80)) with 0.
      generalize (line_feeds (clock (os st))). intros n.
      cbn. lia.
  - rewrite self_printed, self_put_file, self_printed, self_put_file,
      self_printed, self_put_file, self_more_output. reflexivity.
Qed.

(** X13: an object just made by [__init__] has no results and the time it
    was made as its timestamp: the three exports called on it without
    arguments return the names made from that time and write the two
    header rows alone and the empty JSON array. *)
Theorem exports_of_a_new_object (repr : pyval -> string) (st : state) :
  let stamp := clock (os st) in
  let st0 := snd (construct st) in
  let csv := export_to_csv repr None None st0 in
  let json := export_to_json repr None None st0 in
  let hearings := export_parole_hearings_to_csv repr None None st0 in
  self st0 = mk_scraper [] stamp
  /\ (fst csv = Return ("cdcr_inmates_" +:+ stamp +:+ ".csv")
      /\ file_content (snd csv) ("cdcr_inmates_" +:+ stamp +:+ ".csv")
         = Some (flat_header +:+ CRLF))
  /\ (fst json = Return ("cdcr_inmates_" +:+ stamp +:+ ".json")
      /\ file_content (snd json) ("cdcr_inmates_" +:+ stamp +:+ ".json")
         = Some "[]")
  /\ (fst hearings = Return ("cdcr_parole_hearings_" +:+ stamp +:+ ".csv")
      /\ file_content (snd hearings)
           ("cdcr_parole_hearings_" +:+ stamp +:+ ".csv")
         = Some (hearings_header +:+ CRLF)).
Proof.
  cbv zeta. rewrite export_to_csv_run, export_to_json_run.
  pose proof (fun st' =>
     export_parole_hearings_to_csv_run repr None None st') as H.
  cbv zeta in H. rewrite H. clear H.
  cbn [construct snd self init results timestamp or_else hearing_pairs
       flat_map written_by fst map cat fold_right].
  rewrite !file_content_printed, !file_content_put.
  rewrite flat_header_line, hearings_header_line, !append_nil_r.
  repeat split.
Qed.

(** X14: the timestamp is set once, when the object is made, and no method
    changes it: a second export without a file name, also after another
    run of the collector, returns the name the first returned and replaces
    what the first wrote; no second file is made. *)
Theorem stamped_name_is_reused (repr : pyval -> string)
    (rs1 rs2 : list inmate) (cdcr_numbers : list string) (st : state) :
  let f := "cdcr_inmates_" +:+ timestamp (self st) +:+ ".csv" in
  let first := export_to_csv repr (Some rs1) None st in
  let st1 := snd (search_multiple_cdcr_numbers cdcr_numbers (snd first)) in
  let second := export_to_csv repr (Some rs2) None st1 in
  fst first = Return f
  /\ fst second = Return f
  /\ file_content (snd second) f = Some (flat_text repr rs2)
  /\ forall g, g <> f -> file_content (snd second) g = file_content st g.
Proof.
  cbv zeta. rewrite export_to_csv_run. cbn [fst snd or_else].
  rewrite search_multiple_run. cbn [snd].
  rewrite export_to_csv_run. cbn [fst snd or_else self timestamp].
  change (self (printed ?l ?s)) with (self s).
  change (self (put_file ?f ?c ?s)) with (self s).
  split; [reflexivity |]. split; [reflexivity |].
  rewrite file_content_printed, file_content_put.
  split; [reflexivity |].
  intros g Hg. unfold file_content, printed, put_file.
  cbn [os files]. rewrite !lookup_insert_ne by auto. reflexivity.
Qed.


(** X16: a hearing given as text whose date is the escape of a high
    surrogate alone: [json.loads] returns a dict, and the hearings export
    raises [UnicodeEncodeError] at that hearing, with the header row and the
    row of the hearing before it in the file and no success line printed.
    With the escape of the low surrogate after it the two escapes are one
    character, and the export writes its four bytes. *)
Theorem lone_surrogate_is_not_written (st : state) :
  let lone := "{" +:+ quoted "date" +:+ ": " +:+ quoted "\ud83d" +:+ "}" in
  let pair :=
    "{" +:+ quoted "date" +:+ ": " +:+ quoted "\ud83d\ude00" +:+ "}" in
  let r := fun h =>
    mk_inmate "T1" (Some "Doe") None None None None None
      [ HearingDict [("date", Some "01/02/2020")]; HearingStr h ] in
  (exists s, json_loads lone = Return (PDict [("date", PLone s)]))
  /\ export_parole_hearings_to_csv no_repr (Some [r lone])
       (Some "hearings.csv") st
     = (Raise UnicodeEncodeError,
        put_file "hearings.csv"
          (hearings_header +:+ CRLF +:+ "T1,Doe,01/02/2020,,," +:+ CRLF) st)
  /\ export_parole_hearings_to_csv no_repr (Some [r pair])
       (Some "hearings.csv") st
     = (Return "hearings.csv",
        printed "✓ Parole Hearings CSV exported to: hearings.csv"
          (put_file "hearings.csv"
             (hearings_header +:+ CRLF +:+ "T1,Doe,01/02/2020,,," +:+ CRLF
              +:+ "T1,Doe,"
              +:+ String "240" (String "159" (String "152" (String "128" "")))
              +:+ ",,," +:+ CRLF) st)).
Proof.
  cbv zeta. split; [eexists; vm_compute; reflexivity |].
  split; rewrite export_parole_hearings_to_csv_run; reflexivity.
Qed.
